(** * Comput3AI plugin: intent extraction and action handlers

    A shallow embedding of the natural-language command layer of the
    Comput3AI plugin for ElizaOS (utils/validation.ts, utils/apiClient.ts,
    actions/launchWorkload.ts, actions/stopWorkload.ts,
    actions/listWorkloads.ts and the three read-only actions) together with
    the properties its specification states about it.

    Modelling conventions.
    - A JavaScript string is a [string]: one [ascii] per code unit, so texts
      are restricted to code units below 256.  Every pattern of the source is
      written in ASCII, hence case folding only ever relates ASCII letters.
    - A JavaScript number is a double ([number]): arithmetic rounds to the
      nearest double and overflows to the infinities.
    - A JavaScript object used as a bag of fields is a [gmap string jsval].
    - Collaborators (runtime settings, the language model, the JSON parser
      of the host, axios, the clock) are the fields of a [World]; a handler
      is a computation in a trace-and-exception monad that records every
      call it makes to them.  The callback, the logger and composePrompt
      are taken not to throw.
    - The text of an answer is display formatting and is not modelled; a
      callback is recorded with its structured content. *)

From Stdlib Require Import ZArith Ascii String Bool Lia.
From stdpp Require Import base option list strings gmap pretty.

Local Open Scope string_scope.

(** ** Characters *)

Module Char.

Definition code (c : ascii) : N := N_of_ascii c.

Definition in_range (lo hi c : ascii) : bool :=
  (code lo <=? code c)%N && (code c <=? code hi)%N.

Definition is_upper (c : ascii) : bool := in_range "A" "Z" c.
Definition is_lower (c : ascii) : bool := in_range "a" "z" c.

Definition to_upper (c : ascii) : ascii :=
  if is_lower c then ascii_of_N (code c - 32) else c.

Definition to_lower (c : ascii) : ascii :=
  if is_upper c then ascii_of_N (code c + 32) else c.

(** Canonicalize of the RegExp semantics without the u flag, on the code
    units that an ASCII pattern can relate: upper-casing of ASCII letters. *)
Definition canon_eq (a b : ascii) : bool := Ascii.eqb (to_upper a) (to_upper b).

Definition is_digit (c : ascii) : bool := in_range "0" "9" c.

Definition is_alpha (c : ascii) : bool := is_upper c || is_lower c.

Definition is_alnum (c : ascii) : bool := is_alpha c || is_digit c.

Definition is_hex (c : ascii) : bool :=
  is_digit c || in_range "a" "f" c || in_range "A" "F" c.

(** WhiteSpace and LineTerminator code units below 256:
    TAB, LF, VT, FF, CR, SP and NBSP. *)
Definition is_space (c : ascii) : bool :=
  let n := code c in
  ((9 <=? n) && (n <=? 13) || (n =? 32) || (n =? 160))%N.

(** LineTerminator code units below 256: LF and CR. *)
Definition is_line_terminator (c : ascii) : bool :=
  let n := code c in ((n =? 10) || (n =? 13))%N.

End Char.

(** ** Strings *)

Module Str.

(** [String.prototype.startsWith]. *)
Fixpoint startsWith (p s : string) : bool :=
  match p, s with
  | EmptyString, _ => true
  | String a p', String b s' => Ascii.eqb a b && startsWith p' s'
  | String _ _, EmptyString => false
  end.

(** [String.prototype.includes]. *)
Fixpoint includes (needle s : string) : bool :=
  startsWith needle s ||
  match s with
  | EmptyString => false
  | String _ s' => includes needle s'
  end.

(** Lower-casing of a code unit below 256: the ASCII capitals and the
    Latin-1 capitals (all of C0..DE but the multiplication sign D7). *)
Definition lower_char (c : ascii) : ascii :=
  let n := Char.code c in
  if ((65 <=? n) && (n <=? 90) || (192 <=? n) && (n <=? 222) && negb (n =? 215))%N
  then ascii_of_N (n + 32)
  else c.

(** [String.prototype.toLowerCase]. *)
Fixpoint toLowerCase (s : string) : string :=
  match s with
  | EmptyString => EmptyString
  | String c s' => String (lower_char c) (toLowerCase s')
  end.

(** Truthiness of a string: the empty string is falsy. *)
Definition truthy (s : string) : bool :=
  match s with EmptyString => false | String _ _ => true end.

End Str.

(** ** Regular expressions

    The abstract syntax covers the constructs that occur in the pattern
    literals of utils/validation.ts; [RegExp.show] prints a pattern back to
    its source text, which is what [RegExp.prototype.toString] exposes to
    the extractors.  Every literal of the source carries exactly the flag
    [i], so matching is case-insensitive throughout. *)

Module RegExp.

Inductive citem :=
| IChar (c : ascii)        (* a class member written as itself *)
| IRange (lo hi : ascii)   (* lo-hi *)
| ISpace.                  (* \s inside a class *)

Inductive atom :=
| AEsc (c : ascii)         (* identity escape, as in \. *)
| ADot                     (* . *)
| ADigit                   (* \d *)
| ASpace                   (* \s *)
| AClass (items : list citem).  (* [...] *)

Inductive regex :=
| Lit (s : string)               (* a run of pattern characters *)
| Atom (a : atom)                (* an atom matched once *)
| Star (a : atom)                (* a* *)
| Plus (a : atom)                (* a+ *)
| Rep (a : atom) (n : nat)       (* a{n} *)
| Opt (r : regex)                (* r? *)
| Group (i : nat) (r : regex)    (* ( r ), the i-th capturing group *)
| Seq (r1 r2 : regex)            (* r1 r2 *)
| Alt (r1 r2 : regex).           (* r1|r2 *)

(** *** Source text *)

Definition show_citem (it : citem) : string :=
  match it with
  | IChar c => String c ""
  | IRange lo hi => String lo (String "-" (String hi ""))
  | ISpace => "\s"
  end.

Definition show_atom (a : atom) : string :=
  match a with
  | AEsc c => String "\" (String c "")
  | ADot => "."
  | ADigit => "\d"
  | ASpace => "\s"
  | AClass items => "[" +:+ String.concat "" (map show_citem items) +:+ "]"
  end.

Fixpoint show (r : regex) : string :=
  match r with
  | Lit s => s
  | Atom a => show_atom a
  | Star a => show_atom a +:+ "*"
  | Plus a => show_atom a +:+ "+"
  | Rep a n => show_atom a +:+ "{" +:+ pretty n +:+ "}"
  | Opt r' => show r' +:+ "?"
  | Group _ r' => "(" +:+ show r' +:+ ")"
  | Seq r1 r2 => show r1 +:+ show r2
  | Alt r1 r2 => show r1 +:+ "|" +:+ show r2
  end.

(** [RegExp.prototype.toString]. *)
Definition toString (r : regex) : string := "/" +:+ show r +:+ "/i".

(** *** Matching *)

Definition citem_matches (it : citem) (ch : ascii) : bool :=
  match it with
  | IChar c => Char.canon_eq c ch
  | IRange lo hi =>
      Char.in_range lo hi (Char.to_lower ch) || Char.in_range lo hi (Char.to_upper ch)
  | ISpace => Char.is_space ch
  end.

Definition atom_matches (a : atom) (ch : ascii) : bool :=
  match a with
  | AEsc c => Char.canon_eq c ch
  | ADot => negb (Char.is_line_terminator ch)
  | ADigit => Char.is_digit ch
  | ASpace => Char.is_space ch
  | AClass items => existsb (fun it => citem_matches it ch) items
  end.

(** A run of pattern characters against the front of the input: the
    matched text (the input's own characters) and the rest of the input. *)
Fixpoint match_lit (l s : string) : option (string * string) :=
  match l, s with
  | EmptyString, _ => Some (EmptyString, s)
  | String a l', String b s' =>
      if Char.canon_eq a b
      then match match_lit l' s' with
           | Some (mt, rest) => Some (String b mt, rest)
           | None => None
           end
      else None
  | String _ _, EmptyString => None
  end.

Section Matcher.
Context {A : Type}.

(** Greedy repetition of a one-character test, backtracking one
    character at a time while the continuation fails. *)
Fixpoint star_m (p : ascii -> bool) (s : string)
    (k : string -> string -> option A) : option A :=
  match s with
  | String c s' =>
      if p c then
        match star_m p s' (fun mt rest => k (String c mt) rest) with
        | Some x => Some x
        | None => k EmptyString s
        end
      else k EmptyString s
  | EmptyString => k EmptyString s
  end.

Fixpoint rep_m (p : ascii -> bool) (n : nat) (s : string)
    (k : string -> string -> option A) : option A :=
  match n with
  | O => k EmptyString s
  | S n' =>
      match s with
      | String c s' =>
          if p c then rep_m p n' s' (fun mt rest => k (String c mt) rest) else None
      | EmptyString => None
      end
  end.

(** The matcher of the RegExp semantics in continuation-passing style:
    [m r s cap k] matches [r] at the front of [s] and hands the matched
    text, the rest of the input and the capture of group 1 to [k];
    a failing continuation makes the matcher backtrack. *)
Fixpoint m (r : regex) (s : string) (cap : option string)
    (k : string -> string -> option string -> option A) : option A :=
  match r with
  | Lit l =>
      match match_lit l s with
      | Some (mt, rest) => k mt rest cap
      | None => None
      end
  | Atom a =>
      match s with
      | String c s' => if atom_matches a c then k (String c EmptyString) s' cap else None
      | EmptyString => None
      end
  | Star a => star_m (atom_matches a) s (fun mt rest => k mt rest cap)
  | Plus a =>
      match s with
      | String c s' =>
          if atom_matches a c
          then star_m (atom_matches a) s' (fun mt rest => k (String c mt) rest cap)
          else None
      | EmptyString => None
      end
  | Rep a n => rep_m (atom_matches a) n s (fun mt rest => k mt rest cap)
  | Opt r' =>
      match m r' s cap k with
      | Some x => Some x
      | None => k EmptyString s cap
      end
  | Group i r' =>
      m r' s cap (fun mt rest cap' => k mt rest (if Nat.eqb i 1 then Some mt else cap'))
  | Seq r1 r2 =>
      m r1 s cap (fun m1 s1 c1 => m r2 s1 c1 (fun m2 s2 c2 => k (m1 +:+ m2) s2 c2))
  | Alt r1 r2 =>
      match m r1 s cap k with
      | Some x => Some x
      | None => m r2 s cap k
      end
  end.
End Matcher.

(** The result array of a successful match: its index, element 0 and
    element 1. *)
Record MatchResult := { index : nat; matched : string; group1 : option string }.

Definition match_at (r : regex) (s : string) (i : nat) : option MatchResult :=
  m r s None (fun mt _ cap => Some {| index := i; matched := mt; group1 := cap |}).

(** [RegExp.prototype.exec] without the g flag: the leftmost start index
    at which the matcher succeeds, the end of the input included. *)
Fixpoint exec_from (r : regex) (s : string) (i : nat) : option MatchResult :=
  match match_at r s i with
  | Some res => Some res
  | None =>
      match s with
      | String _ s' => exec_from r s' (S i)
      | EmptyString => None
      end
  end.

Definition exec (r : regex) (s : string) : option MatchResult := exec_from r s 0.

(** [RegExp.prototype.test]. *)
Definition test (r : regex) (s : string) : bool :=
  match exec r s with Some _ => true | None => false end.

(** The guard [match?.[1]]: the first capture of a successful match when
    it is a non-empty string. *)
Definition capture1 (res : option MatchResult) : option string :=
  match res with
  | Some {| group1 := Some g |} => if Str.truthy g then Some g else None
  | _ => None
  end.

End RegExp.

Import RegExp.

(** [seq [r1; ...; rn]] is the concatenation r1 ... rn. *)
Fixpoint seq (rs : list regex) : regex :=
  match rs with
  | [] => Lit ""
  | [r] => r
  | r :: rs' => Seq r (seq rs')
  end.

(** [alt [r1; ...; rn]] is the disjunction r1|...|rn. *)
Fixpoint alt (rs : list regex) : regex :=
  match rs with
  | [] => Lit ""
  | [r] => r
  | r :: rs' => Alt r (alt rs')
  end.

(** ** What a pattern denotes

    The language of a pattern, with the first capture threaded through:
    [denote r cap s cap'] says that [r] matches exactly the text [s],
    turning the capture [cap] into [cap']. *)

Fixpoint all_chars (p : ascii -> bool) (s : string) : bool :=
  match s with
  | EmptyString => true
  | String c s' => p c && all_chars p s'
  end.

(** The text [s] spells the pattern characters [l], case ignored. *)
Fixpoint lit_matches (l s : string) : bool :=
  match l, s with
  | EmptyString, EmptyString => true
  | String a l', String b s' => Char.canon_eq a b && lit_matches l' s'
  | _, _ => false
  end.

Fixpoint denote (r : regex) (cap : option string) (s : string) (cap' : option string)
    : Prop :=
  match r with
  | Lit l => lit_matches l s = true ∧ cap' = cap
  | Atom a => (∃ c, s = String c EmptyString ∧ atom_matches a c = true) ∧ cap' = cap
  | Star a => all_chars (atom_matches a) s = true ∧ cap' = cap
  | Plus a => s ≠ EmptyString ∧ all_chars (atom_matches a) s = true ∧ cap' = cap
  | Rep a n => String.length s = n ∧ all_chars (atom_matches a) s = true ∧ cap' = cap
  | Opt r' => denote r' cap s cap' ∨ (s = EmptyString ∧ cap' = cap)
  | Group i r' =>
      ∃ c, denote r' cap s c ∧ cap' = if Nat.eqb i 1 then Some s else c
  | Seq r1 r2 =>
      ∃ s1 s2 c, s = s1 +:+ s2 ∧ denote r1 cap s1 c ∧ denote r2 c s2 cap'
  | Alt r1 r2 => denote r1 cap s cap' ∨ denote r2 cap s cap'
  end.

(** [s] occurs in [text] as a match of [r] that captures [cap]. *)
Definition occurs (r : regex) (text s : string) (cap : option string) : Prop :=
  ∃ pre post, text = pre +:+ s +:+ post ∧ denote r None s cap.

(** ** Numbers

    A JavaScript number is a double: 53 binary digits, the least positive
    number 2^-1074, and infinite from 2^1024 on.  [Num z] is the double
    whose value is the integer [z]; [Frac m e] is the double whose value
    is m / 2^e for an odd [m], a number with a fraction.  The two zeros are
    one number here: both are falsy, both are written "0" and they compare
    equal, and the plugin does nothing else with a zero. *)

Inductive number :=
| Num (z : Z)
| NaN
| Infinity (negative : bool)
| Frac (m : Z) (e : positive).

#[global] Instance number_eq_dec : EqDecision number.
Proof. solve_decision. Defined.

Local Open Scope Z_scope.

(** The double nearest to n / d, for positive [n] and [d]: a tie goes to
    the neighbour whose last binary digit is even, and what rounds to
    2^1024 is infinite. *)
Definition nearest_pos (n d : Z) : number :=
  (* the binade: 2^b <= n / d < 2^(b + 1) *)
  let c := Z.log2 n - Z.log2 d in
  let b := if (if 0 <=? c then d * 2 ^ c <=? n else d <=? n * 2 ^ (- c))
           then c else c - 1 in
  (* the weight 2^u of the last binary digit that is kept *)
  let u := Z.max b (-1022) - 52 in
  let num := if 0 <=? u then n else n * 2 ^ (- u) in
  let den := if 0 <=? u then d * 2 ^ u else d in
  let q := num / den in
  let r := num mod den in
  let m := if 2 * r <? den then q
           else if den <? 2 * r then q + 1
           else if Z.even q then q else q + 1 in
  if 0 <=? u then
    if 2 ^ 1024 <=? m * 2 ^ u then Infinity false else Num (m * 2 ^ u)
  else
    let g := Z.gcd m (2 ^ (- u)) in
    if g =? 2 ^ (- u) then Num (m / g)
    else Frac (m / g) (Z.to_pos (- u - Z.log2 g)).

Definition num_neg (a : number) : number :=
  match a with
  | Num z => Num (- z)
  | NaN => NaN
  | Infinity negative => Infinity (negb negative)
  | Frac m e => Frac (- m) e
  end.

(** The double nearest to n / d, for a positive [d]. *)
Definition nearest (n d : Z) : number :=
  match n with
  | Z0 => Num 0
  | Zpos _ => nearest_pos n d
  | Zneg _ => num_neg (nearest_pos (- n) d)
  end.

(** The double nearest to an integer. *)
Definition double_of (z : Z) : number := nearest z 1.

(** The value of a finite number, as a numerator and a denominator. *)
Definition ratio (a : number) : option (Z * Z) :=
  match a with
  | Num z => Some (z, 1)
  | Frac m e => Some (m, 2 ^ Z.pos e)
  | NaN | Infinity _ => None
  end.

Definition num_sgn (a : number) : Z :=
  match a with
  | Num z => Z.sgn z
  | Frac m _ => Z.sgn m
  | Infinity negative => if negative then -1 else 1
  | NaN => 0
  end.

(** [a * b]. *)
Definition num_mul (a b : number) : number :=
  match a, b with
  | NaN, _ | _, NaN => NaN
  | _, _ =>
      match ratio a, ratio b with
      | Some (n1, d1), Some (n2, d2) => nearest (n1 * n2) (d1 * d2)
      | _, _ =>
          (* an infinity times zero is NaN *)
          match num_sgn a * num_sgn b with
          | Z0 => NaN
          | Zpos _ => Infinity false
          | Zneg _ => Infinity true
          end
      end
  end.

(** [a + b]. *)
Definition num_add (a b : number) : number :=
  match a, b with
  | NaN, _ | _, NaN => NaN
  | Infinity s, Infinity t => if Bool.eqb s t then Infinity s else NaN
  | Infinity s, _ | _, Infinity s => Infinity s
  | _, _ =>
      match ratio a, ratio b with
      | Some (n1, d1), Some (n2, d2) => nearest (n1 * d2 + n2 * d1) (d1 * d2)
      | _, _ => NaN
      end
  end.

(** [a > 0]. *)
Definition num_positive (a : number) : bool := 0 <? num_sgn a.

(** *** [String(n)]

    Number::toString writes the least number k of decimal digits s such
    that s * 10^(n - k) reads back as the number, and of the digit strings
    of that length the one nearest to the number (the choice that the
    language recommends and V8 makes). *)

(** The n with 10^(n - 1) <= a / d < 10^n, for positive [a] and [d]. *)
Fixpoint decimalExponent_below (fuel : nat) (a d n : Z) : Z :=
  match fuel with
  | O => n
  | S fuel' => if d <=? a then n else decimalExponent_below fuel' (10 * a) d (n - 1)
  end.

Definition decimalExponent (a d : Z) : Z :=
  if d <=? a then Z.of_nat (String.length (pretty (a / d)))
  else decimalExponent_below (Z.to_nat (Z.log2 d)) (10 * a) d 0.

(** The double that the decimal s * 10^t denotes. *)
Definition decimal_value (s t : Z) : number :=
  if 0 <=? t then nearest (s * 10 ^ t) 1 else nearest s (10 ^ (- t)).

(** The digits s (with their n) among those of length [k] that read back
    as [x], whose value is a / d with 10^(n0 - 1) <= a / d < 10^n0. *)
Definition digits_of_length (x : number) (a d n0 k : Z) : option (Z * Z) :=
  let t := n0 - k in
  let num := if 0 <=? t then a else a * 10 ^ (- t) in
  let den := if 0 <=? t then d * 10 ^ t else d in
  let lo := num / den in
  let r := num mod den in
  let hi := lo + 1 in
  let normal s := if s =? 10 ^ k then (10 ^ (k - 1), n0 + 1) else (s, n0) in
  match bool_decide (decimal_value lo t = x), bool_decide (decimal_value hi t = x) with
  | true, true =>
      Some (normal (if 2 * r <? den then lo
                    else if den <? 2 * r then hi
                    else if Z.even lo then lo else hi))
  | true, false => Some (normal lo)
  | false, true => Some (normal hi)
  | false, false => None
  end.

Fixpoint shortest_digits (fuel : nat) (x : number) (a d n0 k : Z) : option (Z * Z) :=
  match digits_of_length x a d n0 k with
  | Some r => Some r
  | None =>
      match fuel with
      | O => None
      | S fuel' => shortest_digits fuel' x a d n0 (k + 1)
      end
  end.

Definition zeros (n : Z) : string := String.concat "" (replicate (Z.to_nat n) "0").

(** The text of the digits [ds] with the decimal exponent [n]. *)
Definition decimal_text (ds : string) (n : Z) : string :=
  let k := Z.of_nat (String.length ds) in
  if (k <=? n) && (n <=? 21) then ds +:+ zeros (n - k)
  else if (0 <? n) && (n <=? 21)
  then substring 0 (Z.to_nat n) ds +:+ "." +:+ substring (Z.to_nat n) (Z.to_nat (k - n)) ds
  else if (-6 <? n) && (n <=? 0) then "0." +:+ zeros (- n) +:+ ds
  else
    let e := n - 1 in
    let exponent := (if e <? 0 then "-" else "+") +:+ pretty (Z.abs e) in
    if k =? 1 then ds +:+ "e" +:+ exponent
    else substring 0 1 ds +:+ "." +:+ substring 1 (Z.to_nat (k - 1)) ds +:+ "e" +:+ exponent.

(** [String(n)].  Seventeen digits read back as any double; a [number]
    that is no double is written by the integer part of its value. *)
Definition num_toString (x : number) : string :=
  match x with
  | NaN => "NaN"
  | Infinity negative => if negative then "-Infinity" else "Infinity"
  | Num _ | Frac _ _ =>
      match ratio x with
      | Some (z, d) =>
          if z =? 0 then "0"
          else
            let sign := if z <? 0 then "-" else "" in
            let a := Z.abs z in
            let magnitude := if z <? 0 then num_neg x else x in
            match shortest_digits 16 magnitude a d (decimalExponent a d) 1 with
            | Some (s, n) => sign +:+ decimal_text (pretty s) n
            | None => sign +:+ pretty (a / d)
            end
      | None => ""
      end
  end.

Local Close Scope Z_scope.

Definition digit_value (c : ascii) : Z := (Z.of_N (Char.code c) - 48)%Z.

Fixpoint parse_digits (s : string) (acc : option Z) : option Z :=
  match s with
  | String c s' =>
      if Char.is_digit c
      then parse_digits s' (Some (10 * default 0 acc + digit_value c)%Z)
      else acc
  | EmptyString => acc
  end.

Fixpoint skip_space (s : string) : string :=
  match s with
  | String c s' => if Char.is_space c then skip_space s' else s
  | EmptyString => s
  end.

(** [Number.parseInt(s, 10)]: leading white space, an optional sign, then
    the longest run of decimal digits, read as the nearest double; NaN
    when that run is empty.  All the digits count, as in V8 (the language
    lets an implementation read the digits after the twentieth as 0). *)
Definition parseInt (s : string) : number :=
  let body sign t :=
    match parse_digits t None with
    | Some z => double_of (sign * z)%Z
    | None => NaN
    end in
  match skip_space s with
  | String "-" t => body (-1)%Z t
  | String "+" t => body 1%Z t
  | t => body 1%Z t
  end.

(** ** utils/validation.ts *)

Definition hex := AClass [IRange "0" "9"; IRange "a" "f"].
Definition alpha := AClass [IRange "a" "z"; IRange "A" "Z"].
Definition alnum := AClass [IRange "a" "z"; IRange "A" "Z"; IRange "0" "9"].

(** The table is an object literal; [Object.entries] enumerates its string
    keys in the order in which they are written. *)
Definition WORKLOAD_TYPE_PATTERNS : list (string * list regex) :=
  [ ("media:fast",
      [ Lit "media:fast";
        Lit "media fast";
        Lit "fast media";
        seq [Lit "media"; Star ADot; Lit "fast"] ]);
    ("ollama_webui:coder",
      [ Lit "ollama_webui:coder";
        Lit "ollama webui:coder";
        Lit "ollama webui coder";
        seq [Lit "ollama"; Star ADot; Lit "coder"];
        Lit "coder workload";
        Lit "coding workload";
        seq [Lit "workload"; Star ADot; Lit "coding"];
        seq [Lit "workload"; Star ADot; Lit "code"] ]);
    ("ollama_webui:fast",
      [ Lit "ollama_webui:fast";
        Lit "ollama webui:fast";
        Lit "ollama webui fast";
        seq [Lit "ollama"; Star ADot; Lit "fast"];
        Lit "ollama fast";
        Lit "fast ollama" ]);
    ("ollama_webui:large",
      [ Lit "ollama_webui:large";
        Lit "ollama webui:large";
        Lit "ollama webui large";
        seq [Lit "ollama"; Star ADot; Lit "large"];
        Lit "large ollama";
        Lit "ollama large" ]);
    ("llama_webui:coder",
      [ Lit "llama_webui:coder";
        Lit "llama webui:coder";
        Lit "llama webui coder";
        seq [Lit "llama"; Star ADot; Lit "coder"];
        Lit "llama coder" ]) ].

Definition codingKeywords : regex :=
  alt [Lit "coder"; Lit "coding"; Lit "code"; Lit "developer"; Lit "development"].
Definition mediaKeywords : regex :=
  alt [Lit "media"; Lit "video"; Lit "audio"; Lit "streaming"].
Definition sizeKeywords : regex := alt [Lit "large"; Lit "big"; Lit "powerful"].
Definition speedKeywords : regex := alt [Lit "fast"; Lit "quick"; Lit "speed"].

(** The inner loop [for (const pattern of patterns)]. *)
Fixpoint anyPatternMatches (patterns : list regex) (text : string) : bool :=
  match patterns with
  | [] => false
  | pattern :: rest => if test pattern text then true else anyPatternMatches rest text
  end.

(** The outer loop [for (const [type, patterns] of Object.entries(...))]. *)
Fixpoint directMatch (entries : list (string * list regex)) (text : string)
    : option string :=
  match entries with
  | [] => None
  | (type, patterns) :: rest =>
      if anyPatternMatches patterns text then Some type else directMatch rest text
  end.

Definition extractWorkloadType (text : string) : option string :=
  if negb (Str.truthy text) then None else
  match directMatch WORKLOAD_TYPE_PATTERNS text with
  | Some type => Some type
  | None =>
      if test codingKeywords text then Some "ollama_webui:coder"
      else if test mediaKeywords text then Some "media:fast"
      else if test sizeKeywords text then Some "ollama_webui:large"
      else if test speedKeywords text then Some "ollama_webui:fast"
      else None
  end.

Definition minutesTail : list regex :=
  [Star ASpace; Lit "min"; Opt (Group 2 (Lit "ute")); Opt (Lit "s")].

Definition expirationPatterns : list regex :=
  [ seq ([Lit "expire"; Opt (Lit "s"); Lit " in "; Group 1 (Plus ADigit)] ++ minutesTail);
    seq ([Lit "for "; Group 1 (Plus ADigit)] ++ minutesTail);
    seq ([Group 1 (Plus ADigit)] ++ minutesTail ++ [Lit " expir"]);
    seq ([Group 1 (Plus ADigit)] ++ minutesTail);
    seq [Group 1 (Plus ADigit); Star ASpace; Lit "hour"; Opt (Lit "s")] ].

(** The loop of [extractExpirationTime] over the remaining patterns. *)
Fixpoint expirationLoop (patterns : list regex) (text : string)
    (defaultMinutes : number) : number :=
  match patterns with
  | [] => defaultMinutes
  | pattern :: rest =>
      match capture1 (exec pattern text) with
      | Some g =>
          let value := parseInt g in
          if Str.includes "hours" (toString pattern)
          then num_mul value (Num 60)
          else value
      | None => expirationLoop rest text defaultMinutes
      end
  end.

Definition extractExpirationTime (text : string) (defaultMinutes : number) : number :=
  if negb (Str.truthy text) then defaultMinutes
  else expirationLoop expirationPatterns text defaultMinutes.

Definition uuidPattern : regex :=
  Group 1 (seq [Rep hex 8; Lit "-"; Rep hex 4; Lit "-"; Rep hex 4; Lit "-";
                Rep hex 4; Lit "-"; Rep hex 12]).

Definition comput3DomainPattern : regex :=
  Group 1 (seq [Plus (AClass [IRange "a" "z"; IRange "A" "Z"; IRange "0" "9"; IChar "-"]);
                Atom (AEsc "."); Lit "comput3"; Atom (AEsc "."); Lit "ai"]).

Definition workloadPatterns : list regex :=
  [ seq [Lit "wrk_"; Group 1 (Plus alnum)];
    seq [Lit "workload";
         Plus (AClass [IChar ":"; ISpace]);
         Group 1 (Plus (AClass [IRange "a" "z"; IRange "A" "Z"; IRange "0" "9";
                                IChar "-"; IChar "_"]))];
    Group 1 (seq [Plus alpha; Lit "-"; Plus alpha; Lit "-"; Plus alpha; Lit "-"; Plus alpha]) ].

(** The loop of [extractWorkloadId] over the fallback patterns. *)
Fixpoint workloadLoop (patterns : list regex) (text : string) : option string :=
  match patterns with
  | [] => None
  | pattern :: rest =>
      match capture1 (exec pattern text) with
      | Some g =>
          Some (if Str.includes "wrk_" (toString pattern) then "wrk_" +:+ g else g)
      | None => workloadLoop rest text
      end
  end.

Definition extractWorkloadId (text : string) : option string :=
  if negb (Str.truthy text) then None else
  match capture1 (exec uuidPattern text) with
  | Some g => Some g
  | None =>
      match capture1 (exec comput3DomainPattern text) with
      | Some g => Some g
      | None => workloadLoop workloadPatterns text
      end
  end.

Definition validateLaunchWorkloadFromText (text : string) : option (string * number) :=
  match extractWorkloadType text with
  | None => None
  | Some type =>
      if Str.truthy type
      then Some (type, extractExpirationTime text (Num 10))
      else None
  end.

Definition validateStopWorkloadFromText (text : string) : option string :=
  match extractWorkloadId text with
  | None => None
  | Some workload => if Str.truthy workload then Some workload else None
  end.

(** ** Statements about the extractors *)

(** A pattern whose every match captures a non-empty first group. *)
Definition capturing (r : regex) : Prop :=
  ∀ s cap, denote r None s cap -> ∃ g, cap = Some g ∧ g ≠ "".

(** The value of a run of decimal digits. *)
Fixpoint decimal_from (s : string) (acc : Z) : Z :=
  match s with
  | EmptyString => acc
  | String c s' => decimal_from s' (10 * acc + digit_value c)%Z
  end.

Definition decimal (s : string) : Z := decimal_from s 0.

Definition is_digits (s : string) : bool := Str.truthy s && all_chars Char.is_digit s.

(** ** The forms of a workload identifier *)

(** The patterns that [extractWorkloadId] tries, in the order in which it
    tries them. *)
Definition idPatterns : list regex :=
  uuidPattern :: comput3DomainPattern :: workloadPatterns.

Definition hexGroup (n : nat) (s : string) : Prop :=
  String.length s = n ∧ all_chars Char.is_hex s = true.

(** 8-4-4-4-12 hexadecimal digits of either case, joined by hyphens. *)
Definition is_uuid (g : string) : Prop :=
  ∃ a b c d e,
    g = a +:+ "-" +:+ b +:+ "-" +:+ c +:+ "-" +:+ d +:+ "-" +:+ e ∧
    hexGroup 8 a ∧ hexGroup 4 b ∧ hexGroup 4 c ∧ hexGroup 4 d ∧ hexGroup 12 e.

Definition is_hyphen (c : ascii) : bool := Ascii.eqb c "-".
Definition is_underscore (c : ascii) : bool := Ascii.eqb c "_".
Definition is_colon (c : ascii) : bool := Ascii.eqb c ":".

(** A non-empty run of characters of one class. *)
Definition run (p : ascii -> bool) (s : string) : Prop :=
  s ≠ "" ∧ all_chars p s = true.

(** A token of letters, digits and hyphens followed by ".comput3.ai". *)
Definition is_domain (g : string) : Prop :=
  ∃ token suffix,
    g = token +:+ suffix ∧
    run (fun c => Char.is_alnum c || is_hyphen c) token ∧
    lit_matches ".comput3.ai" suffix = true.

(** "wrk_", in either case, followed by the captured letters and digits. *)
Definition is_wrk (s g : string) : Prop :=
  ∃ prefix, s = prefix +:+ g ∧ lit_matches "wrk_" prefix = true ∧ run Char.is_alnum g.

(** "workload", colons or white space, then the captured token. *)
Definition is_workload_token (s g : string) : Prop :=
  ∃ word seps,
    s = word +:+ seps +:+ g ∧
    lit_matches "workload" word = true ∧
    run (fun c => is_colon c || Char.is_space c) seps ∧
    run (fun c => Char.is_alnum c || is_hyphen c || is_underscore c) g.

(** Four alphabetic words joined by hyphens. *)
Definition is_four_words (g : string) : Prop :=
  ∃ a b c d,
    g = a +:+ "-" +:+ b +:+ "-" +:+ c +:+ "-" +:+ d ∧
    run Char.is_alpha a ∧ run Char.is_alpha b ∧ run Char.is_alpha c ∧ run Char.is_alpha d.

(** The form of a match [s] of the pattern at position [i] of [idPatterns]
    and of its first capture [g]. *)
Definition idShape (i : nat) (s g : string) : Prop :=
  match i with
  | 0 => s = g ∧ is_uuid g
  | 1 => s = g ∧ is_domain g
  | 2 => is_wrk s g
  | 3 => is_workload_token s g
  | _ => s = g ∧ is_four_words g
  end.

Definition hex_or_hyphen (c : ascii) : bool := Char.is_hex c || is_hyphen c.
Definition token_char (c : ascii) : bool := Char.is_alnum c || is_hyphen c.

(** ** Keywords *)

(** The text mentions the keyword, letter case ignored. *)
Definition mentions (text keyword : string) : Prop :=
  ∃ pre s post, text = pre +:+ s +:+ post ∧ lit_matches keyword s = true.

Definition mentionsAny (text : string) (keywords : list string) : Prop :=
  ∃ k, k ∈ keywords ∧ mentions text k.

Definition codingWords := ["coder"; "coding"; "code"; "developer"; "development"].
Definition mediaWords := ["media"; "video"; "audio"; "streaming"].
Definition sizeWords := ["large"; "big"; "powerful"].
Definition speedWords := ["fast"; "quick"; "speed"].

(** ** Running an extractor on its own result

    The result of an extractor, written as text, is put in front of the
    text it was extracted from, and the extractor runs again. *)

Definition typeIdempotent : Prop :=
  ∀ t r, extractWorkloadType t = Some r -> extractWorkloadType (r +:+ t) = Some r.

Definition expirationIdempotent : Prop :=
  ∀ t r, extractExpirationTime t (Num 10) = r ->
         extractExpirationTime (num_toString r +:+ t) (Num 10) = r.

Definition idIdempotent : Prop :=
  ∀ t r, extractWorkloadId t = Some r -> extractWorkloadId (r +:+ t) = Some r.

(** A character other than the letters e and f, in either case. *)
Definition no_keyword_letter (c : ascii) : bool :=
  negb (Char.canon_eq "e" c) && negb (Char.canon_eq "f" c).

(** A text in which neither "expire" nor "for " can begin, whatever text
    follows it: each of its letters e is followed by a sign and each of
    its letters f by an i. *)
Fixpoint keyword_free (s : string) : bool :=
  match s with
  | EmptyString => true
  | String c s' =>
      (no_keyword_letter c
       || Str.startsWith "e+" s || Str.startsWith "e-" s || Str.startsWith "fi" s)
      && keyword_free s'
  end.

(** ** Values, objects and collaborators *)

#[warnings="-register-all"]
Inductive jsval :=
| JUndefined
| JNull
| JBool (b : bool)
| JNum (n : number)
| JStr (s : string)
| JObj (o : gmap string jsval)
| JArr (items : list jsval).

Definition truthy (v : jsval) : bool :=
  match v with
  | JUndefined | JNull => false
  | JBool b => b
  | JNum (Num z) => negb (z =? 0)%Z
  | JNum NaN => false
  | JNum (Infinity _) | JNum (Frac _ _) => true
  | JStr s => Str.truthy s
  | JObj _ | JArr _ => true
  end.

Definition typeof (v : jsval) : string :=
  match v with
  | JUndefined => "undefined"
  | JNull | JObj _ | JArr _ => "object"
  | JBool _ => "boolean"
  | JNum _ => "number"
  | JStr _ => "string"
  end.

(** [v === undefined]. *)
Definition is_undefined (v : jsval) : bool :=
  match v with JUndefined => true | _ => false end.

(** [a || b]. *)
Definition js_or (a b : jsval) : jsval := if truthy a then a else b.

(** Property read [o.k]: a missing property reads as undefined. *)
Definition get (o : gmap string jsval) (k : string) : jsval := default JUndefined (o !! k).

(** [k in o]. *)
Definition has (o : gmap string jsval) (k : string) : bool := bool_decide (is_Some (o !! k)).

(** [Array.prototype.join] with a comma and [String(v)]: null and
    undefined items are joined as empty strings. *)
Fixpoint js_toString (v : jsval) : string :=
  match v with
  | JUndefined => "undefined"
  | JNull => "null"
  | JBool b => if b then "true" else "false"
  | JNum n => num_toString n
  | JStr s => s
  | JObj _ => "[object Object]"
  | JArr items =>
      (fix join (l : list jsval) : string :=
         let item x :=
           match x with
           | JUndefined | JNull => ""
           | _ => js_toString x
           end in
         match l with
         | [] => ""
         | [x] => item x
         | x :: l' => item x +:+ "," +:+ join l'
         end) items
  end.

Fixpoint trim_end (s : string) : string :=
  match s with
  | EmptyString => EmptyString
  | String c s' =>
      match trim_end s' with
      | EmptyString => if Char.is_space c then EmptyString else String c EmptyString
      | t => String c t
      end
  end.

(** The longest front of [s] whose characters pass [p], and the rest. *)
Fixpoint span (p : ascii -> bool) (s : string) : string * string :=
  match s with
  | String c s' =>
      if p c then let '(a, b) := span p s' in (String c a, b) else (EmptyString, s)
  | EmptyString => (EmptyString, EmptyString)
  end.

(** The value of a run of decimal digits; 0 for the empty run. *)
Definition digits_value (s : string) : Z := default 0%Z (parse_digits s None).

Definition hex_digit_value (c : ascii) : Z :=
  let n := Z.of_N (Char.code c) in
  if Char.is_digit c then (n - 48)%Z
  else if Char.in_range "a" "f" c then (n - 87)%Z
  else (n - 55)%Z.

Fixpoint radix_value (radix : Z) (s : string) (acc : Z) : Z :=
  match s with
  | String c s' => radix_value radix s' (radix * acc + hex_digit_value c)%Z
  | EmptyString => acc
  end.

(** NonDecimalIntegerLiteral: 0x, 0o or 0b, in either case, and digits of
    that radix. *)
Definition nonDecimalLiteral (s : string) : option number :=
  match s with
  | String "0" (String x ds) =>
      let literal (radix : Z) (p : ascii -> bool) :=
        if Str.truthy ds && all_chars p ds
        then Some (double_of (radix_value radix ds 0))
        else None in
      if Ascii.eqb (Char.to_lower x) "x" then literal 16%Z Char.is_hex
      else if Ascii.eqb (Char.to_lower x) "o" then literal 8%Z (Char.in_range "0" "7")
      else if Ascii.eqb (Char.to_lower x) "b" then literal 2%Z (Char.in_range "0" "1")
      else None
  | _ => None
  end.

(** ExponentPart, when there is one: e or E, an optional sign, digits. *)
Definition exponentPart (s : string) : option Z :=
  match s with
  | EmptyString => Some 0%Z
  | String c r =>
      if Ascii.eqb (Char.to_lower c) "e" then
        let '(sign, ds) :=
          match r with
          | String "-" r' => ((-1)%Z, r')
          | String "+" r' => (1%Z, r')
          | _ => (1%Z, r)
          end in
        if Str.truthy ds && all_chars Char.is_digit ds
        then Some (sign * digits_value ds)%Z
        else None
      else None
  end.

(** StrUnsignedDecimalLiteral: Infinity, or digits with an optional point
    and fraction (digits before or after the point) and an optional
    exponent; NaN for any other text. *)
Definition unsignedDecimalLiteral (s : string) : number :=
  if String.eqb s "Infinity" then Infinity false
  else
    let '(int, r1) := span Char.is_digit s in
    let '(frac, r2) :=
      match r1 with
      | String "." r => span Char.is_digit r
      | _ => (EmptyString, r1)
      end in
    if negb (Str.truthy int) && negb (Str.truthy frac) then NaN
    else
      match exponentPart r2 with
      | Some e =>
          decimal_value (digits_value (int +:+ frac)) (e - Z.of_nat (String.length frac))
      | None => NaN
      end.

(** StringToNumber: white space around a numeric literal; the empty text
    is 0, and a text that is no literal is NaN.  All the digits of a
    literal count, as in V8. *)
Definition stringToNumber (s : string) : number :=
  match trim_end (skip_space s) with
  | EmptyString => Num 0
  | String "-" t => num_neg (unsignedDecimalLiteral t)
  | String "+" t => unsignedDecimalLiteral t
  | t =>
      match nonDecimalLiteral t with
      | Some n => n
      | None => unsignedDecimalLiteral t
      end
  end.

(** ToNumber. *)
Definition toNumber (v : jsval) : number :=
  match v with
  | JUndefined => NaN
  | JNull => Num 0
  | JBool b => Num (if b then 1 else 0)
  | JNum n => n
  | JStr s => stringToNumber s
  | JObj _ => NaN
  | JArr _ => stringToNumber (js_toString v)
  end.

(** [v > 0]. *)
Definition gt_zero (v : jsval) : bool := num_positive (toNumber v).

(** [v.length]. *)
Definition length_of (v : jsval) : jsval :=
  match v with
  | JStr s => JNum (Num (Z.of_nat (String.length s)))
  | JArr items => JNum (Num (Z.of_nat (List.length items)))
  | JObj o => get o "length"
  | _ => JUndefined
  end.

(** [v.length === 0]. *)
Definition length_is_zero (v : jsval) : bool :=
  match length_of v with
  | JNum (Num Z0) => true
  | _ => false
  end.

Definition is_nullish (v : jsval) : bool :=
  match v with JUndefined | JNull => true | _ => false end.

(** What a rejected promise or a throw statement carries. *)
Inductive exn :=
| Error (message : string)   (* an instance of Error *)
| Thrown (v : jsval).        (* any other thrown value *)

Record Memory := { content : option (gmap string jsval) }.

Inductive msgContent := MsgString (s : string) | MsgObject (o : gmap string jsval).
Record StateMessage := { role : option string; msg_content : msgContent }.
Record State := { messages : option (list StateMessage) }.

Inductive Template := ENHANCED_LAUNCH_WORKLOAD_TEMPLATE | ENHANCED_STOP_WORKLOAD_TEMPLATE.

(** The text that [composePrompt] builds from a template and the value
    substituted for its recentMessages placeholder. *)
Record Prompt := { template : Template; recentMessages : string }.

Record AxiosRequestConfig := {
  baseURL : string;
  timeout : Z;
  apiKeyHeader : string * jsval;
  method : string;
  url : string;
  data : option (gmap string jsval)
}.

(** What a rejected axios call carries: an AxiosError with its message, its
    response (status and body) when the server answered, and whether a
    request was made; or any other thrown value. *)
Inductive rejection :=
| AxiosError (message : string) (response : option (Z * jsval)) (requested : bool)
| Other (e : exn).

Inductive AxiosOutcome :=
| Resolved (status : Z) (body : jsval)
| Rejected (r : rejection).

(** [dateNow] is what [Date.now()] returns: a whole number of milliseconds,
    of magnitude at most 8640000000000000. *)
Record World := {
  getSetting : string -> jsval;
  processEnv : string -> option string;
  useModel : Prompt -> exn + string;
  parseJSONObjectFromText : string -> option (gmap string jsval);
  axiosRequest : AxiosRequestConfig -> AxiosOutcome;
  dateNow : Z
}.

Definition env_value (w : World) (name : string) : jsval :=
  match processEnv w name with Some s => JStr s | None => JUndefined end.

(** ** The handler monad: a trace of collaborator calls and exceptions *)

Inductive event :=
| EvDirectExtraction (text : string)          (* validate...FromText is called *)
| EvUseModel (p : Prompt)                     (* runtime.useModel is awaited *)
| EvRequest (c : AxiosRequestConfig)          (* axios sends a request *)
| EvCallback (content : gmap string jsval).   (* callback({text, content}) *)

Definition M (A : Type) : Type := (list event * (exn + A))%type.

Definition ret {A} (a : A) : M A := ([], inr a).

Definition throw {A} (e : exn) : M A := ([], inl e).

Definition bind {A B} (x : M A) (f : A -> M B) : M B :=
  match x with
  | (t, inl e) => (t, inl e)
  | (t, inr a) => let '(t', r) := f a in (app t t', r)
  end.

(** [try { body } catch (error) { handler }]. *)
Definition try_catch {A} (body : M A) (handler : exn -> M A) : M A :=
  match body with
  | (t, inl e) => let '(t', r) := handler e in (app t t', r)
  | (t, inr a) => (t, inr a)
  end.

Definition emit (ev : event) : M unit := ([ev], inr tt).

Definition trace {A} (x : M A) : list event := fst x.
Definition outcome {A} (x : M A) : exn + A := snd x.

Notation "x <- c1 ;; c2" := (bind c1 (fun x => c2))
  (at level 100, c1 at next level, right associativity).
Notation "c1 ;;; c2" := (bind c1 (fun _ => c2))
  (at level 100, right associativity).

(** A block of a handler either returns from the handler or falls through
    with a value. *)
Inductive flow (A : Type) := Return (b : bool) | Continue (a : A).
Arguments Return {A} b.
Arguments Continue {A} a.

Definition TypeError (message : string) : exn := Error message.

(** ** constants.ts *)

Module API_CONFIG.
Definition BASE_URL := "https://api.comput3.ai/api/v0".
Definition TIMEOUT : Z := 30000.
Definition API_KEY_HEADER := "X-C3-API-KEY".
End API_CONFIG.

Module ENDPOINTS.
Definition TYPES := "/types".
Definition BALANCE := "/balance".
Definition PROFILE := "/profile".
Definition LAUNCH := "/launch".
Definition STOP := "/stop".
Definition WORKLOADS := "/workloads".
End ENDPOINTS.

Module ERROR_MESSAGES.
Definition MISSING_API_KEY := "Comput3AI API key is required but not provided".
Definition INVALID_WORKLOAD_ID := "Invalid workload ID provided".
Definition NETWORK_ERROR := "Network error occurred while connecting to the Comput3AI API".
Definition UNKNOWN_ERROR := "An unknown error occurred".
Definition INVALID_WORKLOAD_TYPE := "Invalid workload type provided".
End ERROR_MESSAGES.

(** ** utils/apiClient.ts *)

Record ApiResponse := {
  success : bool;
  resp_data : jsval;
  error : jsval;
  statusCode : jsval
}.

Record Comput3ApiClient := { client_baseURL : string; client_apiKey : jsval }.

Definition apiKeySetting (w : World) : jsval :=
  js_or (getSetting w "COMPUT3AI_API_KEY") (env_value w "COMPUT3AI_API_KEY").

Definition fromRuntime (w : World) : M Comput3ApiClient :=
  let apiKey := js_or (apiKeySetting w) (JStr "") in
  if negb (truthy apiKey) then throw (Error ERROR_MESSAGES.MISSING_API_KEY)
  else ret {| client_baseURL := API_CONFIG.BASE_URL; client_apiKey := apiKey |}.

Definition createComput3ApiClient (w : World) : M Comput3ApiClient := fromRuntime w.

(** The configuration that the private [request] hands to axios. *)
Definition requestConfig (c : Comput3ApiClient) (meth endpoint : string)
    (body : option (gmap string jsval)) : AxiosRequestConfig :=
  {| baseURL := client_baseURL c;
     timeout := API_CONFIG.TIMEOUT;
     apiKeyHeader := (API_CONFIG.API_KEY_HEADER, client_apiKey c);
     method := meth;
     url := endpoint;
     data := body |}.

(** The private [request]: one axios call with the headers of the client. *)
Definition request (w : World) (c : Comput3ApiClient) (meth endpoint : string)
    (body : option (gmap string jsval)) : M AxiosOutcome :=
  let config := requestConfig c meth endpoint body in
  emit (EvRequest config) ;;; ret (axiosRequest w config).

Definition handleError (r : rejection) : M ApiResponse :=
  let generic (e : exn) :=
    {| success := false;
       resp_data := JUndefined;
       error := JStr (match e with
                      | Error message => message
                      | Thrown _ => ERROR_MESSAGES.UNKNOWN_ERROR
                      end);
       statusCode := JUndefined |} in
  match r with
  | AxiosError message (Some (status, body)) _ =>
      match body with
      | JUndefined =>
          throw (TypeError "Cannot read properties of undefined (reading 'message')")
      | JNull =>
          throw (TypeError "Cannot read properties of null (reading 'message')")
      | _ =>
          let responseMessage :=
            match body with JObj o => get o "message" | _ => JUndefined end in
          ret {| success := false;
                 resp_data := JUndefined;
                 error := js_or responseMessage (JStr message);
                 statusCode := JNum (Num status) |}
      end
  | AxiosError message None true =>
      ret {| success := false;
             resp_data := JUndefined;
             error := JStr ERROR_MESSAGES.NETWORK_ERROR;
             statusCode := JNum (Num 0) |}
  | AxiosError message None false => ret (generic (Error message))
  | Other e => ret (generic e)
  end.

(** The bodies of [get] and [post]: await the request, wrap a resolved
    response, hand a rejection to [handleError]. *)
Definition send (w : World) (c : Comput3ApiClient) (meth endpoint : string)
    (body : option (gmap string jsval)) : M ApiResponse :=
  o <- request w c meth endpoint body ;;
  match o with
  | Resolved status body' =>
      ret {| success := true; resp_data := body'; error := JUndefined;
             statusCode := JNum (Num status) |}
  | Rejected r => handleError r
  end.

Definition api_get (w : World) (c : Comput3ApiClient) (endpoint : string) : M ApiResponse :=
  send w c "GET" endpoint None.

Definition api_post (w : World) (c : Comput3ApiClient) (endpoint : string)
    (body : option (gmap string jsval)) : M ApiResponse :=
  send w c "POST" endpoint body.

Definition getWorkloadTypes w c := api_get w c ENDPOINTS.TYPES.
Definition getUserBalance w c := api_get w c ENDPOINTS.BALANCE.
Definition getUserProfile w c := api_get w c ENDPOINTS.PROFILE.

Definition launchWorkload w c (req : gmap string jsval) :=
  api_post w c ENDPOINTS.LAUNCH (Some req).

Definition stopWorkload w c (req : gmap string jsval) :=
  api_post w c ENDPOINTS.STOP (Some req).

(** [request || { running: true }]: the argument is optional. *)
Definition listWorkloads w c (req : option (gmap string jsval)) :=
  api_post w c ENDPOINTS.WORKLOADS
    (Some (match req with
           | Some r => r
           | None => {[ "running" := JBool true ]}
           end)).

(** ** Actions *)

Definition callback (content : gmap string jsval) : M unit := emit (EvCallback content).

Definition call_useModel (w : World) (p : Prompt) : M string :=
  emit (EvUseModel p) ;;;
  match useModel w p with
  | inl e => throw e
  | inr text => ret text
  end.

(** Reading the property [k] of [null] throws a TypeError. *)
Definition deref (k : string) (o : option (gmap string jsval)) : M (gmap string jsval) :=
  match o with
  | Some c => ret c
  | None => throw (TypeError ("Cannot read properties of null (reading '" +:+ k +:+ "')"))
  end.

(** The message of the catch blocks:
    [error instanceof Error ? error.message : "Unknown error occurred"]. *)
Definition caughtMessage (e : exn) : string :=
  match e with
  | Error message => message
  | Thrown _ => "Unknown error occurred"
  end.

Definition newline : string := String (ascii_of_nat 10) "".

Definition formatMessage (msg : StateMessage) : string :=
  let who :=
    match role msg with
    | Some r => if Str.truthy r then r else "user"
    | None => "user"
    end in
  match msg_content msg with
  | MsgString s => who +:+ ": " +:+ s
  | MsgObject o =>
      match get o "text" with
      | JStr t => who +:+ ": " +:+ t
      | _ => ""
      end
  end.

(** [messages.slice(-3).map(...).join('\n\n')]. *)
Definition formatRecentMessages (state : State) : string :=
  let msgs := default [] (messages state) in
  String.concat (newline +:+ newline) (map formatMessage (drop (length msgs - 3) msgs)).

(** Every action has the same [validate]: the API key must be set in the
    runtime settings or in the process environment. *)
Definition validate (w : World) : bool := truthy (apiKeySetting w).

(** *** actions/launchWorkload.ts *)

Definition isLaunchWorkloadContent (content : gmap string jsval) : bool :=
  if negb (truthy (get content "type")) || negb (String.eqb (typeof (get content "type")) "string")
  then false
  else if negb (is_undefined (get content "expires"))
          && negb (String.eqb (typeof (get content "expires")) "number")
  then false
  else true.

Definition call_validateLaunchWorkloadFromText (text : string) : M (option (string * number)) :=
  emit (EvDirectExtraction text) ;;; ret (validateLaunchWorkloadFromText text).

Definition launchParamsOf (p : string * number) : gmap string jsval :=
  {[ "type" := JStr (fst p); "expires" := JNum (snd p) ]}.

(** The block that fills [launchParams]. *)
Definition launchExtraction (w : World) (message : Memory) (state : State)
    : M (option (gmap string jsval)) :=
  let structured :=
    match content message with Some c => has c "type" | None => false end in
  if structured then ret (content message)
  else
    let prompt := {| template := ENHANCED_LAUNCH_WORKLOAD_TEMPLATE;
                     recentMessages := formatRecentMessages state |} in
    result <- call_useModel w prompt ;;
    let launchParams := parseJSONObjectFromText w result in
    candidate <- deref "type" launchParams ;;
    if isLaunchWorkloadContent candidate then ret launchParams
    else
      match content message with
      | Some c =>
          match get c "text" with
          | JStr text =>
              extractedParams <- call_validateLaunchWorkloadFromText text ;;
              match extractedParams with
              | Some p => ret (Some (launchParamsOf p))
              | None => ret launchParams
              end
          | _ => ret launchParams
          end
      | None => ret launchParams
      end.

(** [Math.floor(Date.now() / 1000)] is written as the integer quotient: the
    double quotient of a time by 1000 is less than 1/2000 away from the
    exact one, which is whole or at least 1/1000 away from a whole number,
    so that its floor is that of the exact quotient. *)
Definition launchRequest (w : World) (launchParams : gmap string jsval) : gmap string jsval :=
  {[ "type" := get launchParams "type";
     "expires" := JNum (num_add (Num (dateNow w / 1000))
                                (num_mul (toNumber (get launchParams "expires")) (Num 60))) ]}.

Definition launchHandlerBody (w : World) (message : Memory) (state : State) : M bool :=
  apiClient <- createComput3ApiClient w ;;
  launchParams <- launchExtraction w message state ;;
  candidate <- deref "type" launchParams ;;
  if negb (isLaunchWorkloadContent candidate) then
    callback {[ "success" := JBool false;
                "error" := JStr ERROR_MESSAGES.INVALID_WORKLOAD_TYPE ]} ;;;
    ret false
  else
    let launchParams :=
      if is_undefined (get candidate "expires")
      then <["expires" := JNum (Num 10)]> candidate
      else candidate in
    let request := launchRequest w launchParams in
    response <- launchWorkload w apiClient request ;;
    if negb (success response) || negb (truthy (resp_data response)) then
      let errorMessage := js_or (error response) (JStr "Failed to launch workload") in
      callback {[ "success" := JBool false;
                  "error" := errorMessage;
                  "statusCode" := statusCode response ]} ;;;
      ret false
    else
      callback {[ "success" := JBool true;
                  "data" := resp_data response;
                  "request" := JObj request ]} ;;;
      ret true.

Definition catchBlock (e : exn) : M bool :=
  callback {[ "success" := JBool false; "error" := JStr (caughtMessage e) ]} ;;;
  ret false.

Definition launchWorkloadAction_handler (w : World) (message : Memory) (state : State)
    : M bool :=
  try_catch (launchHandlerBody w message state) catchBlock.

(** *** actions/stopWorkload.ts *)

Definition isStopWorkloadContent (content : gmap string jsval) : bool :=
  if negb (truthy (get content "workload"))
     || negb (String.eqb (typeof (get content "workload")) "string")
  then false
  else true.

Definition call_validateStopWorkloadFromText (text : string) : M (option string) :=
  emit (EvDirectExtraction text) ;;; ret (validateStopWorkloadFromText text).

Definition noContentMessage := "No valid message content to extract workload ID from".

(** The block that fills [stopParams]; two of its branches return from
    the handler. *)
Definition stopExtraction (w : World) (message : Memory) (state : State)
    : M (flow (option (gmap string jsval))) :=
  let noContent :=
    callback {[ "success" := JBool false; "error" := JStr noContentMessage ]} ;;;
    ret (Return false) in
  match content message with
  | None => noContent
  | Some c =>
      match c !! "workload" with
      | Some (JStr workload) =>
          (* { workload: message.content.workload, ...message.content } *)
          ret (Continue (Some (c ∪ {[ "workload" := JStr workload ]})))
      | _ =>
          match c !! "text" with
          | Some (JStr text) =>
              extractedParams <- call_validateStopWorkloadFromText text ;;
              match extractedParams with
              | Some workload => ret (Continue (Some {[ "workload" := JStr workload ]}))
              | None =>
                  let prompt := {| template := ENHANCED_STOP_WORKLOAD_TEMPLATE;
                                   recentMessages := formatRecentMessages state |} in
                  result <- call_useModel w prompt ;;
                  let stopParams := parseJSONObjectFromText w result in
                  candidate <- deref "workload" stopParams ;;
                  if negb (isStopWorkloadContent candidate) then
                    callback {[ "success" := JBool false;
                                "error" := JStr "Could not extract workload ID" ]} ;;;
                    ret (Return false)
                  else ret (Continue stopParams)
              end
          | _ => noContent
          end
      end
  end.

Definition stopHandlerBody (w : World) (message : Memory) (state : State) : M bool :=
  apiClient <- createComput3ApiClient w ;;
  extraction <- stopExtraction w message state ;;
  match extraction with
  | Return b => ret b
  | Continue stopParams =>
      candidate <- deref "workload" stopParams ;;
      if negb (isStopWorkloadContent candidate) then
        callback {[ "success" := JBool false;
                    "error" := JStr ERROR_MESSAGES.INVALID_WORKLOAD_ID ]} ;;;
        ret false
      else
        let request : gmap string jsval := {[ "workload" := get candidate "workload" ]} in
        callback {[ "processing" := JBool true;
                    "workload" := get candidate "workload" ]} ;;;
        response <- stopWorkload w apiClient request ;;
        if negb (success response) || negb (truthy (resp_data response)) then
          let errorMessage := js_or (error response) (JStr "Failed to stop workload") in
          callback {[ "success" := JBool false;
                      "error" := errorMessage;
                      "statusCode" := statusCode response;
                      "workload" := get candidate "workload" ]} ;;;
          ret false
        else
          callback {[ "success" := JBool true;
                      "data" := resp_data response;
                      "request" := JObj request;
                      "workload" := get candidate "workload" ]} ;;;
          ret true
  end.

Definition stopWorkloadAction_handler (w : World) (message : Memory) (state : State)
    : M bool :=
  try_catch (stopHandlerBody w message state) catchBlock.

(** *** actions/listWorkloads.ts *)

Definition listRequestOptions (showOnlyRunning : bool) : gmap string jsval :=
  {[ "running" := if showOnlyRunning then JBool true else JUndefined ]}.

(** [message.content?.text as string || ""] followed by [toLowerCase]: a
    truthy text that is not a string has no such method. *)
Definition messageTextOf (message : Memory) : M string :=
  let text := match content message with Some c => get c "text" | None => JUndefined end in
  match js_or text (JStr "") with
  | JStr s => ret s
  | _ => throw (TypeError "messageText.toLowerCase is not a function")
  end.

(** The formatters build the text of an answer.  The text is not part of
    the model; what is modelled is whether building it throws, which
    happens when the body of the response lacks the method that the
    formatter calls on it.  [formatLaunchResponse], [formatStopResponse]
    and [formatUserBalance] only read properties of a truthy value and
    never throw. *)
Definition notAFunction (what : string) : exn := TypeError (what +:+ " is not a function").

Definition formatWorkloadsList (workloads : jsval) : M unit :=
  if length_is_zero workloads then ret tt
  else
    match workloads with
    | JArr items =>
        match List.find is_nullish items with
        | Some JNull =>
            throw (TypeError "Cannot read properties of null (reading 'created')")
        | Some _ =>
            throw (TypeError "Cannot read properties of undefined (reading 'created')")
        | None => ret tt
        end
    | _ => throw (notAFunction "workloads.map")
    end.

Definition listHandlerBody (w : World) (message : Memory) : M bool :=
  apiClient <- createComput3ApiClient w ;;
  messageText <- messageTextOf message ;;
  let showOnlyRunning := Str.includes "running" (Str.toLowerCase messageText) in
  let requestOptions := listRequestOptions showOnlyRunning in
  response <- listWorkloads w apiClient (Some requestOptions) ;;
  if negb (success response) || negb (truthy (resp_data response)) then
    let errorMessage := js_or (error response) (JStr "Failed to retrieve workloads") in
    callback {[ "success" := JBool false; "error" := errorMessage ]} ;;;
    ret false
  else
    formatWorkloadsList (resp_data response) ;;;
    callback {[ "success" := JBool true; "data" := resp_data response ]} ;;;
    ret true.

Definition listWorkloadsAction_handler (w : World) (message : Memory) : M bool :=
  try_catch (listHandlerBody w message) catchBlock.

(** *** actions/getWorkloadTypes.ts, getUserBalance.ts, getUserProfile.ts

    The three handlers differ only in the client method they call, in the
    formatter of the answer and in the fallback error message. *)

Definition formatWorkloadTypes (types : jsval) : M unit :=
  if length_is_zero types then ret tt
  else
    match types with
    | JArr _ => ret tt
    | _ => throw (notAFunction "types.map")
    end.

Definition formatUserBalance (balance : jsval) : M unit := ret tt.

Definition formatUserProfile (profile : jsval) : M unit :=
  let tags := match profile with JObj o => get o "tags" | _ => JUndefined end in
  if truthy tags && gt_zero (length_of tags) then
    match tags with
    | JArr _ => ret tt
    | _ => throw (notAFunction "profile.tags.join")
    end
  else ret tt.

Definition fetchHandler (fetch : World -> Comput3ApiClient -> M ApiResponse)
    (format : jsval -> M unit) (fallback : string) (w : World) : M bool :=
  try_catch
    (apiClient <- createComput3ApiClient w ;;
     response <- fetch w apiClient ;;
     if negb (success response) || negb (truthy (resp_data response)) then
       let errorMessage := js_or (error response) (JStr fallback) in
       callback {[ "success" := JBool false; "error" := errorMessage ]} ;;;
       ret false
     else
       format (resp_data response) ;;;
       callback {[ "success" := JBool true; "data" := resp_data response ]} ;;;
       ret true)
    catchBlock.

Definition getWorkloadTypesAction_handler : World -> M bool :=
  fetchHandler getWorkloadTypes formatWorkloadTypes "Failed to retrieve workload types".
Definition getUserBalanceAction_handler : World -> M bool :=
  fetchHandler getUserBalance formatUserBalance "Failed to retrieve user balance".
Definition getUserProfileAction_handler : World -> M bool :=
  fetchHandler getUserProfile formatUserProfile "Failed to retrieve user profile".

(** ** Reading a trace *)

Definition callbacks (t : list event) : list (gmap string jsval) :=
  omap (fun ev => match ev with EvCallback c => Some c | _ => None end) t.

Definition requests (t : list event) : list AxiosRequestConfig :=
  omap (fun ev => match ev with EvRequest c => Some c | _ => None end) t.

(** The extraction attempts of a turn, in the order in which they are made. *)
Inductive attempt := Deterministic (text : string) | ModelAssisted (p : Prompt).

Definition attempts (t : list event) : list attempt :=
  omap (fun ev => match ev with
                  | EvDirectExtraction text => Some (Deterministic text)
                  | EvUseModel p => Some (ModelAssisted p)
                  | _ => None
                  end) t.

(** ** Statements about a turn *)

(** The client that [fromRuntime] builds when the API key is set. *)
Definition clientOf (w : World) : Comput3ApiClient :=
  {| client_baseURL := API_CONFIG.BASE_URL; client_apiKey := apiKeySetting w |}.

(** The turn that every handler makes without an API key: one callback
    reporting the failure, the value false, nothing else. *)
Definition missingKeyTurn : M bool :=
  ([EvCallback {[ "success" := JBool false;
                  "error" := JStr ERROR_MESSAGES.MISSING_API_KEY ]}],
   inr false).

(** A turn answers once: one callback, whose success field is the value
    that the handler returns. *)
Definition answers_once (h : M bool) : Prop :=
  ∃ c b, callbacks (trace h) = [c] ∧ outcome h = inr b ∧ c !! "success" = Some (JBool b).

(** What the stop handler tells the user before it contacts the service. *)
Definition progress_notice (workload : jsval) : gmap string jsval :=
  {[ "processing" := JBool true; "workload" := workload ]}.

Definition stop_answers (h : M bool) : Prop :=
  ∃ c b,
    ((callbacks (trace h) = [c] ∧ requests (trace h) = []) ∨
     (∃ workload cfg,
        callbacks (trace h) = [progress_notice workload; c] ∧
        requests (trace h) = [cfg] ∧
        progress_notice workload !! "success" = None)) ∧
    outcome h = inr b ∧ c !! "success" = Some (JBool b).

(** The minutes that a validated launch candidate asks for. *)
Definition expiresMinutes (candidate : gmap string jsval) : number :=
  match get candidate "expires" with
  | JUndefined => Num 10
  | v => toNumber v
  end.

(** floor(now / 1000) + minutes * 60, for a clock in milliseconds. *)
Definition expiresAtUnixSeconds (now : Z) (minutes : number) : number :=
  num_add (Num (now / 1000)) (num_mul minutes (Num 60)).


(** The text of a message, as the list action reads it: the empty string
    when there is none. *)
Definition textOf (message : Memory) : string :=
  match content message with
  | Some c => match get c "text" with JStr s => s | _ => "" end
  | None => ""
  end.

(** The text of the message is a string or is missing, as the type
    Content declares it. *)
Definition textWellTyped (message : Memory) : bool :=
  match content message with
  | Some c =>
      match c !! "text" with
      | None | Some JUndefined | Some (JStr _) => true
      | Some _ => false
      end
  | None => true
  end.

(** The message carries a pre-structured field for the launch action. *)
Definition launchStructured (message : Memory) : bool :=
  match content message with Some c => has c "type" | None => false end.

(** The message carries a pre-structured field for the stop action. *)
Definition stopStructured (message : Memory) : bool :=
  match content message with
  | Some c => match c !! "workload" with Some (JStr _) => true | _ => false end
  | None => false
  end.



(** ** Example turns *)

Module Examples.

(** A runtime with an API key, a model that answers with an empty object
    and a service that accepts every request. *)
Definition world : World :=
  {| getSetting := fun _ => JStr "c3_api_key";
     processEnv := fun _ => None;
     useModel := fun _ => inr "{}";
     parseJSONObjectFromText := fun _ => Some ∅;
     axiosRequest := fun _ => Resolved 200 (JObj ∅);
     dateNow := 1700000000123 |}.

(** The same runtime without any API key. *)
Definition world_without_key : World :=
  {| getSetting := fun _ => JNull;
     processEnv := fun _ => None;
     useModel := useModel world;
     parseJSONObjectFromText := parseJSONObjectFromText world;
     axiosRequest := axiosRequest world;
     dateNow := dateNow world |}.

Definition text_message (text : string) : Memory :=
  {| content := Some {[ "text" := JStr text ]} |}.

Definition stop_message : Memory :=
  text_message "Stop my workload 7b69314d-c88d-47d9-920c-ae827f6b7844".

Definition launch_message : Memory :=
  text_message "Launch a media:fast workload for 30 minutes".

Definition no_state : State := {| messages := None |}.

End Examples.


(** * Further definitions

    Notions used to state more properties of the plugin. *)

(** ** Letter case *)

(** Two texts that are equal once lower-cased. *)
Definition same_letters (s t : string) : Prop := Str.toLowerCase s = Str.toLowerCase t.

Definition all_ascii : list ascii := map ascii_of_nat (List.seq 0 256).

(** A test on characters that cannot tell a character from its lower case. *)
Definition case_blind (p : ascii -> bool) : bool :=
  forallb (fun a => Bool.eqb (p a) (p (Str.lower_char a))) all_ascii.

(** A pattern all of whose character tests are blind to letter case. *)
Fixpoint ignores_case (r : regex) : bool :=
  match r with
  | Lit l => all_chars (fun x => case_blind (Char.canon_eq x)) l
  | Atom a | Star a | Plus a | Rep a _ => case_blind (atom_matches a)
  | Opt r' | Group _ r' => ignores_case r'
  | Seq r1 r2 | Alt r1 r2 => ignores_case r1 && ignores_case r2
  end.

(** The result of a match with its texts lower-cased. *)
Definition lowerResult (res : MatchResult) : MatchResult :=
  {| index := index res;
     matched := Str.toLowerCase (matched res);
     group1 := Str.toLowerCase <$> group1 res |}.

(** Two captures that are both absent, or equal once lower-cased. *)
Definition same_capture (c c' : option string) : Prop :=
  Str.toLowerCase <$> c = Str.toLowerCase <$> c'.

(** ** Durations *)

(** A natural number or the positive infinity: what [parseInt] makes of a
    run of digits, and what 60 times that is. *)
Definition natural_or_infinite (x : number) : Prop :=
  (∃ n, x = Num n ∧ (0 <= n)%Z) ∨ x = Infinity false.

(** ** Phrases *)

(** The text holds no character that matches the pattern character [x],
    letter case ignored. *)
Definition lacks (x : ascii) (s : string) : bool :=
  all_chars (fun c => negb (Char.canon_eq x c)) s.

(** Every match of the pattern holds a character that matches [x]: a
    sufficient syntactic test. *)
Fixpoint requires (x : ascii) (r : regex) : bool :=
  match r with
  | Lit l => negb (lacks x l)
  | Group _ r' => requires x r'
  | Seq r1 r2 => requires x r1 || requires x r2
  | Alt r1 r2 => requires x r1 && requires x r2
  | Atom _ | Star _ | Plus _ | Rep _ _ | Opt _ => false
  end.

(** [first_choice r cap s cap' rest]: in front of [rest], the text [s] is
    the match of [r] that the backtracking matcher tries first, every
    repetition taking as much as it can, every option being taken, every
    disjunction taking its first alternative. *)
Fixpoint first_choice (r : regex) (cap : option string) (s : string)
    (cap' : option string) (rest : string) : Prop :=
  let stops (p : ascii -> bool) (t : string) :=
    match t with String c _ => p c = false | EmptyString => True end in
  match r with
  | Lit l => lit_matches l s = true ∧ cap' = cap
  | Atom a => (∃ c, s = String c EmptyString ∧ atom_matches a c = true) ∧ cap' = cap
  | Star a => all_chars (atom_matches a) s = true ∧ stops (atom_matches a) rest ∧ cap' = cap
  | Plus a =>
      s ≠ EmptyString ∧ all_chars (atom_matches a) s = true ∧
      stops (atom_matches a) rest ∧ cap' = cap
  | Rep a n => String.length s = n ∧ all_chars (atom_matches a) s = true ∧ cap' = cap
  | Opt r' => first_choice r' cap s cap' rest
  | Group i r' =>
      ∃ c, first_choice r' cap s c rest ∧ cap' = if Nat.eqb i 1 then Some s else c
  | Seq r1 r2 =>
      ∃ s1 s2 c, s = s1 +:+ s2 ∧ first_choice r1 cap s1 c (s2 +:+ rest) ∧
                 first_choice r2 c s2 cap' rest
  | Alt r1 _ => first_choice r1 cap s cap' rest
  end.

(** ** The client and the service *)

(** What [get] and [post] make of the outcome of the axios call. *)
Definition responseOf (o : AxiosOutcome) : exn + ApiResponse :=
  match o with
  | Resolved status body =>
      inr {| success := true; resp_data := body; error := JUndefined;
             statusCode := JNum (Num status) |}
  | Rejected r => outcome (handleError r)
  end.


(** The last callback of a turn. *)
Definition answer (h : M bool) : option (gmap string jsval) := last (callbacks (trace h)).





(** Where the stop handler takes the workload identifier of a turn from:
    the workload field of a structured message, the deterministic
    extractors run on the text of the message, or the answer of the
    model. *)
Definition stopIdSource (w : World) (message : Memory) (id : string) : Prop :=
  (∃ c, content message = Some c ∧ c !! "workload" = Some (JStr id)) ∨
  (∃ c text, content message = Some c ∧ c !! "text" = Some (JStr text) ∧
             stopStructured message = false ∧
             validateStopWorkloadFromText text = Some id) ∨
  (∃ c text p result candidate,
     content message = Some c ∧ c !! "text" = Some (JStr text) ∧
     stopStructured message = false ∧
     validateStopWorkloadFromText text = None ∧
     useModel w p = inr result ∧
     parseJSONObjectFromText w result = Some candidate ∧
     get candidate "workload" = JStr id).

(** ** The prompt of a turn *)

(** The prompt that the launch handler sends to the model. *)
Definition launchPrompt (state : State) : Prompt :=
  {| template := ENHANCED_LAUNCH_WORKLOAD_TEMPLATE;
     recentMessages := formatRecentMessages state |}.

(** The prompt that the stop handler sends to the model. *)
Definition stopPrompt (state : State) : Prompt :=
  {| template := ENHANCED_STOP_WORKLOAD_TEMPLATE;
     recentMessages := formatRecentMessages state |}.

(** A turn that fails with one callback and no request. *)
Definition failedTurn (events : list event) (message : string) : M bool :=
  (app events [EvCallback {[ "success" := JBool false; "error" := JStr message ]}],
   inr false).

(** ** More example turns *)

Module Scenarios.

(** The runtime of [Examples.world] with a model that is out of service. *)
Definition model_down : World :=
  {| getSetting := getSetting Examples.world;
     processEnv := processEnv Examples.world;
     useModel := fun _ => inl (Error "model unavailable");
     parseJSONObjectFromText := parseJSONObjectFromText Examples.world;
     axiosRequest := axiosRequest Examples.world;
     dateNow := dateNow Examples.world |}.

(** The same runtime with a model whose answer holds no JSON object. *)
Definition model_chatty : World :=
  {| getSetting := getSetting Examples.world;
     processEnv := processEnv Examples.world;
     useModel := fun _ => inr "I cannot tell.";
     parseJSONObjectFromText := fun _ => None;
     axiosRequest := axiosRequest Examples.world;
     dateNow := dateNow Examples.world |}.

(** A conversation of five messages. *)
Definition older_messages : list StateMessage :=
  [ {| role := Some "user"; msg_content := MsgString "hello" |};
    {| role := Some "assistant"; msg_content := MsgString "How can I help?" |} ].

Definition recent_messages : list StateMessage :=
  [ {| role := Some "user"; msg_content := MsgString "I need a GPU" |};
    {| role := None; msg_content := MsgObject {[ "text" := JStr "for coding" ]} |};
    {| role := Some "assistant"; msg_content := MsgString "Which type?" |} ].

End Scenarios.

(** A request that carries the credentials of the runtime: the API key is
    set, and the request goes to the base URL of the service with the
    plugin's timeout and the key in the API key header. *)
Definition authorised (w : World) (cfg : AxiosRequestConfig) : Prop :=
  validate w = true ∧
  baseURL cfg = API_CONFIG.BASE_URL ∧
  timeout cfg = API_CONFIG.TIMEOUT ∧
  apiKeyHeader cfg = (API_CONFIG.API_KEY_HEADER, apiKeySetting w).

(** ** types/index.ts *)





(** ** Strings *)

#[local] Arguments String.append !s1 s2 : simpl nomatch.

Lemma append_assoc (a b c : string) : (a +:+ b) +:+ c = a +:+ (b +:+ c).
Proof. induction a as [| x a IH]; simpl; [reflexivity | f_equal; exact IH]. Qed.

Lemma length_append (a b : string) :
  String.length (a +:+ b) = (String.length a + String.length b)%nat.
Proof. induction a as [| x a IH]; simpl; [reflexivity | f_equal; exact IH]. Qed.

Lemma all_chars_app p (a b : string) :
  all_chars p (a +:+ b) = all_chars p a && all_chars p b.
Proof.
  induction a as [| x a IH]; simpl; [reflexivity |].
  rewrite IH. apply andb_assoc.
Qed.

(** ** The matcher is sound and complete for the denotation *)

Lemma match_lit_sound l s mt rest :
  match_lit l s = Some (mt, rest) -> s = mt +:+ rest ∧ lit_matches l mt = true.
Proof.
  revert s mt rest. induction l as [| a l IH]; intros s mt rest H.
  - cbn in H. injection H as <- <-. split; reflexivity.
  - destruct s as [| b s]; cbn in H; [discriminate |].
    destruct (Char.canon_eq a b) eqn:E; [| discriminate].
    destruct (match_lit l s) as [[mt' rest'] |] eqn:E'; [| discriminate].
    injection H as <- <-. destruct (IH _ _ _ E') as [-> Hl].
    split; [reflexivity |]. cbn. rewrite E, Hl. reflexivity.
Qed.

Lemma match_lit_complete l mt rest :
  lit_matches l mt = true -> match_lit l (mt +:+ rest) = Some (mt, rest).
Proof.
  revert mt. induction l as [| a l IH]; intros [| b mt] H; cbn in H; try discriminate.
  - reflexivity.
  - apply andb_prop in H as [E H]. cbn. rewrite E, (IH _ H). reflexivity.
Qed.

Section MatcherFacts.
Context {A : Type}.
Implicit Types (k : string -> string -> option A).

Lemma star_m_sound p s k x :
  star_m p s k = Some x ->
  ∃ mt rest, s = mt +:+ rest ∧ all_chars p mt = true ∧ k mt rest = Some x.
Proof.
  revert k. induction s as [| c s IH]; intros k H; cbn in H.
  - exists "", "". auto.
  - destruct (p c) eqn:E.
    + destruct (star_m p s (fun mt rest => k (String c mt) rest)) as [y |] eqn:E'.
      * injection H as ->. destruct (IH _ E') as (mt & rest & -> & Hp & Hk).
        exists (String c mt), rest. cbn. rewrite E, Hp. auto.
      * exists "", (String c s). auto.
    + exists "", (String c s). auto.
Qed.

Lemma star_m_complete p mt rest k :
  all_chars p mt = true -> is_Some (k mt rest) -> is_Some (star_m p (mt +:+ rest) k).
Proof.
  revert k. induction mt as [| c mt IH]; intros k Hp Hk.
  - cbn. destruct rest as [| c rest]; cbn; [exact Hk |].
    destruct (p c); [| exact Hk].
    destruct (star_m p rest _); [eexists; reflexivity | exact Hk].
  - cbn in Hp. apply andb_prop in Hp as [E Hp]. cbn. rewrite E.
    destruct (IH (fun mt' rest' => k (String c mt') rest') Hp Hk) as [y ->].
    eexists; reflexivity.
Qed.

Lemma rep_m_sound p n s k x :
  rep_m p n s k = Some x ->
  ∃ mt rest, s = mt +:+ rest ∧ String.length mt = n ∧ all_chars p mt = true
             ∧ k mt rest = Some x.
Proof.
  revert s k. induction n as [| n IH]; intros s k H; cbn in H.
  - exists "", s. auto.
  - destruct s as [| c s]; [discriminate |].
    destruct (p c) eqn:E; [| discriminate].
    destruct (IH _ _ H) as (mt & rest & -> & Hn & Hp & Hk).
    exists (String c mt), rest. cbn. rewrite E, Hp, Hn. auto.
Qed.

Lemma rep_m_complete p mt rest k :
  all_chars p mt = true -> rep_m p (String.length mt) (mt +:+ rest) k = k mt rest.
Proof.
  revert k. induction mt as [| c mt IH]; intros k Hp; [reflexivity |].
  cbn in Hp. apply andb_prop in Hp as [E Hp]. cbn. rewrite E.
  apply (IH (fun mt' rest' => k (String c mt') rest') Hp).
Qed.
End MatcherFacts.

Lemma m_sound {A} (r : regex) : ∀ s cap (k : string -> string -> option string -> option A) x,
  m r s cap k = Some x ->
  ∃ mt rest cap', s = mt +:+ rest ∧ denote r cap mt cap' ∧ k mt rest cap' = Some x.
Proof.
  induction r as [l | a | a | a | a n | r IH | i r IH | r1 IH1 r2 IH2 | r1 IH1 r2 IH2];
    intros s cap k x H; cbn in H.
  - destruct (match_lit l s) as [[mt rest] |] eqn:E; [| discriminate].
    destruct (match_lit_sound _ _ _ _ E) as [-> Hl].
    exists mt, rest, cap. cbn. auto.
  - destruct s as [| c s]; [discriminate |].
    destruct (atom_matches a c) eqn:E; [| discriminate].
    exists (String c ""), s, cap. cbn. eauto 6.
  - apply star_m_sound in H as (mt & rest & -> & Hp & Hk).
    exists mt, rest, cap. cbn. auto.
  - destruct s as [| c s]; [discriminate |].
    destruct (atom_matches a c) eqn:E; [| discriminate].
    apply star_m_sound in H as (mt & rest & -> & Hp & Hk).
    exists (String c mt), rest, cap. cbn. rewrite E, Hp. repeat split; auto.
  - apply rep_m_sound in H as (mt & rest & -> & Hn & Hp & Hk).
    exists mt, rest, cap. cbn. auto.
  - destruct (m r s cap k) as [y |] eqn:E.
    + injection H as ->. destruct (IH _ _ _ _ E) as (mt & rest & cap' & -> & Hd & Hk).
      exists mt, rest, cap'. cbn. auto.
    + exists "", s, cap. cbn. auto.
  - destruct (IH _ _ _ _ H) as (mt & rest & cap' & -> & Hd & Hk).
    exists mt, rest, (if Nat.eqb i 1 then Some mt else cap'). cbn. eauto.
  - destruct (IH1 _ _ _ _ H) as (m1 & s1 & c1 & -> & Hd1 & H1).
    destruct (IH2 _ _ _ _ H1) as (m2 & s2 & c2 & -> & Hd2 & H2).
    exists (m1 +:+ m2), s2, c2. rewrite append_assoc. cbn. eauto 10.
  - destruct (m r1 s cap k) as [y |] eqn:E.
    + injection H as ->. destruct (IH1 _ _ _ _ E) as (mt & rest & cap' & -> & Hd & Hk).
      exists mt, rest, cap'. cbn. auto.
    + destruct (IH2 _ _ _ _ H) as (mt & rest & cap' & -> & Hd & Hk).
      exists mt, rest, cap'. cbn. auto.
Qed.

Lemma m_complete {A} (r : regex) :
  ∀ mt rest cap cap' (k : string -> string -> option string -> option A),
  denote r cap mt cap' -> is_Some (k mt rest cap') -> is_Some (m r (mt +:+ rest) cap k).
Proof.
  induction r as [l | a | a | a | a n | r IH | i r IH | r1 IH1 r2 IH2 | r1 IH1 r2 IH2];
    intros mt rest cap cap' k Hd Hk; cbn in Hd; cbn [m].
  - destruct Hd as [Hl ->]. rewrite (match_lit_complete _ _ _ Hl). exact Hk.
  - destruct Hd as [(c & -> & E) ->]. cbn. rewrite E. exact Hk.
  - destruct Hd as [Hp ->]. apply star_m_complete; assumption.
  - destruct Hd as (Hne & Hp & ->). destruct mt as [| c mt]; [congruence |].
    cbn in Hp. apply andb_prop in Hp as [E Hp]. cbn. rewrite E.
    apply (star_m_complete _ _ _ (fun mt' rest' => k (String c mt') rest' cap)); assumption.
  - destruct Hd as (<- & Hp & ->).
    rewrite (rep_m_complete _ _ _ (fun mt' rest' => k mt' rest' cap) Hp). exact Hk.
  - destruct Hd as [Hd | [-> ->]].
    + destruct (IH _ _ _ _ _ Hd Hk) as [y ->]. eexists; reflexivity.
    + cbn. destruct (m r rest cap k); [eexists; reflexivity | exact Hk].
  - destruct Hd as (c & Hd & ->).
    apply (IH _ _ _ _ (fun mt' rest' c' => k mt' rest' (if Nat.eqb i 1 then Some mt' else c'))
             Hd Hk).
  - destruct Hd as (s1 & s2 & c & -> & Hd1 & Hd2). rewrite append_assoc.
    apply (IH1 _ _ _ _ _ Hd1). apply (IH2 _ _ _ _ _ Hd2). exact Hk.
  - destruct Hd as [Hd | Hd].
    + destruct (IH1 _ _ _ _ _ Hd Hk) as [y ->]. eexists; reflexivity.
    + destruct (m r1 (mt +:+ rest) cap k); [eexists; reflexivity |].
      apply (IH2 _ _ _ _ _ Hd Hk).
Qed.

(** A successful [exec] returns an occurrence of the pattern in the text. *)
Lemma exec_from_sound r s i res :
  exec_from r s i = Some res -> occurs r s (matched res) (group1 res).
Proof.
  revert i. induction s as [| c s IH]; intros i H; cbn in H.
  - destruct (match_at r "" i) as [res' |] eqn:E; [| discriminate].
    injection H as ->. unfold match_at in E.
    apply m_sound in E as (mt & rest & cap' & Hs & Hd & Hk).
    injection Hk as <-. cbn. exists "", rest. auto.
  - destruct (match_at r (String c s) i) as [res' |] eqn:E.
    + injection H as ->. unfold match_at in E.
      apply m_sound in E as (mt & rest & cap' & Hs & Hd & Hk).
      injection Hk as <-. cbn. exists "", rest. auto.
    + destruct (IH _ H) as (pre & post & -> & Hd).
      exists (String c pre), post. auto.
Qed.

Lemma exec_sound r s res :
  exec r s = Some res -> occurs r s (matched res) (group1 res).
Proof. apply exec_from_sound. Qed.

(** [exec] fails only when the pattern occurs nowhere in the text. *)
Lemma exec_from_complete r text s cap i :
  occurs r text s cap -> is_Some (exec_from r text i).
Proof.
  intros (pre & post & -> & Hd). revert i.
  induction pre as [| c pre IH]; intros i.
  - cbn [append]. 
    assert (H : is_Some (match_at r (s +:+ post) i)).
    { unfold match_at. eapply m_complete; [exact Hd | eexists; reflexivity]. }
    destruct H as [res H]. destruct s, post; cbn [append exec_from] in *; rewrite H;
      eexists; reflexivity.
  - cbn [append exec_from]. destruct (match_at r _ i); [eexists; reflexivity | apply IH].
Qed.

Lemma test_true_iff r text :
  test r text = true ↔ ∃ s cap, occurs r text s cap.
Proof.
  unfold test. split.
  - destruct (exec r text) as [res |] eqn:E; [| discriminate].
    intros _. exists (matched res), (group1 res). apply exec_sound, E.
  - intros (s & cap & H). destruct (exec_from_complete r text s cap 0 H) as [res E].
    unfold exec. rewrite E. reflexivity.
Qed.

Lemma exec_none_iff r text :
  exec r text = None ↔ ∀ s cap, ¬ occurs r text s cap.
Proof.
  split.
  - intros E s cap H. destruct (exec_from_complete r text s cap 0 H) as [res E'].
    unfold exec in E. congruence.
  - intros H. destruct (exec r text) as [res |] eqn:E; [| reflexivity].
    exfalso. apply (H _ _ (exec_sound _ _ _ E)).
Qed.

(** ** Loops over patterns *)

Lemma truthy_ne (s : string) : Str.truthy s = true ↔ s ≠ "".
Proof. destruct s; cbn; split; congruence. Qed.

Lemma capture1_exec r text res :
  capturing r -> exec r text = Some res ->
  ∃ g, group1 res = Some g ∧ g ≠ "" ∧ capture1 (exec r text) = Some g
       ∧ occurs r text (matched res) (Some g).
Proof.
  intros Hc E. pose proof (exec_sound _ _ _ E) as Ho.
  destruct Ho as (pre & post & Ht & Hd).
  destruct (Hc _ _ Hd) as (g & Hg & Hne).
  exists g. rewrite E. unfold capture1. destruct res as [i mt cap]; cbn in *. subst cap.
  apply truthy_ne in Hne as Htr. rewrite Htr.
  repeat split; auto. exists pre, post. auto.
Qed.

Lemma capture1_none r text :
  exec r text = None -> capture1 (exec r text) = None.
Proof. intros ->. reflexivity. Qed.

Lemma expirationLoop_first_match earlier p later text d res :
  capturing p ->
  (∀ q, q ∈ earlier -> exec q text = None) ->
  exec p text = Some res ->
  ∃ g, group1 res = Some g ∧ g ≠ "" ∧
       expirationLoop (earlier ++ p :: later)%list text d =
       if Str.includes "hours" (toString p)
       then num_mul (parseInt g) (Num 60) else parseInt g.
Proof.
  intros Hc Hq E. destruct (capture1_exec _ _ _ Hc E) as (g & Hg & Hne & Hcap & _).
  exists g. split; [exact Hg |]. split; [exact Hne |].
  induction earlier as [| q earlier IH]; cbn [app expirationLoop].
  - rewrite Hcap. reflexivity.
  - rewrite (capture1_none q text) by (apply Hq; left).
    apply IH. intros q' Hq'. apply Hq. right. exact Hq'.
Qed.

Lemma expirationLoop_no_match patterns text d :
  (∀ q, q ∈ patterns -> exec q text = None) ->
  expirationLoop patterns text d = d.
Proof.
  induction patterns as [| q patterns IH]; intros Hq; cbn [expirationLoop]; [reflexivity |].
  rewrite (capture1_none q text) by (apply Hq; left).
  apply IH. intros q' Hq'. apply Hq. right. exact Hq'.
Qed.

(** ** Numbers *)

Lemma nearest_pos_exact z : (0 < z <= 2 ^ 53)%Z -> nearest_pos z 1 = Num z.
Proof.
  intros [Hpos Hle]. unfold nearest_pos.
  change (Z.log2 1) with 0%Z. rewrite Z.sub_0_r.
  pose proof (Z.log2_nonneg z) as Hc.
  destruct (Z.log2_spec z Hpos) as [Hlo Hhi].
  assert (Hc53 : (Z.log2 z <= 53)%Z).
  { destruct (Z_le_gt_dec (Z.log2 z) 53) as [| Hgt]; [assumption |].
    assert (2 ^ 54 <= 2 ^ Z.log2 z)%Z by (apply Z.pow_le_mono_r; lia).
    assert (2 ^ 53 < 2 ^ 54)%Z by reflexivity. lia. }
  set (c := Z.log2 z) in *.
  rewrite (proj2 (Z.leb_le 0 c) Hc), Z.mul_1_l, (proj2 (Z.leb_le _ _) Hlo).
  rewrite Z.max_l by lia.
  destruct (Z.leb_spec 0 (c - 52)) as [Hu | Hu].
  - assert (Hcase : c = 52%Z ∨ c = 53%Z) by lia.
    destruct Hcase as [-> | ->].
    + change (52 - 52)%Z with 0%Z. change (2 ^ 0)%Z with 1%Z.
      rewrite Z.mul_1_r, Z.div_1_r, Z.mod_1_r, Z.mul_1_r.
      change (2 * 0 <? 1)%Z with true. cbv iota.
      destruct (Z.leb_spec (2 ^ 1024) z) as [Hbig |]; [| reflexivity].
      assert (2 ^ 53 < 2 ^ 1024)%Z by (apply Z.pow_lt_mono_r; lia). lia.
    + assert (Hz : z = (2 ^ 53)%Z).
      { change (2 ^ (53 + 1))%Z with (2 ^ 54)%Z in Hhi. lia. }
      subst z. vm_compute. reflexivity.
  - set (k := (- (c - 52))%Z). assert (Hk : (0 < k)%Z) by (unfold k; lia).
    assert (Hp : (0 < 2 ^ k)%Z) by (apply Z.pow_pos_nonneg; lia).
    rewrite Z.div_1_r, Z.mod_1_r.
    change (2 * 0 <? 1)%Z with true. cbv iota.
    rewrite (Z.mul_comm z (2 ^ k)), Z.gcd_comm, Z.gcd_mul_diag_l by lia.
    rewrite Z.eqb_refl, Z.mul_comm, Z.div_mul by lia. reflexivity.
Qed.

(** An integer of magnitude at most 2^53 is a double. *)
Lemma double_of_exact z : (Z.abs z <= 2 ^ 53)%Z -> double_of z = Num z.
Proof.
  intros H. unfold double_of, nearest. destruct z as [| p | p].
  - reflexivity.
  - apply nearest_pos_exact. lia.
  - change (- Z.neg p)%Z with (Z.pos p). rewrite nearest_pos_exact by lia. reflexivity.
Qed.

Lemma num_mul_exact a b :
  (Z.abs (a * b) <= 2 ^ 53)%Z -> num_mul (Num a) (Num b) = Num (a * b).
Proof. intros H. unfold num_mul, ratio. apply double_of_exact, H. Qed.

Lemma num_add_exact a b :
  (Z.abs (a + b) <= 2 ^ 53)%Z -> num_add (Num a) (Num b) = Num (a + b).
Proof.
  intros H. unfold num_add, ratio. rewrite !Z.mul_1_r. apply double_of_exact, H.
Qed.

(** The double nearest to a natural number is a natural number or the
    positive infinity. *)
Lemma double_of_nonneg z :
  (0 <= z)%Z -> (∃ n, (0 <= n)%Z ∧ double_of z = Num n) ∨ double_of z = Infinity false.
Proof.
  intros Hz. unfold double_of, nearest. destruct z as [| p | p]; [left; exists 0%Z; auto with zarith | | lia].
  destruct (Z_le_gt_dec (Z.pos p) (2 ^ 53)) as [Hsmall | Hbig].
  { left. exists (Z.pos p). split; [lia | apply nearest_pos_exact; lia]. }
  unfold nearest_pos. change (Z.log2 1) with 0%Z. rewrite Z.sub_0_r.
  set (z := Z.pos p) in *. assert (Hpos : (0 < z)%Z) by (unfold z; lia).
  destruct (Z.log2_spec z Hpos) as [Hlo Hhi].
  assert (Hc : (53 <= Z.log2 z)%Z).
  { destruct (Z_le_gt_dec 53 (Z.log2 z)) as [| Hlt]; [assumption |].
    assert (2 ^ Z.succ (Z.log2 z) <= 2 ^ 53)%Z by (apply Z.pow_le_mono_r; lia). lia. }
  set (c := Z.log2 z) in *.
  rewrite (proj2 (Z.leb_le 0 c)) by lia. rewrite Z.mul_1_l, (proj2 (Z.leb_le _ _) Hlo).
  rewrite Z.max_l by lia. rewrite (proj2 (Z.leb_le 0 (c - 52))) by lia.
  assert (Hp : (0 < 2 ^ (c - 52))%Z) by (apply Z.pow_pos_nonneg; lia).
  rewrite Z.mul_1_l.
  assert (Hq : (0 <= z / 2 ^ (c - 52))%Z) by (apply Z.div_pos; lia).
  match goal with
  | |- context [Z.leb (2 ^ 1024) (?x * _)] => set (m := x); assert (Hm : (0 <= m)%Z)
  end.
  { unfold m. repeat match goal with |- context [if ?b then _ else _] => destruct b end; lia. }
  destruct (Z.leb (2 ^ 1024) (m * 2 ^ (c - 52))); [right; reflexivity |].
  left. eexists. split; [| reflexivity]. apply Z.mul_nonneg_nonneg; lia.
Qed.

(** ** Digits *)

Lemma digit_not_space c : Char.is_digit c = true -> Char.is_space c = false.
Proof. destruct c as [[] [] [] [] [] [] [] []]; vm_compute; congruence. Qed.

Lemma parse_digits_decimal s acc :
  all_chars Char.is_digit s = true ->
  parse_digits s (Some acc) = Some (decimal_from s acc).
Proof.
  revert acc. induction s as [| c s IH]; intros acc H; cbn in *; [reflexivity |].
  apply andb_prop in H as [E H]. rewrite E. apply IH, H.
Qed.

Lemma decimal_from_nonneg s acc :
  all_chars Char.is_digit s = true -> (0 <= acc)%Z -> (0 <= decimal_from s acc)%Z.
Proof.
  revert acc. induction s as [| c s IH]; intros acc H Hacc; cbn in *; [exact Hacc |].
  apply andb_prop in H as [E H]. apply IH; [exact H |].
  assert (0 <= digit_value c)%Z; [| lia].
  destruct c as [[] [] [] [] [] [] [] []]; try discriminate E; vm_compute; discriminate.
Qed.

Lemma decimal_nonneg g : is_digits g = true -> (0 <= decimal g)%Z.
Proof.
  unfold is_digits. intros H. apply andb_prop in H as [_ H].
  apply decimal_from_nonneg; [exact H | lia].
Qed.

(** [parseInt] reads a run of digits as the double nearest to the number
    they spell. *)
Lemma parseInt_digits g :
  is_digits g = true -> parseInt g = double_of (decimal g).
Proof.
  unfold is_digits. intros H. apply andb_prop in H as [Hne H].
  destruct g as [| c g]; [discriminate |]. cbn in H. apply andb_prop in H as [E H].
  unfold parseInt. cbn [skip_space]. rewrite (digit_not_space _ E).
  assert (P : parse_digits (String c g) None = Some (decimal (String c g))).
  { cbn [parse_digits]. rewrite E. cbn [default]. rewrite (parse_digits_decimal _ _ H).
    reflexivity. }
  destruct c as [[] [] [] [] [] [] [] []]; try discriminate E;
    rewrite P; f_equal; lia.
Qed.

(** ** The duration patterns *)

Ltac break_denote H :=
  repeat match type of H with
         | _ ∧ _ => let H' := fresh "D" in destruct H as [H' H]; try break_denote H'
         | ∃ _, _ => let x := fresh "x" in destruct H as [x H]
         | _ ∨ _ => destruct H as [H | H]
         end.

Lemma expirationPatterns_capture p s cap :
  p ∈ expirationPatterns -> denote p None s cap ->
  ∃ g, cap = Some g ∧ is_digits g = true.
Proof.
  intros Hp Hd. unfold expirationPatterns, minutesTail in Hp.
  repeat (apply elem_of_cons in Hp as [-> | Hp]); [.. | apply elem_of_nil in Hp as []];
    cbn [seq app denote Nat.eqb] in Hd; break_denote Hd; subst;
    eexists; (split; [reflexivity |]); unfold is_digits;
    match goal with
    | Hne : ?g ≠ "", Hall : all_chars _ ?g = true |- _ =>
        apply truthy_ne in Hne; rewrite Hne; exact Hall
    end.
Qed.

Lemma expirationPatterns_capturing p : p ∈ expirationPatterns -> capturing p.
Proof.
  intros Hp s cap Hd.
  destruct (expirationPatterns_capture p s cap Hp Hd) as (g & -> & Hg).
  exists g. split; [reflexivity |].
  unfold is_digits in Hg. apply andb_prop in Hg as [Hg _]. apply truthy_ne, Hg.
Qed.

Lemma expirationPatterns_empty_text p : p ∈ expirationPatterns -> exec p "" = None.
Proof.
  intros Hp. unfold expirationPatterns in Hp.
  repeat (apply elem_of_cons in Hp as [-> | Hp]); [.. | apply elem_of_nil in Hp as []];
    vm_compute; reflexivity.
Qed.

(** C4.  The duration patterns are tried in their fixed order
    "expires in N minutes", "for N minutes", "N minutes expir", "N minutes",
    "N hours": when a pattern matches the text and no earlier pattern does,
    its first capture is a non-empty run of digits and the result is the
    number they spell, multiplied by 60 when the pattern is the last one,
    the hours pattern.  The number and the product are those of
    JavaScript, the nearest doubles; they are the exact integers whenever
    60 times the number spelt is at most 2^53, and beyond that they round:
    "for 9007199254740993 minutes" gives 9007199254740992.  When no pattern
    matches, the default is returned unchanged.  "expires in 45 minutes" gives 45, "for 2 hours" gives 120
    and "no duration mentioned" gives the default 10. *)
Theorem extractExpirationTime_first_match (text : string) (defaultMinutes : number) :
  (∀ earlier p later res,
     expirationPatterns = (earlier ++ p :: later)%list ->
     (∀ q, q ∈ earlier -> exec q text = None) ->
     exec p text = Some res ->
     ∃ g, group1 res = Some g ∧ is_digits g = true ∧
          extractExpirationTime text defaultMinutes =
            match later with
            | [] => num_mul (double_of (decimal g)) (Num 60)
            | _ => double_of (decimal g)
            end ∧
          ((decimal g * 60 <= 2 ^ 53)%Z ->
           extractExpirationTime text defaultMinutes =
           Num (match later with [] => decimal g * 60 | _ => decimal g end))) ∧
  ((∀ q, q ∈ expirationPatterns -> exec q text = None) ->
   extractExpirationTime text defaultMinutes = defaultMinutes) ∧
  map toString expirationPatterns =
    [ "/expires? in (\d+)\s*min(ute)?s?/i";
      "/for (\d+)\s*min(ute)?s?/i";
      "/(\d+)\s*min(ute)?s? expir/i";
      "/(\d+)\s*min(ute)?s?/i";
      "/(\d+)\s*hours?/i" ] ∧
  extractExpirationTime "expires in 45 minutes" (Num 10) = Num 45 ∧
  extractExpirationTime "for 2 hours" (Num 10) = Num 120 ∧
  extractExpirationTime "no duration mentioned" (Num 10) = Num 10 ∧
  extractExpirationTime "for 9007199254740993 minutes" (Num 10) = Num 9007199254740992.
Proof.
  split; [| split; [| split; [vm_compute; reflexivity | repeat split; vm_compute; reflexivity]]].
  - intros earlier p later res Hsplit Hq E.
    assert (Hp : p ∈ expirationPatterns).
    { rewrite Hsplit. apply elem_of_app. right. left. }
    assert (Ht : Str.truthy text = true).
    { destruct text; [| reflexivity].
      rewrite (expirationPatterns_empty_text p Hp) in E. discriminate E. }
    destruct (expirationLoop_first_match earlier p later text defaultMinutes res
                (expirationPatterns_capturing p Hp) Hq E) as (g & Hg & Hne & Hloop).
    pose proof (exec_sound _ _ _ E) as (pre & post & _ & Hd).
    destruct (expirationPatterns_capture p _ _ Hp Hd) as (g' & Hg' & Hdig).
    rewrite Hg in Hg'. injection Hg' as <-.
    exists g. split; [exact Hg |]. split; [exact Hdig |].
    assert (Hval : extractExpirationTime text defaultMinutes =
                   match later with
                   | [] => num_mul (double_of (decimal g)) (Num 60)
                   | _ => double_of (decimal g)
                   end).
    { unfold extractExpirationTime. rewrite Ht. cbn [negb].
      rewrite Hsplit, Hloop, (parseInt_digits g Hdig).
      clear - Hsplit. unfold expirationPatterns in Hsplit.
      destruct earlier as [| e1 [| e2 [| e3 [| e4 [| e5 [| e6 earlier]]]]]];
        cbn [app] in Hsplit; injection Hsplit as; subst; try discriminate;
        match goal with
        | |- context [Str.includes ?a ?b] =>
            let v := eval vm_compute in (Str.includes a b) in
            change (Str.includes a b) with v
        end; reflexivity. }
    split; [exact Hval |].
    intros Hbound. rewrite Hval.
    pose proof (decimal_nonneg g Hdig) as Hnn.
    rewrite (double_of_exact (decimal g)) by lia.
    destruct later; [apply num_mul_exact; lia | reflexivity].
  - intros Hq. unfold extractExpirationTime.
    destruct (negb (Str.truthy text)); [reflexivity |].
    apply expirationLoop_no_match, Hq.
Qed.

(** ** The identifier patterns *)

Lemma all_chars_ext p q s :
  (∀ c, p c = q c) -> all_chars p s = all_chars q s.
Proof. intros H. induction s as [| c s IH]; cbn; [reflexivity | rewrite H, IH; reflexivity]. Qed.

Ltac by_cases c := destruct c as [[] [] [] [] [] [] [] []]; vm_compute; reflexivity.

Lemma hex_class c : atom_matches hex c = Char.is_hex c.
Proof. by_cases c. Qed.

Lemma alpha_class c : atom_matches alpha c = Char.is_alpha c.
Proof. by_cases c. Qed.

Lemma alnum_class c : atom_matches alnum c = Char.is_alnum c.
Proof. by_cases c. Qed.

Lemma token_class c :
  atom_matches (AClass [IRange "a" "z"; IRange "A" "Z"; IRange "0" "9"; IChar "-"]) c =
  Char.is_alnum c || is_hyphen c.
Proof. by_cases c. Qed.

Lemma wide_token_class c :
  atom_matches (AClass [IRange "a" "z"; IRange "A" "Z"; IRange "0" "9";
                        IChar "-"; IChar "_"]) c =
  Char.is_alnum c || is_hyphen c || is_underscore c.
Proof. by_cases c. Qed.

Lemma separator_class c :
  atom_matches (AClass [IChar ":"; ISpace]) c = is_colon c || Char.is_space c.
Proof. by_cases c. Qed.

Lemma dot_escape c : atom_matches (AEsc ".") c = true -> c = "."%char.
Proof. destruct c as [[] [] [] [] [] [] [] []]; vm_compute; congruence. Qed.

Lemma canon_eq_hyphen c : Char.canon_eq "-" c = true -> c = "-"%char.
Proof. destruct c as [[] [] [] [] [] [] [] []]; vm_compute; congruence. Qed.

Lemma lit_hyphen s : lit_matches "-" s = true -> s = "-".
Proof.
  destruct s as [| c [| c' s]]; cbn; try discriminate.
  - rewrite andb_true_r. intros H. rewrite (canon_eq_hyphen _ H). reflexivity.
  - rewrite andb_false_r. discriminate.
Qed.

Lemma lit_matches_app l1 l2 s1 s2 :
  lit_matches l1 s1 = true -> lit_matches l2 s2 = true ->
  lit_matches (l1 +:+ l2) (s1 +:+ s2) = true.
Proof.
  revert s1. induction l1 as [| a l1 IH]; intros [| b s1] H1 H2; cbn in *; try discriminate.
  - exact H2.
  - apply andb_prop in H1 as [E H1]. rewrite E. cbn. apply IH; assumption.
Qed.

Lemma idPatterns_shape earlier p later s cap :
  idPatterns = (earlier ++ p :: later)%list -> denote p None s cap ->
  ∃ g, cap = Some g ∧ g ≠ "" ∧ idShape (List.length earlier) s g.
Proof.
  intros Hsplit Hd. unfold idPatterns, workloadPatterns in Hsplit.
  destruct earlier as [| e1 [| e2 [| e3 [| e4 [| e5 [| e6 earlier]]]]]];
    cbn [app] in Hsplit; injection Hsplit as; subst; try discriminate;
    cbn [List.length idShape];
    unfold uuidPattern, comput3DomainPattern in Hd;
    cbn [seq app denote Nat.eqb] in Hd; break_denote Hd; subst.
  - (* UUID *)
    repeat match goal with H : lit_matches "-" _ = true |- _ => apply lit_hyphen in H; subst end.
    eexists. split; [reflexivity |]. split.
    + destruct x0 as [| c x0]; [discriminate | discriminate].
    + split; [reflexivity |]. unfold is_uuid, hexGroup.
      eexists _, _, _, _, _. split; [reflexivity |].
      rewrite <- !(all_chars_ext _ _ _ hex_class). auto 20.
  - (* domain *)
    eexists. split; [reflexivity |]. split.
    + destruct x0 as [| c x0]; [congruence | discriminate].
    + split; [reflexivity |]. unfold is_domain, run.
      match goal with
      | H1 : atom_matches (AEsc ".") ?c1 = true, H2 : atom_matches (AEsc ".") ?c2 = true |- _ =>
          apply dot_escape in H1; apply dot_escape in H2; subst c1 c2
      end.
      eexists _, _. split; [reflexivity |].
      rewrite <- (all_chars_ext _ _ _ token_class). split; [auto |].
      change ".comput3.ai" with ("." +:+ "comput3" +:+ "." +:+ "ai").
      repeat (apply lit_matches_app; [first [assumption | reflexivity] |]). assumption.
  - (* wrk_ *)
    eexists. split; [reflexivity |]. split; [assumption |].
    unfold is_wrk, run. eexists. split; [reflexivity |].
    rewrite <- (all_chars_ext _ _ _ alnum_class). auto.
  - (* workload *)
    eexists. split; [reflexivity |]. split; [assumption |].
    unfold is_workload_token, run. eexists _, _. split; [reflexivity |].
    rewrite <- (all_chars_ext _ _ _ separator_class).
    rewrite <- (all_chars_ext _ _ _ wide_token_class). auto 10.
  - (* four words *)
    repeat match goal with H : lit_matches "-" _ = true |- _ => apply lit_hyphen in H; subst end.
    eexists. split; [reflexivity |]. split.
    + destruct x0 as [| c x0]; [congruence | discriminate].
    + split; [reflexivity |]. unfold is_four_words, run.
      eexists _, _, _, _. split; [reflexivity |].
      rewrite <- !(all_chars_ext _ _ _ alpha_class). auto 20.
Qed.

Lemma workloadLoop_first_match earlier p later text res :
  capturing p ->
  (∀ q, q ∈ earlier -> exec q text = None) ->
  exec p text = Some res ->
  ∃ g, group1 res = Some g ∧
       workloadLoop (earlier ++ p :: later)%list text =
       Some (if Str.includes "wrk_" (toString p) then "wrk_" +:+ g else g).
Proof.
  intros Hc Hq E. destruct (capture1_exec _ _ _ Hc E) as (g & Hg & Hne & Hcap & _).
  exists g. split; [exact Hg |].
  induction earlier as [| q earlier IH]; cbn [app workloadLoop].
  - rewrite Hcap. reflexivity.
  - rewrite (capture1_none q text) by (apply Hq; left).
    apply IH. intros q' Hq'. apply Hq. right. exact Hq'.
Qed.

Lemma workloadLoop_no_match patterns text :
  (∀ q, q ∈ patterns -> exec q text = None) -> workloadLoop patterns text = None.
Proof.
  induction patterns as [| q patterns IH]; intros Hq; cbn [workloadLoop]; [reflexivity |].
  rewrite (capture1_none q text) by (apply Hq; left).
  apply IH. intros q' Hq'. apply Hq. right. exact Hq'.
Qed.

(** The two leading steps of [extractWorkloadId] behave like two more
    rounds of its loop. *)
Lemma extractWorkloadId_loop text :
  Str.truthy text = true -> extractWorkloadId text = workloadLoop idPatterns text.
Proof.
  intros Ht. unfold extractWorkloadId, idPatterns. rewrite Ht. cbn [negb workloadLoop].
  destruct (capture1 (exec uuidPattern text)); [reflexivity |].
  destruct (capture1 (exec comput3DomainPattern text)); reflexivity.
Qed.

Lemma idPatterns_capturing p : p ∈ idPatterns -> capturing p.
Proof.
  intros Hp s cap Hd. apply list_elem_of_split in Hp as (earlier & later & Hsplit).
  destruct (idPatterns_shape _ _ _ _ _ Hsplit Hd) as (g & -> & Hne & _). eauto.
Qed.

Lemma idPatterns_empty_text p : p ∈ idPatterns -> exec p "" = None.
Proof.
  intros Hp. unfold idPatterns, workloadPatterns in Hp.
  repeat (apply elem_of_cons in Hp as [-> | Hp]); [.. | apply elem_of_nil in Hp as []];
    vm_compute; reflexivity.
Qed.

(** C3.  [extractWorkloadId] tries the UUID pattern, the ".comput3.ai"
    domain pattern, the "wrk_" pattern, the "workload" pattern and the
    four-word pattern in this order: when a pattern matches the text and no
    earlier pattern does, the result is the first capture of that match,
    with "wrk_" put back in front of it for the third pattern.  The capture
    has the form that the pattern names (for the UUID, the domain and the
    four words it is the whole match, a piece of the text returned
    verbatim).  When no pattern matches, the result is none.  The two
    sample identifiers are returned verbatim and "no id here" yields
    none. *)
Theorem extractWorkloadId_first_match (text : string) :
  (∀ earlier p later res,
     idPatterns = (earlier ++ p :: later)%list ->
     (∀ q, q ∈ earlier -> exec q text = None) ->
     exec p text = Some res ->
     ∃ g, group1 res = Some g ∧
          idShape (List.length earlier) (matched res) g ∧
          (∃ pre post, text = pre +:+ matched res +:+ post) ∧
          extractWorkloadId text =
          Some (if Nat.eqb (List.length earlier) 2 then "wrk_" +:+ g else g)) ∧
  ((∀ q, q ∈ idPatterns -> exec q text = None) -> extractWorkloadId text = None) ∧
  map toString idPatterns =
    [ "/([0-9a-f]{8}-[0-9a-f]{4}-[0-9a-f]{4}-[0-9a-f]{4}-[0-9a-f]{12})/i";
      "/([a-zA-Z0-9-]+\.comput3\.ai)/i";
      "/wrk_([a-zA-Z0-9]+)/i";
      "/workload[:\s]+([a-zA-Z0-9-_]+)/i";
      "/([a-zA-Z]+-[a-zA-Z]+-[a-zA-Z]+-[a-zA-Z]+)/i" ] ∧
  extractWorkloadId "7b69314d-c88d-47d9-920c-ae827f6b7844" =
    Some "7b69314d-c88d-47d9-920c-ae827f6b7844" ∧
  extractWorkloadId "firmly-widely-proud-gpu.comput3.ai" =
    Some "firmly-widely-proud-gpu.comput3.ai" ∧
  extractWorkloadId "no id here" = None.
Proof.
  split; [| split; [| split; [vm_compute; reflexivity | repeat split; vm_compute; reflexivity]]].
  - intros earlier p later res Hsplit Hq E.
    assert (Hp : p ∈ idPatterns).
    { rewrite Hsplit. apply elem_of_app. right. left. }
    assert (Ht : Str.truthy text = true).
    { destruct text; [| reflexivity].
      rewrite (idPatterns_empty_text p Hp) in E. discriminate E. }
    destruct (workloadLoop_first_match earlier p later text res
                (idPatterns_capturing p Hp) Hq E) as (g & Hg & Hloop).
    pose proof (exec_sound _ _ _ E) as (pre & post & Htext & Hd).
    destruct (idPatterns_shape _ _ _ _ _ Hsplit Hd) as (g' & Hg' & _ & Hshape).
    rewrite Hg in Hg'. injection Hg' as <-.
    exists g. split; [exact Hg |]. split; [exact Hshape |].
    split; [exists pre, post; exact Htext |].
    rewrite (extractWorkloadId_loop text Ht), Hsplit, Hloop.
    clear - Hsplit. unfold idPatterns, workloadPatterns in Hsplit.
    destruct earlier as [| e1 [| e2 [| e3 [| e4 [| e5 [| e6 earlier]]]]]];
      cbn [app] in Hsplit; injection Hsplit as; subst; try discriminate;
      reflexivity.
  - intros Hq. unfold extractWorkloadId.
    destruct (negb (Str.truthy text)); [reflexivity |].
    rewrite (capture1_none uuidPattern) by (apply Hq; left).
    rewrite (capture1_none comput3DomainPattern) by (apply Hq; right; left).
    apply workloadLoop_no_match. intros q Hq'. apply Hq. right. right. exact Hq'.
Qed.

(** ** The workload type patterns *)

Lemma anyPatternMatches_true patterns text :
  anyPatternMatches patterns text = true ↔ ∃ p, p ∈ patterns ∧ test p text = true.
Proof.
  induction patterns as [| q patterns IH]; cbn [anyPatternMatches].
  - split; [discriminate | intros (p & Hp & _); apply elem_of_nil in Hp as []].
  - destruct (test q text) eqn:E.
    + split; [intros _; exists q; split; [left | exact E] | reflexivity].
    + rewrite IH. split.
      * intros (p & Hp & Ht). exists p. split; [right; exact Hp | exact Ht].
      * intros (p & Hp & Ht). apply elem_of_cons in Hp as [-> | Hp]; [congruence |].
        exists p. auto.
Qed.

Lemma anyPatternMatches_false patterns text :
  (∀ p, p ∈ patterns -> test p text = false) -> anyPatternMatches patterns text = false.
Proof.
  intros H. destruct (anyPatternMatches patterns text) eqn:E; [| reflexivity].
  apply anyPatternMatches_true in E as (p & Hp & Ht). rewrite (H p Hp) in Ht. discriminate.
Qed.

Lemma directMatch_first earlier type patterns later text :
  (∀ ty ps, (ty, ps) ∈ earlier -> ∀ p, p ∈ ps -> test p text = false) ->
  (∃ p, p ∈ patterns ∧ test p text = true) ->
  directMatch (earlier ++ (type, patterns) :: later)%list text = Some type.
Proof.
  intros He Hp. induction earlier as [| [ty ps] earlier IH]; cbn [app directMatch].
  - apply anyPatternMatches_true in Hp. rewrite Hp. reflexivity.
  - rewrite (anyPatternMatches_false ps text) by (apply (He ty); left).
    apply IH. intros ty' ps' H. apply (He ty' ps'). right. exact H.
Qed.

Lemma directMatch_none entries text :
  (∀ ty ps, (ty, ps) ∈ entries -> ∀ p, p ∈ ps -> test p text = false) ->
  directMatch entries text = None.
Proof.
  induction entries as [| [ty ps] entries IH]; intros H; cbn [directMatch]; [reflexivity |].
  rewrite (anyPatternMatches_false ps text) by (apply (H ty); left).
  apply IH. intros ty' ps' H'. apply (H ty' ps'). right. exact H'.
Qed.

Lemma test_lit_alternatives keywords text :
  keywords ≠ [] ->
  test (alt (map Lit keywords)) text = true ↔ mentionsAny text keywords.
Proof.
  intros Hne. rewrite test_true_iff. unfold mentionsAny, mentions, occurs.
  assert (D : ∀ s cap, denote (alt (map Lit keywords)) None s cap ↔
                       (∃ k, k ∈ keywords ∧ lit_matches k s = true) ∧ cap = None).
  { intros s cap. induction keywords as [| k [| k' keywords] IH]; [congruence | |].
    - cbn. split.
      + intros [H ->]. split; [exists k; split; [left | exact H] | reflexivity].
      + intros [(k0 & Hk & H) ->]. apply list_elem_of_singleton in Hk as ->. auto.
    - change (alt (map Lit (k :: k' :: keywords)))
        with (Alt (Lit k) (alt (map Lit (k' :: keywords)))).
      cbn [denote]. rewrite IH by discriminate. split.
      + intros [[H ->] | [(k0 & Hk & H) ->]].
        * split; [exists k; split; [left | exact H] | reflexivity].
        * split; [exists k0; split; [right; exact Hk | exact H] | reflexivity].
      + intros [(k0 & Hk & H) ->]. apply elem_of_cons in Hk as [-> | Hk].
        * left. auto.
        * right. split; [exists k0; auto | reflexivity]. }
  split.
  - intros (s & cap & pre & post & Ht & Hd). apply D in Hd as [(k & Hk & H) _].
    exists k. split; [exact Hk |]. exists pre, s, post. auto.
  - intros (k & Hk & pre & s & post & Ht & H).
    exists s, None, pre, post. split; [exact Ht |]. apply D. split; [eauto | reflexivity].
Qed.

Lemma table_rejects_empty_text ty ps p :
  (ty, ps) ∈ WORKLOAD_TYPE_PATTERNS -> p ∈ ps -> test p "" = false.
Proof.
  intros He Hp. unfold WORKLOAD_TYPE_PATTERNS in He.
  repeat (apply elem_of_cons in He as [He | He]; [injection He as -> -> |]);
    [.. | apply elem_of_nil in He as []];
    repeat (apply elem_of_cons in Hp as [-> | Hp]); try (apply elem_of_nil in Hp as []);
    vm_compute; reflexivity.
Qed.

(** C5.  [extractWorkloadType] walks the declared types in their declared
    order: a type one of whose patterns matches the text, when no pattern
    of an earlier type does, is the result.  When no pattern of any type
    matches, the keyword rules apply in the order coding words, media
    words, size words, speed words, and the result is none when no keyword
    occurs either.  A pattern matches when some piece of the text belongs
    to its language; a keyword rule fires when the text mentions one of
    its words, letter case ignored. *)
Theorem extractWorkloadType_order (text : string) :
  (∀ earlier type patterns later,
     WORKLOAD_TYPE_PATTERNS = (earlier ++ (type, patterns) :: later)%list ->
     (∀ ty ps, (ty, ps) ∈ earlier -> ∀ p, p ∈ ps -> test p text = false) ->
     (∃ p, p ∈ patterns ∧ test p text = true) ->
     extractWorkloadType text = Some type) ∧
  ((∀ ty ps, (ty, ps) ∈ WORKLOAD_TYPE_PATTERNS -> ∀ p, p ∈ ps -> test p text = false) ->
   extractWorkloadType text =
     if test codingKeywords text then Some "ollama_webui:coder"
     else if test mediaKeywords text then Some "media:fast"
     else if test sizeKeywords text then Some "ollama_webui:large"
     else if test speedKeywords text then Some "ollama_webui:fast"
     else None) ∧
  (∀ p, test p text = true ↔ ∃ s cap, occurs p text s cap) ∧
  (test codingKeywords text = true ↔ mentionsAny text codingWords) ∧
  (test mediaKeywords text = true ↔ mentionsAny text mediaWords) ∧
  (test sizeKeywords text = true ↔ mentionsAny text sizeWords) ∧
  (test speedKeywords text = true ↔ mentionsAny text speedWords) ∧
  map fst WORKLOAD_TYPE_PATTERNS =
    ["media:fast"; "ollama_webui:coder"; "ollama_webui:fast"; "ollama_webui:large";
     "llama_webui:coder"] ∧
  map toString [codingKeywords; mediaKeywords; sizeKeywords; speedKeywords] =
    [ "/coder|coding|code|developer|development/i";
      "/media|video|audio|streaming/i";
      "/large|big|powerful/i";
      "/fast|quick|speed/i" ].
Proof.
  split; [| split; [| split; [| split; [| split; [| split; [| split; [| split]]]]]]].
  - intros earlier type patterns later Hsplit He (p & Hp & Ht).
    assert (Hne : Str.truthy text = true).
    { destruct text; [| reflexivity].
      rewrite (table_rejects_empty_text type patterns p) in Ht; [discriminate | | exact Hp].
      rewrite Hsplit. apply elem_of_app. right. left. }
    unfold extractWorkloadType. rewrite Hne. cbn [negb].
    rewrite Hsplit, (directMatch_first earlier type patterns later text He); eauto.
  - intros H. unfold extractWorkloadType.
    destruct text as [| c text]; [vm_compute; reflexivity |].
    cbn [Str.truthy negb]. rewrite (directMatch_none _ _ H). reflexivity.
  - intros p. apply test_true_iff.
  - apply (test_lit_alternatives codingWords). discriminate.
  - apply (test_lit_alternatives mediaWords). discriminate.
  - apply (test_lit_alternatives sizeWords). discriminate.
  - apply (test_lit_alternatives speedWords). discriminate.
  - reflexivity.
  - vm_compute. reflexivity.
Qed.

(** ** Running an extractor on its own result *)

Lemma pretty_N_char_digit x : Char.is_digit (pretty_N_char x) = true.
Proof.
  unfold pretty_N_char.
  destruct x as [| [[[[| |] | [| |] |] | [[| |] | [| |] |] |] | [[[| |] | [| |] |] | [[| |] | [| |] |] |] |]];
    reflexivity.
Qed.

Lemma pretty_N_go_digits x s :
  all_chars Char.is_digit s = true -> all_chars Char.is_digit (pretty_N_go x s) = true.
Proof.
  revert s. induction (N.lt_wf_0 x) as [x _ IH]. intros s Hs.
  destruct (N.eq_dec x 0%N) as [-> | Hx].
  - rewrite pretty_N_go_0. exact Hs.
  - rewrite pretty_N_go_step by lia. apply IH.
    + apply N.div_lt; lia.
    + cbn [all_chars]. rewrite pretty_N_char_digit. exact Hs.
Qed.

(** *** The text of a number *)

Lemma digit_no_keyword_letter c : Char.is_digit c = true -> no_keyword_letter c = true.
Proof. destruct c as [[] [] [] [] [] [] [] []]; vm_compute; congruence. Qed.

Lemma keyword_free_app u v :
  all_chars no_keyword_letter u = true -> keyword_free v = true ->
  keyword_free (u +:+ v) = true.
Proof.
  intros Hu Hv. induction u as [| c u IH]; [exact Hv |].
  cbn [all_chars] in Hu. apply andb_prop in Hu as [Hc Hu].
  cbn [append keyword_free]. rewrite Hc, (IH Hu). reflexivity.
Qed.

Lemma keyword_free_plain u : all_chars no_keyword_letter u = true -> keyword_free u = true.
Proof.
  intros Hu. induction u as [| c u IH]; [reflexivity |].
  cbn [all_chars] in Hu. apply andb_prop in Hu as [Hc Hu].
  cbn [keyword_free]. rewrite Hc, (IH Hu). reflexivity.
Qed.

Lemma all_chars_substring p s : ∀ i n,
  all_chars p s = true -> all_chars p (substring i n s) = true.
Proof.
  induction s as [| c s IH]; intros i n H.
  - destruct i, n; reflexivity.
  - cbn [all_chars] in H. apply andb_prop in H as [Hc H].
    destruct i as [| i]; [destruct n as [| n] |]; cbn [substring all_chars];
      [reflexivity | rewrite Hc; apply IH, H | apply IH, H].
Qed.

Lemma zeros_digits n : all_chars Char.is_digit (zeros n) = true.
Proof.
  unfold zeros. induction (Z.to_nat n) as [| k IH]; [reflexivity |].
  cbn [replicate String.concat]. destruct (replicate k "0"); [reflexivity |].
  rewrite !all_chars_app, IH. reflexivity.
Qed.

Lemma pretty_N_digits (n : N) : all_chars Char.is_digit (pretty n) = true.
Proof.
  unfold pretty, pretty_N. destruct (decide (n = 0%N)); [reflexivity |].
  apply pretty_N_go_digits. reflexivity.
Qed.

Lemma digits_no_keyword_letter s :
  all_chars Char.is_digit s = true -> all_chars no_keyword_letter s = true.
Proof.
  induction s as [| c s IH]; [reflexivity |]. cbn [all_chars]. intros H.
  apply andb_prop in H as [Hc H]. rewrite (digit_no_keyword_letter c Hc), (IH H). reflexivity.
Qed.

Lemma pretty_Z_no_keyword_letter (z : Z) : all_chars no_keyword_letter (pretty z) = true.
Proof.
  unfold pretty, pretty_Z. destruct z as [| p | p]; [reflexivity | |].
  - apply digits_no_keyword_letter, (pretty_N_digits (N.pos p)).
  - rewrite all_chars_app. apply andb_true_intro. split; [reflexivity |].
    apply digits_no_keyword_letter, (pretty_N_digits (N.pos p)).
Qed.

Lemma exponent_keyword_free (negative : bool) (e : Z) :
  keyword_free ("e" +:+ (if negative then "-" else "+") +:+ pretty e) = true.
Proof.
  pose proof (keyword_free_plain _ (pretty_Z_no_keyword_letter e)) as H.
  destruct negative; cbn [append keyword_free Str.startsWith]; rewrite H; reflexivity.
Qed.

Lemma decimal_text_keyword_free ds n :
  all_chars no_keyword_letter ds = true -> keyword_free (decimal_text ds n) = true.
Proof.
  intros Hds. unfold decimal_text.
  pose proof (fun i k => all_chars_substring no_keyword_letter ds i k Hds) as Hsub.
  pose proof (fun k => digits_no_keyword_letter _ (zeros_digits k)) as Hz.
  repeat match goal with |- context [if ?b then _ else _] => destruct b end;
    try (apply keyword_free_plain; rewrite ?all_chars_app, ?Hsub, ?Hds, ?Hz; reflexivity);
    (apply keyword_free_app; [first [exact Hds | apply Hsub] |]);
    try (apply keyword_free_app; [reflexivity |]);
    try (apply keyword_free_app; [apply Hsub |]);
    first [apply (exponent_keyword_free true) | apply (exponent_keyword_free false)].
Qed.

Lemma num_toString_keyword_free x : keyword_free (num_toString x) = true.
Proof.
  assert (H : ∀ z d x', keyword_free
            (if (z =? 0)%Z then "0"
             else match shortest_digits 16 x' (Z.abs z) d (decimalExponent (Z.abs z) d) 1 with
                  | Some (s, n) => (if (z <? 0)%Z then "-" else "") +:+ decimal_text (pretty s) n
                  | None => (if (z <? 0)%Z then "-" else "") +:+ pretty (Z.abs z / d)%Z
                  end) = true).
  { intros z d x'. destruct (z =? 0)%Z; [reflexivity |].
    destruct (shortest_digits _ _ _ _ _ _) as [[s n] |];
      (apply keyword_free_app; [destruct (z <? 0)%Z; reflexivity |]).
    - apply decimal_text_keyword_free, pretty_Z_no_keyword_letter.
    - apply keyword_free_plain, pretty_Z_no_keyword_letter. }
  destruct x as [z | | [] | m e]; [apply H | reflexivity | reflexivity | reflexivity | apply H].
Qed.

(** The capture of a match does not depend on the index at which the
    search is said to start. *)
Lemma m_map {A B} (f : A -> B) (r : regex) :
  ∀ s cap (k : string -> string -> option string -> option A)
    (k' : string -> string -> option string -> option B),
  (∀ a b c, k' a b c = f <$> k a b c) -> m r s cap k' = f <$> m r s cap k.
Proof.
  assert (Hstar : ∀ p s (k : string -> string -> option A) (k' : string -> string -> option B),
             (∀ a b, k' a b = f <$> k a b) -> star_m p s k' = f <$> star_m p s k).
  { intros p s. induction s as [| c s IH]; intros k k' H; cbn; [apply H |].
    destruct (p c); [| apply H].
    rewrite (IH (fun mt rest => k (String c mt) rest) (fun mt rest => k' (String c mt) rest))
      by (intros; apply H).
    destruct (star_m p s _); [reflexivity | apply H]. }
  assert (Hrep : ∀ p n s (k : string -> string -> option A) (k' : string -> string -> option B),
             (∀ a b, k' a b = f <$> k a b) -> rep_m p n s k' = f <$> rep_m p n s k).
  { intros p n. induction n as [| n IH]; intros s k k' H; cbn; [apply H |].
    destruct s as [| c s]; [reflexivity |]. destruct (p c); [| reflexivity].
    apply IH. intros; apply H. }
  induction r as [l | a | a | a | a n | r IH | i r IH | r1 IH1 r2 IH2 | r1 IH1 r2 IH2];
    intros s cap k k' H; cbn [m].
  - destruct (match_lit l s) as [[mt rest] |]; [apply H | reflexivity].
  - destruct s as [| c s]; [reflexivity |]. destruct (atom_matches a c); [apply H | reflexivity].
  - apply Hstar. intros; apply H.
  - destruct s as [| c s]; [reflexivity |]. destruct (atom_matches a c); [| reflexivity].
    apply Hstar. intros; apply H.
  - apply Hrep. intros; apply H.
  - rewrite (IH s cap k k' H). destruct (m r s cap k); [reflexivity | apply H].
  - apply IH. intros; apply H.
  - apply IH1. intros a b c. apply IH2. intros; apply H.
  - rewrite (IH1 s cap k k' H). destruct (m r1 s cap k); [reflexivity |]. apply IH2, H.
Qed.

Lemma capture1_exec_from r s i j :
  capture1 (exec_from r s i) = capture1 (exec_from r s j).
Proof.
  revert i j. induction s as [| c s IH]; intros i j; cbn [exec_from]; unfold match_at.
  - rewrite (m_map (fun res => {| index := j; matched := matched res; group1 := group1 res |})
               r "" None
               (fun mt _ cap => Some {| index := i; matched := mt; group1 := cap |})
               (fun mt _ cap => Some {| index := j; matched := mt; group1 := cap |}))
      by reflexivity.
    destruct (m r "" None _) as [[? ? ?] |]; reflexivity.
  - rewrite (m_map (fun res => {| index := j; matched := matched res; group1 := group1 res |})
               r (String c s) None
               (fun mt _ cap => Some {| index := i; matched := mt; group1 := cap |})
               (fun mt _ cap => Some {| index := j; matched := mt; group1 := cap |}))
      by reflexivity.
    destruct (m r (String c s) None _) as [[? ? ?] |]; [reflexivity | apply IH].
Qed.

(** Neither keyword can begin at a character of a keyword-free text. *)
Lemma keyword_cannot_begin l c s t :
  l = "expire" ∨ l = "for " ->
  no_keyword_letter c
  || Str.startsWith "e+" (String c s) || Str.startsWith "e-" (String c s)
  || Str.startsWith "fi" (String c s) = true ->
  match_lit l (String c (s +:+ t)) = None.
Proof.
  intros Hl H. destruct (no_keyword_letter c) eqn:N.
  - clear H. destruct Hl as [-> | ->];
      destruct c as [[] [] [] [] [] [] [] []]; try discriminate N; reflexivity.
  - destruct c as [[] [] [] [] [] [] [] []]; try discriminate N; try discriminate H;
      (destruct s as [| c' s]; [discriminate H |]);
      destruct c' as [[] [] [] [] [] [] [] []]; try discriminate H;
      destruct Hl as [-> | ->]; reflexivity.
Qed.

(** A keyword-free text put in front of a text does not change what a
    pattern that begins with a keyword captures there. *)
Lemma capture1_skip_keyword_free r l p t :
  l = "expire" ∨ l = "for " -> keyword_free p = true ->
  capture1 (exec (Seq (Lit l) r) (p +:+ t)) = capture1 (exec (Seq (Lit l) r) t).
Proof.
  intros Hl. unfold exec. generalize 0 at 1. induction p as [| c p IH]; intros i Hp.
  - apply capture1_exec_from.
  - cbn [keyword_free] in Hp. apply andb_prop in Hp as [E Hp].
    cbn [append exec_from]. unfold match_at at 1. cbn [m].
    rewrite (keyword_cannot_begin l c p t Hl E). apply IH, Hp.
Qed.

Lemma app_same_length (a b x y : string) :
  a +:+ x = b +:+ y -> String.length a = String.length b -> a = b ∧ x = y.
Proof.
  revert b. induction a as [| c a IH]; intros [| c' b] H L; cbn in *; try discriminate.
  - auto.
  - injection H as -> H. injection L as L. destruct (IH _ H L) as [-> ->]. auto.
Qed.

Lemma is_uuid_length g : is_uuid g -> String.length g = 36.
Proof.
  intros (a & b & c & d & e & -> & [La _] & [Lb _] & [Lc _] & [Ld _] & [Le _]).
  rewrite !length_append, La, Lb, Lc, Ld, Le. reflexivity.
Qed.

Lemma uuid_match s cap :
  denote uuidPattern None s cap -> cap = Some s ∧ s ≠ "" ∧ is_uuid s.
Proof.
  intros Hd.
  destruct (idPatterns_shape [] uuidPattern (comput3DomainPattern :: workloadPatterns)
              s cap eq_refl Hd) as (g' & -> & Hne & [-> Hu]).
  auto.
Qed.

(** A UUID found in a text is found again, and first, when it is put in
    front of that text. *)
Lemma uuid_found_again t res :
  exec uuidPattern t = Some res ->
  ∃ g, capture1 (exec uuidPattern t) = Some g ∧
       capture1 (exec uuidPattern (g +:+ t)) = Some g ∧ g ≠ "".
Proof.
  intros E. pose proof (exec_sound _ _ _ E) as (pre & post & _ & Hd).
  destruct (uuid_match _ _ Hd) as (Hcap & Hne & Hu).
  exists (matched res). split; [| split; [| exact Hne]].
  - rewrite E. unfold capture1. destruct res as [i mt cap]; cbn in *. subst cap.
    apply truthy_ne in Hne. rewrite Hne. reflexivity.
  - set (g := matched res) in *.
    assert (Hsome : is_Some (match_at uuidPattern (g +:+ t) 0)).
    { unfold match_at. eapply m_complete; [exact Hd | eexists; reflexivity]. }
    destruct Hsome as [res' E'].
    assert (Hexec : exec uuidPattern (g +:+ t) = Some res').
    { unfold exec. destruct (g +:+ t); cbn [exec_from]; rewrite E'; reflexivity. }
    rewrite Hexec. unfold match_at in E'.
    apply m_sound in E' as (mt & rest & cap' & Hs & Hd' & Hk).
    injection Hk as <-. cbn [capture1].
    destruct (uuid_match _ _ Hd') as (-> & Hne' & Hu').
    destruct (app_same_length g mt t rest Hs) as [<- _].
    { rewrite (is_uuid_length _ Hu), (is_uuid_length _ Hu'). reflexivity. }
    apply truthy_ne in Hne. rewrite Hne. reflexivity.
Qed.

(** *** Pieces of a text around a character that a match cannot contain *)

Lemma prefix_before_bad P s : ∀ a x b post,
  a +:+ String x b = s +:+ post -> all_chars P s = true -> P x = false ->
  ∃ u, a = s +:+ u.
Proof.
  induction s as [| c s IH]; intros a x b post H Hs Hx.
  - exists a. reflexivity.
  - cbn in Hs. apply andb_prop in Hs as [Hc Hs].
    destruct a as [| c' a]; cbn in H; injection H as -> H.
    + congruence.
    + destruct (IH _ _ _ _ H Hs Hx) as [u ->]. exists u. reflexivity.
Qed.

Lemma occurrence_avoids P a : ∀ x b pre s post,
  a +:+ String x b = pre +:+ s +:+ post -> all_chars P s = true -> P x = false ->
  (∃ u, a = pre +:+ s +:+ u) ∨ (∃ u, b = u +:+ s +:+ post).
Proof.
  induction a as [| c a IH]; intros x b pre s post H Hs Hx.
  - destruct pre as [| c' pre]; cbn in H.
    + destruct s as [| c s]; [left; exists ""; reflexivity |].
      cbn in H, Hs. injection H as -> H. apply andb_prop in Hs as [Hc _]. congruence.
    + injection H as -> H. right. exists pre. exact H.
  - destruct pre as [| c' pre].
    + cbn [append] in H |- *. left.
      apply (prefix_before_bad P s (String c a) x b post H Hs Hx).
    + cbn in H. injection H as -> H.
      destruct (IH _ _ _ _ _ H Hs Hx) as [[u ->] | [u ->]].
      * left. exists u. reflexivity.
      * right. exists u. reflexivity.
Qed.

Lemma run_unique P tok : ∀ tok' x r y r',
  tok +:+ String x r = tok' +:+ String y r' ->
  all_chars P tok = true -> all_chars P tok' = true -> P x = false -> P y = false ->
  tok = tok' ∧ String x r = String y r'.
Proof.
  induction tok as [| c tok IH]; intros [| c' tok'] x r y r' H Ht Ht' Hx Hy; cbn in *.
  - auto.
  - injection H as -> H. apply andb_prop in Ht' as [Hc _]. congruence.
  - injection H as -> H. apply andb_prop in Ht as [Hc _]. congruence.
  - injection H as -> H. apply andb_prop in Ht as [_ Ht]. apply andb_prop in Ht' as [_ Ht'].
    destruct (IH _ _ _ _ _ H Ht Ht' Hx Hy) as [-> E]. auto.
Qed.

Lemma all_chars_weaken (p q : ascii -> bool) s :
  (∀ c, p c = true -> q c = true) -> all_chars p s = true -> all_chars q s = true.
Proof.
  intros H. induction s as [| c s IH]; cbn; [reflexivity |].
  intros E. apply andb_prop in E as [Ec Es]. rewrite (H c Ec), (IH Es). reflexivity.
Qed.

Lemma is_uuid_chars s : is_uuid s -> all_chars hex_or_hyphen s = true.
Proof.
  intros (a & b & c & d & e & -> & [_ Ha] & [_ Hb] & [_ Hc] & [_ Hd] & [_ He]).
  assert (W : ∀ x, all_chars Char.is_hex x = true -> all_chars hex_or_hyphen x = true).
  { intros x. apply all_chars_weaken. intros ch E. unfold hex_or_hyphen. rewrite E.
    reflexivity. }
  rewrite !all_chars_app, (W a Ha), (W b Hb), (W c Hc), (W d Hd), (W e He). reflexivity.
Qed.

Lemma canon_i_not_hex c : Char.canon_eq "i" c = true -> hex_or_hyphen c = false.
Proof. destruct c as [[] [] [] [] [] [] [] []]; vm_compute; congruence. Qed.

Lemma canon_dot c : Char.canon_eq "." c = true -> c = "."%char.
Proof. destruct c as [[] [] [] [] [] [] [] []]; vm_compute; congruence. Qed.

(** The fixed suffix of a domain identifier: eleven characters, the first
    a dot and the last an i of either case. *)
Lemma domain_suffix suffix :
  lit_matches ".comput3.ai" suffix = true ->
  String.length suffix = 11 ∧
  (∃ rest, suffix = String "." rest) ∧
  (∃ front x, suffix = front +:+ String x "" ∧ hex_or_hyphen x = false).
Proof.
  intros H.
  do 11 (destruct suffix as [| ? suffix];
           [cbn in H; rewrite ?andb_false_r in H; discriminate H |]).
  destruct suffix; [| cbn in H; rewrite !andb_false_r in H; discriminate H].
  cbn in H. repeat (apply andb_prop in H as [? H]).
  split; [reflexivity |]. split.
  - match goal with E : Char.canon_eq "." ?c = true |- ∃ rest, String ?c _ = _ =>
      rewrite (canon_dot c E) end.
    eexists. reflexivity.
  - match goal with E : Char.canon_eq "i" ?c = true |- _ =>
      pose proof (canon_i_not_hex c E) as Hi end.
    eexists (String _ (String _ (String _ (String _ (String _ (String _ (String _
              (String _ (String _ (String _ "")))))))))), _.
    split; [reflexivity | exact Hi].
Qed.

Lemma domain_match s cap :
  denote comput3DomainPattern None s cap -> cap = Some s ∧ s ≠ "" ∧ is_domain s.
Proof.
  intros Hd.
  destruct (idPatterns_shape [uuidPattern] comput3DomainPattern workloadPatterns
              s cap eq_refl Hd) as (g' & -> & Hne & [-> Hu]).
  auto.
Qed.

Lemma token_char_dot : token_char "." = false.
Proof. reflexivity. Qed.

(** A domain identifier found in a text that holds no UUID is found again,
    and first, when it is put in front of that text. *)
Lemma domain_found_again t res :
  exec uuidPattern t = None ->
  exec comput3DomainPattern t = Some res ->
  ∃ g, capture1 (exec comput3DomainPattern t) = Some g ∧ g ≠ "" ∧
       exec uuidPattern (g +:+ t) = None ∧
       capture1 (exec comput3DomainPattern (g +:+ t)) = Some g.
Proof.
  intros Hu E. pose proof (exec_sound _ _ _ E) as (pre & post & Ht & Hd).
  destruct res as [i g cap]. cbn [matched group1] in *.
  destruct (domain_match _ _ Hd) as (-> & Hne & Hdom).
  exists g.
  assert (Htr : Str.truthy g = true) by (apply truthy_ne, Hne).
  split; [| split; [exact Hne | split]].
  - rewrite E. cbn [capture1]. rewrite Htr. reflexivity.
  - destruct Hdom as (token & suffix & Hg & [Htok Hall] & Hsuf).
    destruct (domain_suffix _ Hsuf) as (_ & _ & front & x & -> & Hx).
    destruct (exec uuidPattern (g +:+ t)) as [res' |] eqn:E'; [exfalso | reflexivity].
    pose proof (exec_sound _ _ _ E') as (pre' & post' & Ht' & Hd').
    destruct (uuid_match _ _ Hd') as (_ & _ & Hs).
    apply is_uuid_chars in Hs.
    assert (Hg' : g +:+ t = (token +:+ front) +:+ String x t).
    { rewrite Hg, !append_assoc. reflexivity. }
    rewrite Hg' in Ht'.
    destruct (occurrence_avoids hex_or_hyphen _ _ _ _ _ _ Ht' Hs Hx) as [[u Hin] | [u Hin]].
    + apply (proj1 (exec_none_iff uuidPattern t) Hu (matched res') (group1 res')).
      exists (pre +:+ pre'), (u +:+ String x "" +:+ post). split; [| exact Hd'].
      rewrite Ht, Hg, <- (append_assoc token front), Hin, !append_assoc. reflexivity.
    + apply (proj1 (exec_none_iff uuidPattern t) Hu (matched res') (group1 res')).
      exists u, post'. split; [exact Hin | exact Hd'].
  - assert (Hsome : is_Some (match_at comput3DomainPattern (g +:+ t) 0)).
    { unfold match_at. eapply m_complete; [exact Hd | eexists; reflexivity]. }
    destruct Hsome as [res' E'].
    assert (Hexec : exec comput3DomainPattern (g +:+ t) = Some res').
    { unfold exec. destruct (g +:+ t); cbn [exec_from]; rewrite E'; reflexivity. }
    rewrite Hexec. unfold match_at in E'.
    apply m_sound in E' as (mt & rest & cap' & Hs & Hd' & Hk).
    injection Hk as <-. cbn [capture1].
    destruct (domain_match _ _ Hd') as (-> & Hne' & Hdom').
    destruct Hdom as (token & suffix & Hg & [Htok Hall] & Hsuf).
    destruct Hdom' as (token' & suffix' & Hmt & [Htok' Hall'] & Hsuf').
    destruct (domain_suffix _ Hsuf) as (Hlen & [r Hr] & _).
    destruct (domain_suffix _ Hsuf') as (Hlen' & [r' Hr'] & _).
    assert (Hs' : token +:+ String "." (r +:+ t) = token' +:+ String "." (r' +:+ rest)).
    { change (String "." (r +:+ t)) with (String "." r +:+ t).
      change (String "." (r' +:+ rest)) with (String "." r' +:+ rest).
      rewrite <- Hr, <- Hr', <- !append_assoc, <- Hg, <- Hmt. exact Hs. }
    destruct (run_unique token_char _ _ _ _ _ _ Hs' Hall Hall' token_char_dot token_char_dot)
      as [Etok Hrest].
    injection Hrest as Hrest.
    assert (Er : r = r').
    { apply (app_same_length r r' t rest Hrest).
      rewrite Hr in Hlen. rewrite Hr' in Hlen'. cbn in Hlen, Hlen'. congruence. }
    assert (Emt : mt = g).
    { rewrite Hmt, Hg, Hr, Hr', Etok, Er. reflexivity. }
    rewrite Emt, Htr. reflexivity.
Qed.

(** *** The type ollama_webui:coder in front of a text *)

Lemma exec_from_any_index r t i j :
  exec_from r t i = None -> exec_from r t j = None.
Proof.
  intros E. destruct (exec_from r t j) as [res |] eqn:E'; [| reflexivity].
  destruct (exec_from_complete r t _ _ i (exec_from_sound _ _ _ _ E')) as [res' E''].
  congruence.
Qed.

Lemma coder_tag_hides_no_media p t :
  p ∈ [ Lit "media:fast"; Lit "media fast"; Lit "fast media";
        seq [Lit "media"; Star ADot; Lit "fast"] ] ->
  test p t = false -> test p ("ollama_webui:coder" +:+ t) = false.
Proof.
  intros Hp Ht. unfold test in *.
  destruct (exec p t) eqn:E; [discriminate Ht |]. unfold exec in *.
  assert (E' : exec_from p ("ollama_webui:coder" +:+ t) 0 = exec_from p t 18).
  { repeat (apply elem_of_cons in Hp as [-> | Hp]); [.. | apply elem_of_nil in Hp as []];
      reflexivity. }
  rewrite E', (exec_from_any_index p t 0 18 E). reflexivity.
Qed.

Lemma test_lit_prefix l t : lit_matches l l = true -> test (Lit l) (l +:+ t) = true.
Proof.
  intros H. apply test_true_iff. exists l, None, "", t.
  split; [reflexivity |]. cbn. auto.
Qed.

(** C8 (as stated) fails for each of the three extractors.  The type of
    "coder ollama fast" is ollama_webui:fast, and with that result in front
    it is ollama_webui:coder; "5 minutes" lasts 5 minutes and "55 minutes"
    lasts 55; the identifier of "wrk_abc" is wrk_abc and that of
    "wrk_abcwrk_abc" is wrk_abcwrk. *)
Lemma extractors_not_idempotent :
  ¬ typeIdempotent ∧ ¬ expirationIdempotent ∧ ¬ idIdempotent.
Proof.
  split; [| split].
  - intros H. specialize (H "coder ollama fast" "ollama_webui:fast" eq_refl).
    vm_compute in H. discriminate H.
  - intros H. specialize (H "5 minutes" (Num 5) eq_refl).
    vm_compute in H. discriminate H.
  - intros H. specialize (H "wrk_abc" "wrk_abc" eq_refl).
    vm_compute in H. discriminate H.
Qed.

(** C8 (as amended).  Putting the result of an extractor in front of its
    text leaves the result unchanged in these cases: the workload type
    when it is "media:fast" or "ollama_webui:coder", the first two declared
    types; the duration when it was found by one of the first two
    patterns, "expires in N minutes" and "for N minutes", which begin with
    a keyword; the workload identifier when it was found by one of the
    first two patterns, the UUID and the ".comput3.ai" domain.  For each
    other type, each other duration pattern, the default duration and each
    other identifier pattern there is a text on which the result changes. *)
Theorem extractors_stable_results (t : string) :
  (∀ r, r = "media:fast" ∨ r = "ollama_webui:coder" ->
        extractWorkloadType t = Some r -> extractWorkloadType (r +:+ t) = Some r) ∧
  (∀ earlier p later res,
     expirationPatterns = (earlier ++ p :: later)%list ->
     (List.length earlier < 2)%nat ->
     (∀ q, q ∈ earlier -> exec q t = None) ->
     exec p t = Some res ->
     extractExpirationTime
       (num_toString (extractExpirationTime t (Num 10)) +:+ t) (Num 10) =
     extractExpirationTime t (Num 10)) ∧
  (∀ earlier p later res,
     idPatterns = (earlier ++ p :: later)%list ->
     (List.length earlier < 2)%nat ->
     (∀ q, q ∈ earlier -> exec q t = None) ->
     exec p t = Some res ->
     ∃ g, extractWorkloadId t = Some g ∧ extractWorkloadId (g +:+ t) = Some g) ∧
  (extractWorkloadType "coder ollama fast" = Some "ollama_webui:fast" ∧
   extractWorkloadType ("ollama_webui:fast" +:+ "coder ollama fast") =
     Some "ollama_webui:coder") ∧
  (extractWorkloadType "coder ollama large" = Some "ollama_webui:large" ∧
   extractWorkloadType ("ollama_webui:large" +:+ "coder ollama large") =
     Some "ollama_webui:coder") ∧
  (extractWorkloadType (" workload" +:+ newline +:+ "llama coder") =
     Some "llama_webui:coder" ∧
   extractWorkloadType ("llama_webui:coder" +:+ " workload" +:+ newline +:+ "llama coder") =
     Some "ollama_webui:coder") ∧
  (extractExpirationTime "5 min expir" (Num 10) = Num 5 ∧
   extractExpirationTime (num_toString (Num 5) +:+ "5 min expir") (Num 10) = Num 55) ∧
  (extractExpirationTime "5 minutes" (Num 10) = Num 5 ∧
   extractExpirationTime (num_toString (Num 5) +:+ "5 minutes") (Num 10) = Num 55) ∧
  (extractExpirationTime "2 hours" (Num 10) = Num 120 ∧
   extractExpirationTime (num_toString (Num 120) +:+ "2 hours") (Num 10) = Num 72120) ∧
  (extractExpirationTime " hours" (Num 10) = Num 10 ∧
   extractExpirationTime (num_toString (Num 10) +:+ " hours") (Num 10) = Num 600) ∧
  (extractWorkloadId "wrk_abc" = Some "wrk_abc" ∧
   extractWorkloadId ("wrk_abc" +:+ "wrk_abc") = Some "wrk_abcwrk") ∧
  (extractWorkloadId "_x workload wrk" = Some "wrk" ∧
   extractWorkloadId ("wrk" +:+ "_x workload wrk") = Some "wrk_x") ∧
  (extractWorkloadId "a-b-c-d" = Some "a-b-c-d" ∧
   extractWorkloadId ("a-b-c-d" +:+ "a-b-c-d") = Some "a-b-c-da").
Proof.
  split; [| split; [| split; [| repeat split; vm_compute; reflexivity]]].
  - intros r [-> | ->] H.
    + unfold extractWorkloadType. cbn [append Str.truthy negb].
      unfold WORKLOAD_TYPE_PATTERNS. cbn [directMatch anyPatternMatches].
      pose proof (test_lit_prefix "media:fast" t eq_refl) as E.
      cbn [append] in E. rewrite E. reflexivity.
    + assert (Hm : ∀ p, p ∈ [ Lit "media:fast"; Lit "media fast"; Lit "fast media";
                              seq [Lit "media"; Star ADot; Lit "fast"] ] ->
                        test p t = false).
      { intros p Hp. destruct (test p t) eqn:E; [| reflexivity]. exfalso.
        unfold extractWorkloadType in H. destruct t as [| c t]; [discriminate H |].
        cbn [Str.truthy negb] in H. unfold WORKLOAD_TYPE_PATTERNS in H.
        cbn [directMatch] in H.
        rewrite (proj2 (anyPatternMatches_true _ _)) in H by eauto. discriminate H. }
      unfold extractWorkloadType. cbn [append Str.truthy negb].
      unfold WORKLOAD_TYPE_PATTERNS. cbn [directMatch].
      rewrite (anyPatternMatches_false _ ("ollama_webui:coder" +:+ t))
        by (intros p Hp; apply coder_tag_hides_no_media; auto).
      cbn [anyPatternMatches].
      pose proof (test_lit_prefix "ollama_webui:coder" t eq_refl) as E.
      cbn [append] in E. rewrite E. reflexivity.
  - intros earlier p later res Hsplit Hlen Hq E.
    assert (Hp : p ∈ expirationPatterns).
    { rewrite Hsplit. apply elem_of_app. right. left. }
    assert (Ht : Str.truthy t = true).
    { destruct t; [| reflexivity].
      rewrite (expirationPatterns_empty_text p Hp) in E. discriminate E. }
    destruct (capture1_exec _ _ _ (expirationPatterns_capturing p Hp) E)
      as (g & Hg & Hne & Hcap & (pre & post & _ & Hd)).
    destruct (expirationPatterns_capture p _ _ Hp Hd) as (g' & Hg' & Hdig).
    injection Hg' as <-.
    assert (Hr : extractExpirationTime t (Num 10) = double_of (decimal g)).
    { unfold extractExpirationTime. rewrite Ht. cbn [negb].
      unfold expirationPatterns, minutesTail in Hsplit |- *.
      destruct earlier as [| e1 [| e2 earlier]]; cbn [List.length] in Hlen; [| | lia];
        cbn [app seq] in Hsplit |- *; injection Hsplit as; subst; cbn [expirationLoop].
      - cbn [seq app] in Hcap. rewrite Hcap, (parseInt_digits g Hdig). reflexivity.
      - rewrite (capture1_none _ t) by (apply Hq; left).
        cbn [seq app] in Hcap. rewrite Hcap, (parseInt_digits g Hdig). reflexivity. }
    rewrite Hr.
    pose proof (num_toString_keyword_free (double_of (decimal g))) as Hds.
    set (ds := num_toString (double_of (decimal g))) in *.
    unfold extractExpirationTime.
    assert (Ht' : Str.truthy (ds +:+ t) = true).
    { destruct ds; [exact Ht | reflexivity]. }
    rewrite Ht'. cbn [negb].
    unfold expirationPatterns, minutesTail in Hsplit |- *.
    destruct earlier as [| e1 [| e2 earlier]]; cbn [List.length] in Hlen; [| | lia];
      cbn [app seq] in Hsplit |- *; injection Hsplit as; subst; cbn [expirationLoop].
    + rewrite (capture1_skip_keyword_free _ "expire" ds t) by auto.
      cbn [seq app] in Hcap. rewrite Hcap, (parseInt_digits g Hdig). reflexivity.
    + rewrite (capture1_skip_keyword_free _ "expire" ds t) by auto.
      rewrite (capture1_none _ t) by (apply Hq; left).
      rewrite (capture1_skip_keyword_free _ "for " ds t) by auto.
      cbn [seq app] in Hcap. rewrite Hcap, (parseInt_digits g Hdig). reflexivity.
  - intros earlier p later res Hsplit Hlen Hq E.
    assert (Ht : Str.truthy t = true).
    { destruct t; [| reflexivity].
      rewrite (idPatterns_empty_text p) in E; [discriminate E |].
      rewrite Hsplit. apply elem_of_app. right. left. }
    unfold idPatterns in Hsplit.
    destruct earlier as [| e1 [| e2 earlier]]; cbn [List.length] in Hlen; [| | lia];
      cbn [app] in Hsplit; injection Hsplit as; subst.
    + destruct (uuid_found_again t res E) as (g & H1 & H2 & Hne).
      exists g. unfold extractWorkloadId. rewrite Ht, H1. cbn [negb].
      split; [reflexivity |].
      assert (Ht' : Str.truthy (g +:+ t) = true).
      { destruct g; [congruence | reflexivity]. }
      rewrite Ht', H2. reflexivity.
    + assert (Hu : exec uuidPattern t = None) by (apply Hq; left).
      destruct (domain_found_again t res Hu E) as (g & H1 & Hne & H2 & H3).
      exists g. unfold extractWorkloadId. rewrite Ht, Hu, H1. cbn [negb capture1].
      split; [reflexivity |].
      assert (Ht' : Str.truthy (g +:+ t) = true).
      { destruct g; [congruence | reflexivity]. }
      rewrite Ht', H2, H3. reflexivity.
Qed.

(** ** Laws of the handler monad *)

Lemma bind_ret {A B} (a : A) (f : A -> M B) : bind (ret a) f = f a.
Proof. unfold bind, ret. destruct (f a) as [t r]. reflexivity. Qed.

Lemma bind_throw {A B} (e : exn) (f : A -> M B) : bind (throw e) f = throw e.
Proof. reflexivity. Qed.

Lemma try_catch_throw {A} (e : exn) (h : exn -> M A) : try_catch (throw e) h = h e.
Proof. unfold try_catch, throw. destruct (h e) as [t r]. reflexivity. Qed.

(** ** The API key *)

Lemma client_missing (w : World) :
  truthy (apiKeySetting w) = false ->
  createComput3ApiClient w = throw (Error ERROR_MESSAGES.MISSING_API_KEY).
Proof.
  intros H. unfold createComput3ApiClient, fromRuntime, js_or. rewrite H. reflexivity.
Qed.

Lemma client_present (w : World) :
  truthy (apiKeySetting w) = true ->
  createComput3ApiClient w =
  ret {| client_baseURL := API_CONFIG.BASE_URL; client_apiKey := apiKeySetting w |}.
Proof.
  intros H. unfold createComput3ApiClient, fromRuntime, js_or. rewrite H, H. reflexivity.
Qed.

Lemma apiKey_absent (w : World) :
  truthy (getSetting w "COMPUT3AI_API_KEY") = false ->
  truthy (env_value w "COMPUT3AI_API_KEY") = false ->
  truthy (apiKeySetting w) = false.
Proof. intros H1 H2. unfold apiKeySetting, js_or. rewrite H1. exact H2. Qed.

Lemma launch_missing_key w message state :
  truthy (apiKeySetting w) = false ->
  launchWorkloadAction_handler w message state = missingKeyTurn.
Proof.
  intros H. unfold launchWorkloadAction_handler, launchHandlerBody.
  rewrite (client_missing w H), bind_throw, try_catch_throw. reflexivity.
Qed.

Lemma stop_missing_key w message state :
  truthy (apiKeySetting w) = false ->
  stopWorkloadAction_handler w message state = missingKeyTurn.
Proof.
  intros H. unfold stopWorkloadAction_handler, stopHandlerBody.
  rewrite (client_missing w H), bind_throw, try_catch_throw. reflexivity.
Qed.

Lemma list_missing_key w message :
  truthy (apiKeySetting w) = false ->
  listWorkloadsAction_handler w message = missingKeyTurn.
Proof.
  intros H. unfold listWorkloadsAction_handler, listHandlerBody.
  rewrite (client_missing w H), bind_throw, try_catch_throw. reflexivity.
Qed.

Lemma fetch_missing_key fetch format fallback w :
  truthy (apiKeySetting w) = false ->
  fetchHandler fetch format fallback w = missingKeyTurn.
Proof.
  intros H. unfold fetchHandler.
  rewrite (client_missing w H), bind_throw, try_catch_throw. reflexivity.
Qed.

(** ** Property reads *)

Lemma get_insert_eq (c : gmap string jsval) k v : get (<[k := v]> c) k = v.
Proof. unfold get. rewrite lookup_insert_eq. reflexivity. Qed.

Lemma get_insert_ne (c : gmap string jsval) k k' v : k ≠ k' -> get (<[k := v]> c) k' = get c k'.
Proof. intros H. unfold get. rewrite lookup_insert_ne by exact H. reflexivity. Qed.

Lemma launchRequest_spec w (c : gmap string jsval) :
  launchRequest w (if is_undefined (get c "expires")
                   then <["expires" := JNum (Num 10)]> c else c) =
  {[ "type" := get c "type";
     "expires" := JNum (expiresAtUnixSeconds (dateNow w) (expiresMinutes c)) ]}.
Proof.
  unfold launchRequest, expiresMinutes, expiresAtUnixSeconds.
  destruct (get c "expires") eqn:E; cbn [is_undefined]; rewrite ?E;
    try reflexivity.
  rewrite get_insert_eq, get_insert_ne by discriminate. reflexivity.
Qed.

(** ** Running a handler symbolically *)

(** A client call sends exactly one request, whatever comes back. *)
Lemma send_shape w c meth endpoint body :
  send w c meth endpoint body =
  ([EvRequest (requestConfig c meth endpoint body)],
   outcome (send w c meth endpoint body)).
Proof.
  unfold send, request, handleError.
  cbn [bind emit ret throw trace outcome fst snd app].
  destruct (axiosRequest w _) as [status body' | r]; [reflexivity |].
  destruct r as [message [[status []] | ] [] | e]; reflexivity.
Qed.

Ltac unfold_handlers :=
  unfold launchWorkloadAction_handler, launchHandlerBody, launchExtraction,
    stopWorkloadAction_handler, stopHandlerBody, stopExtraction,
    listWorkloadsAction_handler, listHandlerBody, messageTextOf, fetchHandler,
    formatWorkloadsList,
    launchWorkload, stopWorkload, listWorkloads, getWorkloadTypes, getUserBalance,
    getUserProfile, api_post, api_get, catchBlock,
    call_useModel, call_validateLaunchWorkloadFromText,
    call_validateStopWorkloadFromText, callback, deref in *.

Ltac run_step :=
  cbn [bind ret throw emit try_catch app fst snd trace outcome negb orb andb
       callbacks requests attempts omap list_omap] in *.

Ltac split_step :=
  match goal with
  | |- context [launchRequest ?w (if is_undefined (get ?c "expires") then _ else ?c)] =>
      rewrite (launchRequest_spec w c)
  | |- context [send ?w ?c ?m ?e ?b] =>
      rewrite (send_shape w c m e b);
      let r := fresh "response" in
      generalize (outcome (send w c m e b)); intros r
  | |- context [isLaunchWorkloadContent ?g] =>
      destruct (isLaunchWorkloadContent g) eqn:?
  | |- context [isStopWorkloadContent ?g] =>
      destruct (isStopWorkloadContent g) eqn:?
  | |- context [match ?x with _ => _ end] =>
      lazymatch x with
      | context [match _ with _ => _ end] => fail
      | _ => destruct x eqn:?
      end
  end.

Ltac run := run_step; repeat (split_step; run_step).

(** Case analysis on the API key, then symbolic execution of the rest. *)
Ltac run_handler w :=
  let K := fresh "K" in
  destruct (truthy (apiKeySetting w)) eqn:K;
  [ rewrite (client_present w K), bind_ret | rewrite (client_missing w K), bind_throw ];
  unfold_handlers; run.

(** ** One response per turn *)

Ltac close_answer :=
  solve [ eexists _, _; split; [reflexivity | split; reflexivity] ].

Lemma launch_answers_once w message state :
  answers_once (launchWorkloadAction_handler w message state).
Proof.
  unfold answers_once, launchWorkloadAction_handler, launchHandlerBody.
  run_handler w; close_answer.
Qed.

Lemma stop_answers_shape w message state :
  stop_answers (stopWorkloadAction_handler w message state).
Proof.
  unfold stop_answers, stopWorkloadAction_handler, stopHandlerBody, progress_notice.
  run_handler w.
  all: first
    [ solve [ eexists _, _; split; [left; split; reflexivity | split; reflexivity ] ]
    | solve [ eexists _, _; split;
                [ right; eexists _, _; split; [reflexivity | split; reflexivity ]
                | split; reflexivity ] ] ].
Qed.

(** ** Requests and extraction attempts of a turn *)








Lemma messageTextOf_cases message :
  messageTextOf message = ret (textOf message) ∨ ∃ e, messageTextOf message = throw e.
Proof.
  unfold messageTextOf, textOf, js_or.
  destruct (content message) as [c |]; [| left; reflexivity].
  destruct (get c "text") as [ | | [] | [z | | neg | m e] | [| a s] | o | l]; cbn [truthy Str.truthy];
    try (left; reflexivity); try (right; eexists; reflexivity).
  destruct (negb (z =? 0)%Z); [right; eexists; reflexivity | left; reflexivity].
Qed.

Lemma list_request_shape w message :
  requests (trace (listWorkloadsAction_handler w message)) = [] ∨
  requests (trace (listWorkloadsAction_handler w message)) =
    [requestConfig (clientOf w) "POST" ENDPOINTS.WORKLOADS
       (Some {[ "running" :=
                  if Str.includes "running" (Str.toLowerCase (textOf message))
                  then JBool true else JUndefined ]})].
Proof.
  unfold listWorkloadsAction_handler, listHandlerBody, listRequestOptions.
  destruct (truthy (apiKeySetting w)) eqn:K;
    [ rewrite (client_present w K), bind_ret
    | rewrite (client_missing w K), bind_throw; left; reflexivity ].
  destruct (messageTextOf_cases message) as [-> | [e ->]];
    [ rewrite bind_ret | rewrite bind_throw; left; reflexivity ].
  unfold_handlers. run; right; reflexivity.
Qed.

Lemma list_request_sent w message :
  validate w = true ->
  messageTextOf message = ret (textOf message) ->
  requests (trace (listWorkloadsAction_handler w message)) ≠ [].
Proof.
  unfold validate. intros K T.
  unfold listWorkloadsAction_handler, listHandlerBody.
  rewrite (client_present w K), bind_ret, T, bind_ret.
  unfold_handlers. run; discriminate.
Qed.

Lemma listWorkloads_body w c req :
  requests (trace (listWorkloads w c req)) =
  [requestConfig c "POST" ENDPOINTS.WORKLOADS
     (Some (match req with Some r => r | None => {[ "running" := JBool true ]} end))].
Proof. unfold listWorkloads, api_post. rewrite send_shape. reflexivity. Qed.

(** ** The claims about the handlers *)

Lemma messageTextOf_wellTyped message :
  textWellTyped message = true -> messageTextOf message = ret (textOf message).
Proof.
  unfold textWellTyped, messageTextOf, textOf, get.
  destruct (content message) as [c |]; [| reflexivity].
  destruct (c !! "text") as [[ | | | | [| a s] | |] |]; cbn; intros H;
    first [discriminate H | reflexivity].
Qed.

(** C1 (as amended).  Every turn of the launch handler invokes the callback
    exactly once, and the success field of its content is the value that
    the handler returns.  Every turn of the stop handler ends with exactly
    one callback that carries a success field, equal to the value that the
    handler returns; on the turns that reach the stop request that answer
    is preceded by one progress notice {processing: true, workload}, which
    carries no success field, and on all other turns it is the only
    callback.  No exception escapes either handler. *)
Theorem one_answer_per_turn (w : World) (message : Memory) (state : State) :
  answers_once (launchWorkloadAction_handler w message state) ∧
  stop_answers (stopWorkloadAction_handler w message state).
Proof.
  split; [apply launch_answers_once | apply stop_answers_shape].
Qed.

(** C1 (as stated) fails for the stop handler: on the turn
    "Stop my workload 7b69314d-c88d-47d9-920c-ae827f6b7844" with an API key
    and a service that accepts the request, the callback is invoked twice. *)
Lemma stop_turn_answers_twice :
  List.length (callbacks (trace (stopWorkloadAction_handler
            Examples.world Examples.stop_message Examples.no_state))) = 2
  ∧ ¬ answers_once (stopWorkloadAction_handler
            Examples.world Examples.stop_message Examples.no_state).
Proof.
  split; [vm_compute; reflexivity |].
  intros (c & b & H & _).
  apply (f_equal (@List.length _)) in H. vm_compute in H. discriminate H.
Qed.

Lemma expiresAtUnixSeconds_exact now minutes :
  (Z.abs (minutes * 60) <= 2 ^ 53)%Z ->
  (Z.abs (now / 1000 + minutes * 60) <= 2 ^ 53)%Z ->
  expiresAtUnixSeconds now (Num minutes) = Num (now / 1000 + minutes * 60).
Proof.
  intros H1 H2. unfold expiresAtUnixSeconds.
  rewrite num_mul_exact by exact H1. apply num_add_exact, H2.
Qed.



(** C7.  The launch validator accepts a candidate exactly when its type is
    a non-empty string and its expires is undefined or a number.  It
    rejects {type: 123}; it accepts {type: s, expires: 10} for every
    non-empty string s, "anything" included, whether or not s is one of
    the declared workload types. *)
Theorem isLaunchWorkloadContent_structural (candidate : gmap string jsval) :
  (isLaunchWorkloadContent candidate = true ↔
   (∃ s, get candidate "type" = JStr s ∧ s ≠ "") ∧
   (get candidate "expires" = JUndefined ∨ ∃ n, get candidate "expires" = JNum n)) ∧
  isLaunchWorkloadContent {[ "type" := JNum (Num 123) ]} = false ∧
  isLaunchWorkloadContent {[ "type" := JStr "anything"; "expires" := JNum (Num 10) ]} = true ∧
  directMatch WORKLOAD_TYPE_PATTERNS "anything" = None ∧
  (∀ s, s ≠ "" ->
     isLaunchWorkloadContent {[ "type" := JStr s; "expires" := JNum (Num 10) ]} = true).
Proof.
  assert (G : ∀ c : gmap string jsval,
    isLaunchWorkloadContent c = true ↔
    (∃ s, get c "type" = JStr s ∧ s ≠ "") ∧
    (get c "expires" = JUndefined ∨ ∃ n, get c "expires" = JNum n)).
  { intros c. unfold isLaunchWorkloadContent.
    destruct (get c "type") as [ | | [] | [z | | neg | m e] | [| a s] | o | l];
      destruct (get c "expires") as [ | | b | n | s' | o' | l'];
      cbn; rewrite ?orb_true_r; (split;
        [ intros H;
          first [ discriminate H
                | split; [ eexists; split; [reflexivity | discriminate]
                         | first [left; reflexivity | right; eexists; reflexivity] ] ]
        | intros [(s0 & H1 & H2) [H3 | [n0 H3]]]; congruence ]). }
  split; [apply G |].
  split; [reflexivity |].
  split; [reflexivity |].
  split; [vm_compute; reflexivity |].
  intros s Hs. apply G. split.
  - exists s. split; [reflexivity | exact Hs].
  - right. exists (Num 10). reflexivity.
Qed.

(** C9.  When the API key is set neither in the runtime settings nor in the
    process environment, validate returns false and the handler of every
    action (launch, stop, list, workload types, balance, profile) makes
    the same turn: it sends no request, asks no model, invokes the
    callback once with success: false and returns false; no exception
    escapes. *)
Theorem missing_key_fails_before_network (w : World) (message : Memory) (state : State) :
  truthy (getSetting w "COMPUT3AI_API_KEY") = false ->
  truthy (env_value w "COMPUT3AI_API_KEY") = false ->
  validate w = false ∧
  launchWorkloadAction_handler w message state = missingKeyTurn ∧
  stopWorkloadAction_handler w message state = missingKeyTurn ∧
  listWorkloadsAction_handler w message = missingKeyTurn ∧
  getWorkloadTypesAction_handler w = missingKeyTurn ∧
  getUserBalanceAction_handler w = missingKeyTurn ∧
  getUserProfileAction_handler w = missingKeyTurn ∧
  requests (trace missingKeyTurn) = [] ∧
  attempts (trace missingKeyTurn) = [] ∧
  outcome missingKeyTurn = inr false ∧
  ∃ c, callbacks (trace missingKeyTurn) = [c] ∧ c !! "success" = Some (JBool false).
Proof.
  intros H1 H2. pose proof (apiKey_absent w H1 H2) as K.
  split; [exact K |].
  split; [apply launch_missing_key, K |].
  split; [apply stop_missing_key, K |].
  split; [apply list_missing_key, K |].
  split; [apply fetch_missing_key, K |].
  split; [apply fetch_missing_key, K |].
  split; [apply fetch_missing_key, K |].
  split; [reflexivity |].
  split; [reflexivity |].
  split; [reflexivity |].
  eexists. split; reflexivity.
Qed.

Lemma missing_key_witness :
  validate Examples.world_without_key = false ∧
  launchWorkloadAction_handler Examples.world_without_key Examples.launch_message
    Examples.no_state = missingKeyTurn ∧
  stopWorkloadAction_handler Examples.world_without_key Examples.launch_message
    Examples.no_state = missingKeyTurn ∧
  listWorkloadsAction_handler Examples.world_without_key Examples.launch_message
    = missingKeyTurn ∧
  getWorkloadTypesAction_handler Examples.world_without_key = missingKeyTurn ∧
  getUserBalanceAction_handler Examples.world_without_key = missingKeyTurn ∧
  getUserProfileAction_handler Examples.world_without_key = missingKeyTurn ∧
  requests (trace missingKeyTurn) = [] ∧
  attempts (trace missingKeyTurn) = [] ∧
  outcome missingKeyTurn = inr false ∧
  ∃ c, callbacks (trace missingKeyTurn) = [c] ∧ c !! "success" = Some (JBool false).
Proof.
  apply (missing_key_fails_before_network Examples.world_without_key
           Examples.launch_message Examples.no_state); reflexivity.
Defined.

(** C10.  Every request that the list handler sends goes to the workloads
    endpoint with the body {running: true} when the lower-cased text of
    the message contains "running" and {running: undefined} otherwise, and
    with an API key and a well-typed text it sends exactly that one
    request.  The client substitutes the default body {running: true}
    when it is called without an argument, and sends the argument itself
    whenever one is passed, as the handler always does. *)
Theorem list_running_filter (w : World) (message : Memory)
    (c : Comput3ApiClient) (r : gmap string jsval) :
  (requests (trace (listWorkloadsAction_handler w message)) = [] ∨
   requests (trace (listWorkloadsAction_handler w message)) =
     [requestConfig (clientOf w) "POST" ENDPOINTS.WORKLOADS
        (Some {[ "running" :=
                   if Str.includes "running" (Str.toLowerCase (textOf message))
                   then JBool true else JUndefined ]})]) ∧
  (validate w = true -> textWellTyped message = true ->
   requests (trace (listWorkloadsAction_handler w message)) ≠ []) ∧
  requests (trace (listWorkloads w c None)) =
    [requestConfig c "POST" ENDPOINTS.WORKLOADS (Some {[ "running" := JBool true ]})] ∧
  requests (trace (listWorkloads w c (Some r))) =
    [requestConfig c "POST" ENDPOINTS.WORKLOADS (Some r)].
Proof.
  split; [apply list_request_shape |].
  split; [intros K T; apply list_request_sent;
          [exact K | apply messageTextOf_wellTyped, T] |].
  split; apply listWorkloads_body.
Qed.

(** ** The claims at sample inputs *)

Ltac no_earlier_match Hq :=
  repeat (apply elem_of_cons in Hq as [-> | Hq]);
  [.. | apply elem_of_nil in Hq as []]; vm_compute; reflexivity.

(** C4 at the text "for 2 hours": the four minutes patterns do not match,
    the hours pattern captures "2", and the result is 2 * 60. *)
Lemma extractExpirationTime_witness :
  ∃ g, is_digits g = true ∧ decimal g = 2%Z ∧
       extractExpirationTime "for 2 hours" (Num 10) = Num (decimal g * 60).
Proof.
  destruct (extractExpirationTime_first_match "for 2 hours" (Num 10)) as [H _].
  destruct (H (take 4 expirationPatterns)
              (seq [Group 1 (Plus ADigit); Star ASpace; Lit "hour"; Opt (Lit "s")])
              []
              {| index := 4; matched := "2 hours"; group1 := Some "2" |})
    as (g & Hg & Hd & _ & Hr).
  - reflexivity.
  - intros q Hq. cbn [take expirationPatterns] in Hq. no_earlier_match Hq.
  - vm_compute. reflexivity.
  - exists g. injection Hg as <-. split; [exact Hd |]. split; [reflexivity |].
    apply Hr. vm_compute. discriminate.
Defined.

(** C3 at the text "firmly-widely-proud-gpu.comput3.ai": the UUID pattern
    does not match, the domain pattern captures the whole text. *)
Lemma extractWorkloadId_witness :
  ∃ g, idShape 1 "firmly-widely-proud-gpu.comput3.ai" g ∧
       extractWorkloadId "firmly-widely-proud-gpu.comput3.ai" = Some g.
Proof.
  destruct (extractWorkloadId_first_match "firmly-widely-proud-gpu.comput3.ai") as [H _].
  destruct (H [uuidPattern] comput3DomainPattern workloadPatterns
              {| index := 0; matched := "firmly-widely-proud-gpu.comput3.ai";
                 group1 := Some "firmly-widely-proud-gpu.comput3.ai" |})
    as (g & Hg & Hs & _ & Hr).
  - reflexivity.
  - intros q Hq. no_earlier_match Hq.
  - vm_compute. reflexivity.
  - exists g. split; [exact Hs | exact Hr].
Defined.

(** C5 at the text "ollama fast": no pattern of media:fast or of
    ollama_webui:coder matches, a pattern of ollama_webui:fast does. *)
Lemma extractWorkloadType_witness :
  extractWorkloadType "ollama fast" = Some "ollama_webui:fast".
Proof.
  destruct (extractWorkloadType_order "ollama fast") as [H _].
  apply (H (take 2 WORKLOAD_TYPE_PATTERNS) "ollama_webui:fast"
           [ Lit "ollama_webui:fast"; Lit "ollama webui:fast"; Lit "ollama webui fast";
             seq [Lit "ollama"; Star ADot; Lit "fast"]; Lit "ollama fast";
             Lit "fast ollama" ]
           (drop 3 WORKLOAD_TYPE_PATTERNS)).
  - reflexivity.
  - intros ty ps He p Hp. cbn [take WORKLOAD_TYPE_PATTERNS] in He.
    repeat (apply elem_of_cons in He as [He | He]; [injection He as -> -> |]);
      [.. | apply elem_of_nil in He as []]; no_earlier_match Hp.
  - exists (Lit "ollama fast"). split; [| vm_compute; reflexivity].
    do 4 right. left.
Defined.


(** C8 (as amended) at the text "for 30 minutes" and at a text that holds
    a UUID. *)
Lemma extractors_stable_witness :
  extractExpirationTime
    (num_toString (extractExpirationTime "for 30 minutes" (Num 10)) +:+ "for 30 minutes")
    (Num 10) =
  extractExpirationTime "for 30 minutes" (Num 10) ∧
  ∃ g, extractWorkloadId "stop 7b69314d-c88d-47d9-920c-ae827f6b7844" = Some g ∧
       extractWorkloadId (g +:+ "stop 7b69314d-c88d-47d9-920c-ae827f6b7844") = Some g.
Proof.
  split.
  - destruct (extractors_stable_results "for 30 minutes") as (_ & H & _).
    apply (H (take 1 expirationPatterns)
             (seq ([Lit "for "; Group 1 (Plus ADigit)] ++ minutesTail))
             (drop 2 expirationPatterns)
             {| index := 0; matched := "for 30 minutes"; group1 := Some "30" |}).
    + reflexivity.
    + cbn. lia.
    + intros q Hq. cbn [take expirationPatterns] in Hq. no_earlier_match Hq.
    + vm_compute. reflexivity.
  - destruct (extractors_stable_results "stop 7b69314d-c88d-47d9-920c-ae827f6b7844")
      as (_ & _ & H & _).
    apply (H [] uuidPattern (comput3DomainPattern :: workloadPatterns)
             {| index := 5; matched := "7b69314d-c88d-47d9-920c-ae827f6b7844";
                group1 := Some "7b69314d-c88d-47d9-920c-ae827f6b7844" |}).
    + reflexivity.
    + cbn. lia.
    + intros q Hq. apply elem_of_nil in Hq as [].
    + vm_compute. reflexivity.
Defined.

(** C10 on the sample turn "Show me my running workloads": one request,
    with running set to true. *)
Lemma list_running_witness :
  requests (trace (listWorkloadsAction_handler Examples.world
                     (Examples.text_message "Show me my running workloads"))) =
  [requestConfig (clientOf Examples.world) "POST" ENDPOINTS.WORKLOADS
     (Some {[ "running" := JBool true ]})].
Proof.
  destruct (list_running_filter Examples.world
              (Examples.text_message "Show me my running workloads")
              (clientOf Examples.world) ∅) as ([H | H] & Hsent & _).
  - exfalso. apply Hsent; [reflexivity | reflexivity | exact H].
  - exact H.
Defined.


(** * Further properties of the plugin *)

(** ** Letter case in the extractors *)


Lemma all_ascii_complete c : In c all_ascii.
Proof.
  rewrite <- (ascii_nat_embedding c). apply in_map, in_seq.
  pose proof (nat_ascii_bounded c). lia.
Qed.

Lemma case_blind_spec p :
  case_blind p = true -> ∀ a b, Str.lower_char a = Str.lower_char b -> p a = p b.
Proof.
  unfold case_blind. rewrite forallb_forall. intros H a b E.
  pose proof (H a (all_ascii_complete a)) as Ha. pose proof (H b (all_ascii_complete b)) as Hb.
  apply Bool.eqb_prop in Ha, Hb. congruence.
Qed.

Lemma toLowerCase_app s t :
  Str.toLowerCase (s +:+ t) = Str.toLowerCase s +:+ Str.toLowerCase t.
Proof. induction s as [| c s IH]; cbn; [reflexivity | rewrite IH; reflexivity]. Qed.

Lemma same_letters_cons a s t :
  same_letters (String a s) t ->
  ∃ b t', t = String b t' ∧ Str.lower_char a = Str.lower_char b ∧ same_letters s t'.
Proof.
  unfold same_letters. destruct t as [| b t']; cbn; intros H; [discriminate H |].
  injection H as E H. eauto.
Qed.

Lemma same_letters_nil t : same_letters "" t -> t = "".
Proof. unfold same_letters. destruct t; cbn; intros H; [reflexivity | discriminate H]. Qed.


Lemma match_lit_ci l : 
  all_chars (fun x => case_blind (Char.canon_eq x)) l = true ->
  ∀ s t, same_letters s t ->
  match match_lit l s, match_lit l t with
  | Some (mt, rest), Some (mt', rest') => same_letters mt mt' ∧ same_letters rest rest'
  | None, None => True
  | _, _ => False
  end.
Proof.
  induction l as [| x l IH]; intros Hl s t R; cbn [match_lit].
  - split; [reflexivity | exact R].
  - cbn in Hl. apply andb_prop in Hl as [Hx Hl].
    destruct s as [| a s].
    + rewrite (same_letters_nil _ R). exact I.
    + destruct (same_letters_cons _ _ _ R) as (b & t' & -> & E & R').
      rewrite (case_blind_spec _ Hx a b E).
      destruct (Char.canon_eq x b); [| exact I].
      specialize (IH Hl s t' R').
      destruct (match_lit l s) as [[mt rest] |], (match_lit l t') as [[mt' rest'] |];
        try exact IH.
      destruct IH as [R1 R2]. split; [| exact R2].
      unfold same_letters in *. cbn. congruence.
Qed.

Section CaseBlind.
Context {A : Type}.

Lemma star_m_ci p :
  case_blind p = true ->
  ∀ s t (k k' : string -> string -> option A),
  same_letters s t ->
  (∀ mt mt' rest rest', same_letters mt mt' -> same_letters rest rest' ->
                        k mt rest = k' mt' rest') ->
  star_m p s k = star_m p t k'.
Proof.
  intros Hp. induction s as [| a s IH]; intros t k k' R K.
  - rewrite (same_letters_nil _ R). cbn. apply K; reflexivity.
  - destruct (same_letters_cons _ _ _ R) as (b & t' & -> & E & R').
    cbn [star_m]. rewrite (case_blind_spec _ Hp a b E).
    assert (K0 : k "" (String a s) = k' "" (String b t')) by (apply K; [reflexivity | exact R]).
    destruct (p b); [| exact K0].
    rewrite (IH t' (fun mt rest => k (String a mt) rest) (fun mt rest => k' (String b mt) rest) R').
    + rewrite K0. reflexivity.
    + intros mt mt' rest rest' R1 R2. apply K; [| exact R2].
      unfold same_letters in *. cbn. congruence.
Qed.

Lemma rep_m_ci p :
  case_blind p = true ->
  ∀ n s t (k k' : string -> string -> option A),
  same_letters s t ->
  (∀ mt mt' rest rest', same_letters mt mt' -> same_letters rest rest' ->
                        k mt rest = k' mt' rest') ->
  rep_m p n s k = rep_m p n t k'.
Proof.
  intros Hp. induction n as [| n IH]; intros s t k k' R K; cbn [rep_m].
  - apply K; [reflexivity | exact R].
  - destruct s as [| a s].
    + rewrite (same_letters_nil _ R). reflexivity.
    + destruct (same_letters_cons _ _ _ R) as (b & t' & -> & E & R').
      rewrite (case_blind_spec _ Hp a b E). destruct (p b); [| reflexivity].
      apply IH; [exact R' |].
      intros mt mt' rest rest' R1 R2. apply K; [| exact R2].
      unfold same_letters in *. cbn. congruence.
Qed.

Lemma m_ci (r : regex) :
  ignores_case r = true ->
  ∀ s t cap cap' (k k' : string -> string -> option string -> option A),
  same_letters s t -> same_capture cap cap' ->
  (∀ mt mt' rest rest' c c',
     same_letters mt mt' -> same_letters rest rest' -> same_capture c c' ->
     k mt rest c = k' mt' rest' c') ->
  m r s cap k = m r t cap' k'.
Proof.
  induction r as [l | a | a | a | a n | r IH | i r IH | r1 IH1 r2 IH2 | r1 IH1 r2 IH2];
    cbn [ignores_case]; intros Hr s t cap cap' k k' R C K; cbn [m].
  - pose proof (match_lit_ci l Hr s t R) as H.
    destruct (match_lit l s) as [[mt rest] |], (match_lit l t) as [[mt' rest'] |];
      try contradiction; [| reflexivity].
    destruct H. apply K; assumption.
  - destruct s as [| a0 s].
    + rewrite (same_letters_nil _ R). reflexivity.
    + destruct (same_letters_cons _ _ _ R) as (b & t' & -> & E & R').
      rewrite (case_blind_spec _ Hr a0 b E). destruct (atom_matches a b); [| reflexivity].
      apply K; [| exact R' | exact C]. unfold same_letters. cbn. congruence.
  - apply star_m_ci; [exact Hr | exact R |]. intros; apply K; assumption.
  - destruct s as [| a0 s].
    + rewrite (same_letters_nil _ R). reflexivity.
    + destruct (same_letters_cons _ _ _ R) as (b & t' & -> & E & R').
      rewrite (case_blind_spec _ Hr a0 b E). destruct (atom_matches a b); [| reflexivity].
      apply star_m_ci; [exact Hr | exact R' |].
      intros mt mt' rest rest' R1 R2. apply K; [| exact R2 | exact C].
      unfold same_letters in *. cbn. congruence.
  - apply rep_m_ci; [exact Hr | exact R |]. intros; apply K; assumption.
  - rewrite (IH Hr s t cap cap' k k' R C K).
    rewrite (K "" "" s t cap cap') by (reflexivity || assumption). reflexivity.
  - apply IH; [exact Hr | exact R | exact C |].
    intros mt mt' rest rest' c c' R1 R2 C'. apply K; [exact R1 | exact R2 |].
    destruct (Nat.eqb i 1); [| exact C']. unfold same_capture. cbn. f_equal. exact R1.
  - apply andb_prop in Hr as [H1 H2].
    apply IH1; [exact H1 | exact R | exact C |].
    intros m1 m1' s1 s1' c1 c1' R1 R2 C1.
    apply IH2; [exact H2 | exact R2 | exact C1 |].
    intros m2 m2' s2 s2' c2 c2' R3 R4 C2. apply K; [| exact R4 | exact C2].
    unfold same_letters in *. rewrite !toLowerCase_app. congruence.
  - apply andb_prop in Hr as [H1 H2].
    rewrite (IH1 H1 s t cap cap' k k' R C K).
    rewrite (IH2 H2 s t cap cap' k k' R C K). reflexivity.
Qed.
End CaseBlind.

Lemma match_at_ci r s t i :
  ignores_case r = true -> same_letters s t ->
  lowerResult <$> match_at r s i = lowerResult <$> match_at r t i.
Proof.
  intros Hr R. unfold match_at.
  rewrite <- !(m_map lowerResult r _ None _
                 (fun mt _ cap => Some {| index := i; matched := Str.toLowerCase mt;
                                          group1 := Str.toLowerCase <$> cap |}))
    by reflexivity.
  apply m_ci; [exact Hr | exact R | reflexivity |].
  intros mt mt' rest rest' c c' R1 R2 C. unfold same_letters, same_capture in *. congruence.
Qed.

Lemma exec_from_ci r :
  ignores_case r = true ->
  ∀ s t i, same_letters s t ->
  lowerResult <$> exec_from r s i = lowerResult <$> exec_from r t i.
Proof.
  intros Hr. induction s as [| a s IH]; intros t i R.
  - rewrite (same_letters_nil _ R). reflexivity.
  - destruct (same_letters_cons _ _ _ R) as (b & t' & -> & E & R').
    pose proof (match_at_ci r _ _ i Hr R) as H. cbn [exec_from].
    destruct (match_at r (String a s) i), (match_at r (String b t') i);
      try discriminate H; [exact H |].
    apply IH, R'.
Qed.

Lemma test_ci r s t :
  ignores_case r = true -> same_letters s t -> test r s = test r t.
Proof.
  intros Hr R. unfold test, exec. pose proof (exec_from_ci r Hr s t 0 R) as H.
  destruct (exec_from r s 0), (exec_from r t 0); try discriminate H; reflexivity.
Qed.

Lemma truthy_lower g : Str.truthy (Str.toLowerCase g) = Str.truthy g.
Proof. destruct g; reflexivity. Qed.

Lemma capture1_ci r s t :
  ignores_case r = true -> same_letters s t ->
  same_capture (capture1 (exec r s)) (capture1 (exec r t)).
Proof.
  intros Hr R. unfold exec. pose proof (exec_from_ci r Hr s t 0 R) as H.
  destruct (exec_from r s 0) as [[i1 m1 g1] |], (exec_from r t 0) as [[i2 m2 g2] |];
    try discriminate H; [| reflexivity].
  cbn in H. injection H as _ _ H. unfold capture1.
  destruct g1 as [g1 |], g2 as [g2 |]; try discriminate H; [| reflexivity].
  cbn in H. injection H as H.
  rewrite <- (truthy_lower g1), <- (truthy_lower g2), H.
  destruct (Str.truthy (Str.toLowerCase g2)); [| reflexivity].
  unfold same_capture. cbn. f_equal. exact H.
Qed.


(** Facts about pairs of characters, checked on all 256 x 256 of them. *)
Lemma forall2_ascii (P : ascii -> ascii -> bool) :
  forallb (fun a => forallb (P a) all_ascii) all_ascii = true -> ∀ a b, P a b = true.
Proof.
  rewrite forallb_forall. intros H a b.
  pose proof (H a (all_ascii_complete a)) as Ha. rewrite forallb_forall in Ha.
  apply Ha, all_ascii_complete.
Qed.

Lemma lower_char_fixes_digits_and_signs a b :
  Str.lower_char a = Str.lower_char b ->
  (Char.is_digit a || Ascii.eqb a "-" || Ascii.eqb a "+") = true -> a = b.
Proof.
  intros E H.
  assert (C : forallb (fun a => forallb (fun b =>
                implb (Ascii.eqb (Str.lower_char a) (Str.lower_char b))
                  (implb (Char.is_digit a || Ascii.eqb a "-" || Ascii.eqb a "+")
                     (Ascii.eqb a b))) all_ascii) all_ascii = true)
    by (vm_compute; reflexivity).
  pose proof (forall2_ascii _ C a b) as G.
  cbv beta in G. rewrite E, Ascii.eqb_refl, H in G. apply Ascii.eqb_eq, G.
Qed.

Lemma is_space_case_blind : case_blind Char.is_space = true.
Proof. vm_compute. reflexivity. Qed.

Lemma is_digit_case_blind : case_blind Char.is_digit = true.
Proof. vm_compute. reflexivity. Qed.

Lemma table_ignores_case :
  forallb (fun e => forallb ignores_case (snd e)) WORKLOAD_TYPE_PATTERNS = true.
Proof. vm_compute. reflexivity. Qed.

Lemma codingKeywords_ignore_case : ignores_case codingKeywords = true.
Proof. vm_compute. reflexivity. Qed.

Lemma mediaKeywords_ignore_case : ignores_case mediaKeywords = true.
Proof. vm_compute. reflexivity. Qed.

Lemma sizeKeywords_ignore_case : ignores_case sizeKeywords = true.
Proof. vm_compute. reflexivity. Qed.

Lemma speedKeywords_ignore_case : ignores_case speedKeywords = true.
Proof. vm_compute. reflexivity. Qed.

Lemma expirationPatterns_ignore_case : forallb ignores_case expirationPatterns = true.
Proof. vm_compute. reflexivity. Qed.

Lemma uuidPattern_ignores_case : ignores_case uuidPattern = true.
Proof. vm_compute. reflexivity. Qed.

Lemma comput3DomainPattern_ignores_case : ignores_case comput3DomainPattern = true.
Proof. vm_compute. reflexivity. Qed.

Lemma workloadPatterns_ignore_case : forallb ignores_case workloadPatterns = true.
Proof. vm_compute. reflexivity. Qed.

Lemma same_letters_truthy s t : same_letters s t -> Str.truthy s = Str.truthy t.
Proof.
  destruct s as [| a s]; intros R.
  - rewrite (same_letters_nil _ R). reflexivity.
  - destruct (same_letters_cons _ _ _ R) as (b & t' & -> & _). reflexivity.
Qed.

Lemma skip_space_ci s : ∀ t, same_letters s t -> same_letters (skip_space s) (skip_space t).
Proof.
  induction s as [| a s IH]; intros t R.
  - rewrite (same_letters_nil _ R). reflexivity.
  - destruct (same_letters_cons _ _ _ R) as (b & t' & -> & E & R'). cbn [skip_space].
    rewrite (case_blind_spec Char.is_space is_space_case_blind a b E).
    destruct (Char.is_space b); [apply IH, R' | exact R].
Qed.

Lemma parse_digits_ci s : ∀ t acc, same_letters s t -> parse_digits s acc = parse_digits t acc.
Proof.
  induction s as [| a s IH]; intros t acc R.
  - rewrite (same_letters_nil _ R). reflexivity.
  - destruct (same_letters_cons _ _ _ R) as (b & t' & -> & E & R'). cbn [parse_digits].
    rewrite <- (case_blind_spec Char.is_digit is_digit_case_blind a b E).
    destruct (Char.is_digit a) eqn:D; [| reflexivity].
    rewrite <- (lower_char_fixes_digits_and_signs a b E) by (rewrite D; reflexivity).
    apply IH, R'.
Qed.

Lemma parseInt_unsigned a s :
  Ascii.eqb a "-" = false -> Ascii.eqb a "+" = false ->
  skip_space (String a s) = String a s ->
  parseInt (String a s) =
  match parse_digits (String a s) None with Some z => double_of (1 * z)%Z | None => NaN end.
Proof.
  intros H1 H2 H3. unfold parseInt. rewrite H3.
  destruct a as [[] [] [] [] [] [] [] []]; try discriminate H1; try discriminate H2;
    reflexivity.
Qed.

Lemma parseInt_minus s :
  parseInt (String "-" s) =
  match parse_digits s None with Some z => double_of (-1 * z)%Z | None => NaN end.
Proof. reflexivity. Qed.

Lemma parseInt_plus s :
  parseInt (String "+" s) =
  match parse_digits s None with Some z => double_of (1 * z)%Z | None => NaN end.
Proof. reflexivity. Qed.

Lemma skip_space_idem s : skip_space (skip_space s) = skip_space s.
Proof.
  induction s as [| a s IH]; [reflexivity |]. cbn [skip_space].
  destruct (Char.is_space a) eqn:E; [exact IH |]. cbn [skip_space]. rewrite E. reflexivity.
Qed.

Lemma parseInt_skip s : parseInt (skip_space s) = parseInt s.
Proof. unfold parseInt. rewrite skip_space_idem. reflexivity. Qed.

Lemma parseInt_ci s t : same_letters s t -> parseInt s = parseInt t.
Proof.
  intros R. apply skip_space_ci in R.
  rewrite <- (parseInt_skip s), <- (parseInt_skip t).
  pose proof (skip_space_idem s) as Is. pose proof (skip_space_idem t) as It.
  destruct (skip_space s) as [| a s'].
  - rewrite (same_letters_nil _ R). reflexivity.
  - destruct (same_letters_cons _ _ _ R) as (b & t' & Et & E & R'). rewrite Et in *.
    destruct (Ascii.eqb a "-") eqn:A1.
    { rewrite <- (lower_char_fixes_digits_and_signs a b E)
        by (rewrite A1, orb_true_r; reflexivity).
      apply Ascii.eqb_eq in A1 as ->. rewrite !parseInt_minus.
      rewrite (parse_digits_ci s' t' None R'). reflexivity. }
    destruct (Ascii.eqb a "+") eqn:A2.
    { rewrite <- (lower_char_fixes_digits_and_signs a b E)
        by (rewrite A2, orb_true_r; reflexivity).
      apply Ascii.eqb_eq in A2 as ->. rewrite !parseInt_plus.
      rewrite (parse_digits_ci s' t' None R'). reflexivity. }
    assert (B1 : Ascii.eqb b "-" = false).
    { destruct (Ascii.eqb b "-") eqn:B; [| reflexivity].
      rewrite (lower_char_fixes_digits_and_signs b a (eq_sym E)) in B
        by (rewrite B, orb_true_r; reflexivity). congruence. }
    assert (B2 : Ascii.eqb b "+" = false).
    { destruct (Ascii.eqb b "+") eqn:B; [| reflexivity].
      rewrite (lower_char_fixes_digits_and_signs b a (eq_sym E)) in B
        by (rewrite B, orb_true_r; reflexivity). congruence. }
    rewrite (parseInt_unsigned a s' A1 A2 Is), (parseInt_unsigned b t' B1 B2 It).
    rewrite (parse_digits_ci (String a s') (String b t') None R). reflexivity.
Qed.

Lemma anyPatternMatches_ci patterns s t :
  forallb ignores_case patterns = true -> same_letters s t ->
  anyPatternMatches patterns s = anyPatternMatches patterns t.
Proof.
  intros H R. induction patterns as [| p patterns IH]; [reflexivity |].
  cbn in H. apply andb_prop in H as [Hp H]. cbn [anyPatternMatches].
  rewrite (test_ci p s t Hp R), (IH H). reflexivity.
Qed.

Lemma directMatch_ci entries s t :
  forallb (fun e => forallb ignores_case (snd e)) entries = true -> same_letters s t ->
  directMatch entries s = directMatch entries t.
Proof.
  intros H R. induction entries as [| [ty ps] entries IH]; [reflexivity |].
  cbn in H. apply andb_prop in H as [Hp H]. cbn [directMatch].
  rewrite (anyPatternMatches_ci ps s t Hp R), (IH H). reflexivity.
Qed.

Lemma extractWorkloadType_ci s t :
  same_letters s t -> extractWorkloadType s = extractWorkloadType t.
Proof.
  intros R. unfold extractWorkloadType.
  rewrite (same_letters_truthy s t R).
  rewrite (directMatch_ci WORKLOAD_TYPE_PATTERNS s t table_ignores_case R).
  rewrite (test_ci codingKeywords s t codingKeywords_ignore_case R).
  rewrite (test_ci mediaKeywords s t mediaKeywords_ignore_case R).
  rewrite (test_ci sizeKeywords s t sizeKeywords_ignore_case R).
  rewrite (test_ci speedKeywords s t speedKeywords_ignore_case R).
  reflexivity.
Qed.

Lemma same_capture_cases c c' :
  same_capture c c' ->
  (c = None ∧ c' = None) ∨ ∃ g g', c = Some g ∧ c' = Some g' ∧ same_letters g g'.
Proof.
  unfold same_capture. destruct c as [g |], c' as [g' |]; cbn; intros H;
    try discriminate H; [| left; split; reflexivity].
  injection H as H. right. exists g, g'. repeat split. exact H.
Qed.

Lemma expirationLoop_ci patterns s t d :
  forallb ignores_case patterns = true -> same_letters s t ->
  expirationLoop patterns s d = expirationLoop patterns t d.
Proof.
  intros H R. induction patterns as [| p patterns IH]; [reflexivity |].
  cbn in H. apply andb_prop in H as [Hp H]. cbn [expirationLoop].
  destruct (same_capture_cases _ _ (capture1_ci p s t Hp R))
    as [[-> ->] | (g & g' & -> & -> & G)]; [apply IH, H |].
  rewrite (parseInt_ci g g' G). reflexivity.
Qed.

Lemma extractExpirationTime_ci s t d :
  same_letters s t -> extractExpirationTime s d = extractExpirationTime t d.
Proof.
  intros R. unfold extractExpirationTime. rewrite (same_letters_truthy s t R).
  rewrite (expirationLoop_ci expirationPatterns s t d expirationPatterns_ignore_case R).
  reflexivity.
Qed.

Lemma workloadLoop_ci patterns s t :
  forallb ignores_case patterns = true -> same_letters s t ->
  same_capture (workloadLoop patterns s) (workloadLoop patterns t).
Proof.
  intros H R. induction patterns as [| p patterns IH]; [reflexivity |].
  cbn in H. apply andb_prop in H as [Hp H]. cbn [workloadLoop].
  destruct (same_capture_cases _ _ (capture1_ci p s t Hp R))
    as [[-> ->] | (g & g' & -> & -> & G)]; [apply IH, H |].
  unfold same_capture, same_letters in *. cbn [fmap option_fmap option_map].
  destruct (Str.includes "wrk_" (toString p)); rewrite ?toLowerCase_app; congruence.
Qed.

Lemma extractWorkloadId_ci s t :
  same_letters s t -> same_capture (extractWorkloadId s) (extractWorkloadId t).
Proof.
  intros R. unfold extractWorkloadId. rewrite (same_letters_truthy s t R).
  destruct (Str.truthy t); [| reflexivity]. cbn [negb].
  destruct (same_capture_cases _ _
              (capture1_ci uuidPattern s t uuidPattern_ignores_case R))
    as [[-> ->] | (g & g' & -> & -> & G)]; [| unfold same_capture; cbn; f_equal; exact G].
  destruct (same_capture_cases _ _
              (capture1_ci comput3DomainPattern s t comput3DomainPattern_ignores_case R))
    as [[-> ->] | (g & g' & -> & -> & G)]; [| unfold same_capture; cbn; f_equal; exact G].
  apply workloadLoop_ci; [exact workloadPatterns_ignore_case | exact R].
Qed.

(** X1.  The extractors ignore letter case.  Two texts that are equal once
    lower-cased yield the same workload type, the same duration (for every
    default) and the same launch parameters; the workload identifiers
    extracted from them are equal once lower-cased, and both are absent
    when one is. *)
Theorem extraction_ignores_letter_case (s t : string) (d : number) :
  same_letters s t ->
  extractWorkloadType s = extractWorkloadType t ∧
  extractExpirationTime s d = extractExpirationTime t d ∧
  validateLaunchWorkloadFromText s = validateLaunchWorkloadFromText t ∧
  Str.toLowerCase <$> extractWorkloadId s = Str.toLowerCase <$> extractWorkloadId t ∧
  Str.toLowerCase <$> validateStopWorkloadFromText s =
    Str.toLowerCase <$> validateStopWorkloadFromText t.
Proof.
  intros R.
  split; [apply extractWorkloadType_ci, R |].
  split; [apply extractExpirationTime_ci, R |].
  split.
  { unfold validateLaunchWorkloadFromText.
    rewrite (extractWorkloadType_ci s t R), (extractExpirationTime_ci s t _ R). reflexivity. }
  split; [apply extractWorkloadId_ci, R |].
  unfold validateStopWorkloadFromText.
  destruct (same_capture_cases _ _ (extractWorkloadId_ci s t R))
    as [[-> ->] | (g & g' & -> & -> & G)]; [reflexivity |].
  rewrite <- (truthy_lower g), <- (truthy_lower g'), G.
  destruct (Str.truthy (Str.toLowerCase g')); [| reflexivity].
  cbn. f_equal. exact G.
Qed.

Lemma extraction_ignores_letter_case_witness :
  same_letters "Launch OLLAMA Coder for 45 MINUTES on WRK_ab12"
               "launch ollama coder for 45 minutes on wrk_AB12" ∧
  extractWorkloadType "Launch OLLAMA Coder for 45 MINUTES on WRK_ab12" =
    extractWorkloadType "launch ollama coder for 45 minutes on wrk_AB12" ∧
  extractExpirationTime "Launch OLLAMA Coder for 45 MINUTES on WRK_ab12" (Num 10) =
    extractExpirationTime "launch ollama coder for 45 minutes on wrk_AB12" (Num 10) ∧
  validateLaunchWorkloadFromText "Launch OLLAMA Coder for 45 MINUTES on WRK_ab12" =
    validateLaunchWorkloadFromText "launch ollama coder for 45 minutes on wrk_AB12" ∧
  Str.toLowerCase <$> extractWorkloadId "Launch OLLAMA Coder for 45 MINUTES on WRK_ab12" =
    Str.toLowerCase <$> extractWorkloadId "launch ollama coder for 45 minutes on wrk_AB12" ∧
  Str.toLowerCase <$> validateStopWorkloadFromText "Launch OLLAMA Coder for 45 MINUTES on WRK_ab12" =
    Str.toLowerCase <$> validateStopWorkloadFromText "launch ollama coder for 45 minutes on wrk_AB12".
Proof.
  split; [reflexivity |].
  apply (extraction_ignores_letter_case
           "Launch OLLAMA Coder for 45 MINUTES on WRK_ab12"
           "launch ollama coder for 45 minutes on wrk_AB12" (Num 10)).
  reflexivity.
Defined.

(** ** What the deterministic extractors hand to the validators *)

Lemma first_match (patterns : list regex) (text : string) :
  (∀ q, q ∈ patterns -> exec q text = None) ∨
  ∃ earlier p later res,
    patterns = (earlier ++ p :: later)%list ∧
    (∀ q, q ∈ earlier -> exec q text = None) ∧
    exec p text = Some res.
Proof.
  induction patterns as [| p patterns IH].
  - left. intros q Hq. apply elem_of_nil in Hq as [].
  - destruct (exec p text) as [res |] eqn:E.
    + right. exists [], p, patterns, res. split; [reflexivity |]. split; [| exact E].
      intros q Hq. apply elem_of_nil in Hq as [].
    + destruct IH as [IH | (earlier & p' & later & res & -> & Hq & E')].
      * left. intros q Hq. apply elem_of_cons in Hq as [-> | Hq]; [exact E | apply IH, Hq].
      * right. exists (p :: earlier), p', later, res. split; [reflexivity |].
        split; [| exact E'].
        intros q Hq'. apply elem_of_cons in Hq' as [-> | Hq']; [exact E | apply Hq, Hq'].
Qed.

Lemma directMatch_declared entries text type :
  directMatch entries text = Some type -> type ∈ map fst entries.
Proof.
  induction entries as [| [ty ps] entries IH]; cbn [directMatch]; [discriminate |].
  destruct (anyPatternMatches ps text).
  - intros [= ->]. left.
  - intros H. right. apply IH, H.
Qed.

Lemma extractWorkloadType_declared text type :
  extractWorkloadType text = Some type -> type ∈ map fst WORKLOAD_TYPE_PATTERNS.
Proof.
  unfold extractWorkloadType. destruct (negb (Str.truthy text)); [discriminate |].
  destruct (directMatch WORKLOAD_TYPE_PATTERNS text) as [ty |] eqn:D.
  - intros [= <-]. apply (directMatch_declared _ _ _ D).
  - repeat match goal with |- context [if ?b then _ else _] => destruct b end;
      intros H; try discriminate H; injection H as <-;
      unfold WORKLOAD_TYPE_PATTERNS; cbn [map fst]; rewrite !elem_of_cons; auto 10.
Qed.

Lemma double_of_natural z : (0 <= z)%Z -> natural_or_infinite (double_of z).
Proof.
  intros Hz. destruct (double_of_nonneg z Hz) as [(n & Hn & ->) | ->];
    [left; eauto | right; reflexivity].
Qed.

Lemma times_60_natural x :
  natural_or_infinite x -> natural_or_infinite (num_mul x (Num 60)).
Proof.
  intros [(n & -> & Hn) | ->]; [| right; reflexivity].
  apply (double_of_natural (n * 60)). lia.
Qed.

Lemma expirationLoop_value patterns text d :
  (∀ p, p ∈ patterns -> p ∈ expirationPatterns) ->
  expirationLoop patterns text d = d ∨
  natural_or_infinite (expirationLoop patterns text d).
Proof.
  induction patterns as [| p patterns IH]; intros Hin; [left; reflexivity |].
  cbn [expirationLoop].
  assert (Hp : p ∈ expirationPatterns) by (apply Hin; left).
  destruct (exec p text) as [res |] eqn:E.
  - right.
    destruct (capture1_exec p text res (expirationPatterns_capturing p Hp) E)
      as (g & Hg & Hne & Hcap & Hocc).
    destruct Hocc as (pre & post & Ht & Hd).
    destruct (expirationPatterns_capture p _ _ Hp Hd) as (g' & [= <-] & Hdig).
    rewrite E in Hcap. rewrite Hcap, (parseInt_digits g Hdig).
    pose proof (double_of_natural _ (decimal_nonneg g Hdig)) as Hnat.
    destruct (Str.includes "hours" (toString p)); [apply times_60_natural |]; exact Hnat.
  - cbn [capture1]. apply IH. intros q Hq. apply Hin. right. exact Hq.
Qed.

Lemma extractExpirationTime_value text d :
  extractExpirationTime text d = d ∨
  natural_or_infinite (extractExpirationTime text d).
Proof.
  unfold extractExpirationTime. destruct (negb (Str.truthy text)); [left; reflexivity |].
  apply expirationLoop_value. auto.
Qed.

Lemma launchParamsOf_type p : get (launchParamsOf p) "type" = JStr (fst p).
Proof. reflexivity. Qed.

Lemma launchParamsOf_expires p : get (launchParamsOf p) "expires" = JNum (snd p).
Proof. reflexivity. Qed.

Lemma validateLaunch_result (text : string) :
  match validateLaunchWorkloadFromText text with
  | Some p =>
      extractWorkloadType text = Some (fst p) ∧
      fst p ∈ map fst WORKLOAD_TYPE_PATTERNS ∧
      snd p = extractExpirationTime text (Num 10) ∧
      natural_or_infinite (snd p) ∧
      isLaunchWorkloadContent (launchParamsOf p) = true
  | None => extractWorkloadType text = None
  end.
Proof.
  unfold validateLaunchWorkloadFromText.
  destruct (extractWorkloadType text) as [ty |] eqn:T; [| reflexivity].
  pose proof (extractWorkloadType_declared text ty T) as D.
  assert (Hty : Str.truthy ty = true).
  { unfold WORKLOAD_TYPE_PATTERNS in D. cbn [map fst] in D.
    repeat (apply elem_of_cons in D as [-> | D]); [.. | apply elem_of_nil in D as []];
      reflexivity. }
  rewrite Hty. cbn [fst snd].
  split; [reflexivity |]. split; [exact D |]. split; [reflexivity |].
  split.
  - destruct (extractExpirationTime_value text (Num 10)) as [-> | H];
      [left; exists 10%Z; split; [reflexivity | lia] | exact H].
  - unfold isLaunchWorkloadContent.
    rewrite launchParamsOf_type, launchParamsOf_expires. cbn [fst snd truthy typeof].
    rewrite Hty. reflexivity.
Qed.

(** X2.  The launch parameters that the deterministic extractor finds in a
    text always pass the launch validator: the type is the result of
    [extractWorkloadType], which is one of the five declared types, and the
    duration is the result of [extractExpirationTime] with the default 10,
    which is a natural number or, for a run of digits that spells more
    than a double can hold, the positive infinity; it is never NaN,
    negative or a fraction.  No parameters are found exactly when no type
    is.  For any default, the duration is the default or such a number;
    a run of 310 digits gives the infinity.  No declared type is shadowed by
    an earlier entry of the table: the name of each declared type, taken
    as a text, yields that type. *)
Theorem validateLaunchWorkloadFromText_valid (text : string) :
  match validateLaunchWorkloadFromText text with
  | Some p =>
      extractWorkloadType text = Some (fst p) ∧
      fst p ∈ map fst WORKLOAD_TYPE_PATTERNS ∧
      snd p = extractExpirationTime text (Num 10) ∧
      natural_or_infinite (snd p) ∧
      isLaunchWorkloadContent (launchParamsOf p) = true
  | None => extractWorkloadType text = None
  end ∧
  (∀ d, extractExpirationTime text d = d ∨
        natural_or_infinite (extractExpirationTime text d)) ∧
  (∀ d, extractExpirationTime
          ("for 1" +:+ String.concat "" (replicate 309 "0") +:+ " minutes") d =
        Infinity false) ∧
  (∀ type, type ∈ map fst WORKLOAD_TYPE_PATTERNS -> extractWorkloadType type = Some type).
Proof.
  split; [apply validateLaunch_result |].
  split; [intros d; apply extractExpirationTime_value |].
  split; [intros d; vm_compute; reflexivity |].
  intros type H. unfold WORKLOAD_TYPE_PATTERNS in H. cbn [map fst] in H.
  repeat (apply elem_of_cons in H as [-> | H]); [.. | apply elem_of_nil in H as []];
    vm_compute; reflexivity.
Qed.

(** X3.  The workload identifier that the deterministic extractor finds
    is never empty and always passes the stop validator.  It is a piece
    of the text returned verbatim, or, for the "wrk_" pattern, the
    lower-case prefix "wrk_" followed by the letters and digits that
    follow a "wrk_" of any letter case in the text.  The empty text yields
    no identifier. *)
Theorem validateStopWorkloadFromText_valid (text : string) :
  match validateStopWorkloadFromText text with
  | Some id =>
      extractWorkloadId text = Some id ∧
      id ≠ "" ∧
      isStopWorkloadContent {[ "workload" := JStr id ]} = true ∧
      ((∃ pre post, text = pre +:+ id +:+ post) ∨
       (∃ pre prefix g post,
          id = "wrk_" +:+ g ∧ text = pre +:+ prefix +:+ g +:+ post ∧
          lit_matches "wrk_" prefix = true))
  | None => extractWorkloadId text = None
  end ∧
  validateStopWorkloadFromText "" = None.
Proof.
  split; [| reflexivity].
  assert (G : ∀ id, extractWorkloadId text = Some id ->
            id ≠ "" ∧
            ((∃ pre post, text = pre +:+ id +:+ post) ∨
             (∃ pre prefix g post,
                id = "wrk_" +:+ g ∧ text = pre +:+ prefix +:+ g +:+ post ∧
                lit_matches "wrk_" prefix = true))).
  { intros id H.
    assert (Ht : Str.truthy text = true).
    { destruct text; [discriminate H | reflexivity]. }
    rewrite (extractWorkloadId_loop text Ht) in H.
    destruct (first_match idPatterns text)
      as [Hn | (earlier & p & later & res & Hsplit & Hq & E)].
    { rewrite (workloadLoop_no_match _ _ Hn) in H. discriminate H. }
    assert (Hp : p ∈ idPatterns) by (rewrite Hsplit; apply elem_of_app; right; left).
    destruct (workloadLoop_first_match earlier p later text res
                (idPatterns_capturing p Hp) Hq E) as (g & Hg & Hloop).
    rewrite <- Hsplit, H in Hloop. injection Hloop as ->.
    pose proof (exec_sound _ _ _ E) as (pre & post & Htext & Hd).
    destruct (idPatterns_shape _ _ _ _ _ Hsplit Hd) as (g' & Hg' & Hne & Hshape).
    rewrite Hg in Hg'. injection Hg' as <-.
    unfold idPatterns, workloadPatterns in Hsplit.
    destruct earlier as [| e1 [| e2 [| e3 [| e4 [| e5 [| e6 earlier]]]]]];
      cbn [app] in Hsplit; injection Hsplit as; try discriminate; subst p;
      cbn [List.length idShape] in Hshape;
      match goal with
      | |- context [Str.includes ?a ?t] =>
          let b := eval vm_compute in (Str.includes a t) in
          change (Str.includes a t) with b
      end; cbv iota.
    - destruct Hshape as [Hs _]. split; [exact Hne |]. left. exists pre, post. congruence.
    - destruct Hshape as [Hs _]. split; [exact Hne |]. left. exists pre, post. congruence.
    - destruct Hshape as (prefix & Hs & Hl & _). split; [discriminate |].
      right. exists pre, prefix, g, post. split; [reflexivity |]. split; [| exact Hl].
      rewrite Htext, Hs, !append_assoc. reflexivity.
    - destruct Hshape as (word & seps & Hs & _). split; [exact Hne |].
      left. exists (pre +:+ word +:+ seps), post.
      rewrite Htext, Hs, !append_assoc. reflexivity.
    - destruct Hshape as [Hs _]. split; [exact Hne |]. left. exists pre, post. congruence. }
  unfold validateStopWorkloadFromText.
  destruct (extractWorkloadId text) as [id |] eqn:E; [| reflexivity].
  destruct (G id eq_refl) as [Hne Hpiece].
  apply truthy_ne in Hne as Ht. rewrite Ht.
  split; [reflexivity |]. split; [exact Hne |]. split; [| exact Hpiece].
  unfold isStopWorkloadContent.
  change (get {[ "workload" := JStr id ]} "workload") with (JStr id).
  cbn [truthy typeof]. rewrite Ht. reflexivity.
Qed.

(** ** The documented duration phrases *)

Section Greedy.
Context {A : Type}.

(** A greedy repetition takes the whole run when the continuation accepts
    it and the run cannot be extended. *)
Lemma star_m_greedy (p : ascii -> bool) (run rest : string)
    (k : string -> string -> option A) (x : A) :
  all_chars p run = true ->
  match rest with String c _ => p c = false | EmptyString => True end ->
  k run rest = Some x ->
  star_m p (run +:+ rest) k = Some x.
Proof.
  revert k. induction run as [| c run IH]; intros k Hall Hrest Hk.
  - cbn [append]. destruct rest as [| c r]; cbn [star_m]; [exact Hk |].
    rewrite Hrest. exact Hk.
  - cbn in Hall. apply andb_prop in Hall as [Hc Hall].
    cbn [append star_m]. rewrite Hc.
    rewrite (IH (fun mt rest => k (String c mt) rest) Hall Hrest Hk). reflexivity.
Qed.

Lemma rep_m_exact (p : ascii -> bool) (run rest : string)
    (k : string -> string -> option A) :
  all_chars p run = true ->
  rep_m p (String.length run) (run +:+ rest) k = k run rest.
Proof.
  revert k. induction run as [| c run IH]; intros k Hall; [reflexivity |].
  cbn in Hall. apply andb_prop in Hall as [Hc Hall].
  cbn [String.length append rep_m]. rewrite Hc.
  apply (IH (fun mt rest => k (String c mt) rest) Hall).
Qed.

(** The matcher returns what the continuation makes of the first choice. *)
Lemma m_first_choice (r : regex) :
  ∀ s rest cap cap' (k : string -> string -> option string -> option A) x,
  first_choice r cap s cap' rest ->
  k s rest cap' = Some x ->
  m r (s +:+ rest) cap k = Some x.
Proof.
  induction r as [l | a | a | a | a n | r IH | i r IH | r1 IH1 r2 IH2 | r1 IH1 r2 IH2];
    intros s rest cap cap' k x H K; cbn [first_choice] in H; cbn [m].
  - destruct H as [H ->]. rewrite (match_lit_complete l s rest H). exact K.
  - destruct H as [(c & -> & H) ->]. cbn [append]. rewrite H. exact K.
  - destruct H as (H & Hstop & ->).
    apply (star_m_greedy _ _ _ (fun mt rest => k mt rest cap) x H Hstop K).
  - destruct H as (Hne & H & Hstop & ->).
    destruct s as [| c s]; [congruence |].
    cbn in H. apply andb_prop in H as [Hc H]. cbn [append]. rewrite Hc.
    apply (star_m_greedy _ _ _ (fun mt rest => k (String c mt) rest cap) x H Hstop K).
  - destruct H as (<- & H & ->).
    rewrite (rep_m_exact _ _ _ (fun mt rest => k mt rest cap) H). exact K.
  - rewrite (IH _ _ _ _ _ _ H K). reflexivity.
  - destruct H as (c & H & ->). apply (IH _ _ _ _ _ _ H). exact K.
  - destruct H as (s1 & s2 & c & -> & H1 & H2). rewrite append_assoc.
    apply (IH1 _ _ _ _ _ _ H1). apply (IH2 _ _ _ _ _ _ H2). exact K.
  - rewrite (IH1 _ _ _ _ _ _ H K). reflexivity.
Qed.
End Greedy.

Lemma exec_first_choice r s cap post :
  first_choice r None s cap post ->
  exec r (s +:+ post) = Some {| index := 0; matched := s; group1 := cap |}.
Proof.
  intros H. unfold exec.
  assert (E : match_at r (s +:+ post) 0 =
              Some {| index := 0; matched := s; group1 := cap |}).
  { unfold match_at. apply (m_first_choice r _ _ _ _ _ _ H). reflexivity. }
  destruct (s +:+ post); cbn [exec_from]; rewrite E; reflexivity.
Qed.

(** *** Patterns that cannot match *)

Lemma lacks_app x a b : lacks x (a +:+ b) = lacks x a && lacks x b.
Proof. apply all_chars_app. Qed.

Lemma canon_eq_trans x y c :
  Char.canon_eq x y = true -> Char.canon_eq y c = true -> Char.canon_eq x c = true.
Proof.
  unfold Char.canon_eq. intros H1 H2.
  apply Ascii.eqb_eq in H1, H2. apply Ascii.eqb_eq. congruence.
Qed.

Lemma lit_matches_lacks x l : ∀ s,
  lit_matches l s = true -> lacks x l = false -> lacks x s = false.
Proof.
  induction l as [| y l IH]; intros s H L; [discriminate L |].
  destruct s as [| c s]; [discriminate H |].
  cbn in H. apply andb_prop in H as [Hc H].
  unfold lacks in *. cbn [all_chars] in *.
  destruct (Char.canon_eq x y) eqn:E.
  - rewrite (canon_eq_trans x y c E Hc). reflexivity.
  - cbn [negb andb] in L. rewrite (IH s H L). apply andb_false_r.
Qed.

Lemma requires_sound x r :
  requires x r = true -> ∀ cap s cap', denote r cap s cap' -> lacks x s = false.
Proof.
  induction r as [l | a | a | a | a n | r IH | i r IH | r1 IH1 r2 IH2 | r1 IH1 r2 IH2];
    cbn [requires]; intros R cap s cap' D; try discriminate R; cbn [denote] in D.
  - destruct D as [D _]. apply negb_true_iff in R. apply (lit_matches_lacks x l s D R).
  - destruct D as (c & D & _). apply (IH R _ _ _ D).
  - destruct D as (s1 & s2 & c & -> & D1 & D2). rewrite lacks_app.
    apply orb_prop in R as [R | R].
    + rewrite (IH1 R _ _ _ D1). reflexivity.
    + rewrite (IH2 R _ _ _ D2). apply andb_false_r.
  - apply andb_prop in R as [R1 R2].
    destruct D as [D | D]; [apply (IH1 R1 _ _ _ D) | apply (IH2 R2 _ _ _ D)].
Qed.

Lemma exec_none_lacks x r text :
  requires x r = true -> lacks x text = true -> exec r text = None.
Proof.
  intros R L. apply exec_none_iff. intros s cap (pre & post & -> & D).
  rewrite !lacks_app in L. apply andb_prop in L as [_ L]. apply andb_prop in L as [L _].
  rewrite (requires_sound x r R _ _ _ D) in L. discriminate L.
Qed.

Lemma digits_lack_letters x ds :
  Char.is_alpha x = true -> all_chars Char.is_digit ds = true -> lacks x ds = true.
Proof.
  intros Hx. induction ds as [| c ds IH]; [reflexivity |].
  cbn. intros H. apply andb_prop in H as [Hc H]. unfold lacks in *. cbn [all_chars].
  rewrite (IH H), andb_true_r.
  assert (C : forallb (fun a => forallb (fun b =>
                implb (Char.is_alpha a && Char.is_digit b) (negb (Char.canon_eq a b)))
                all_ascii) all_ascii = true) by (vm_compute; reflexivity).
  pose proof (forall2_ascii _ C x c) as G. cbv beta in G.
  rewrite Hx, Hc in G. exact G.
Qed.

(** *** The phrases *)

Lemma is_digits_parts ds :
  is_digits ds = true -> ds ≠ "" ∧ all_chars Char.is_digit ds = true.
Proof.
  unfold is_digits. intros H. apply andb_prop in H as [H1 H2].
  split; [apply truthy_ne, H1 | exact H2].
Qed.

Lemma capture1_found r s g post :
  g ≠ "" -> first_choice r None s (Some g) post ->
  capture1 (exec r (s +:+ post)) = Some g.
Proof.
  intros Hne H. rewrite (exec_first_choice r s (Some g) post H). cbn [capture1].
  apply truthy_ne in Hne. rewrite Hne. reflexivity.
Qed.

Lemma minutes_tail_choice cap post :
  first_choice (seq minutesTail) cap " minutes" cap post.
Proof.
  unfold minutesTail. cbn [seq first_choice].
  exists " ", "minutes", cap. split; [reflexivity |]. split; [repeat split |].
  exists "min", "utes", cap. split; [reflexivity |]. split; [repeat split |].
  exists "ute", "s", cap. split; [reflexivity |]. split.
  - exists cap. repeat split.
  - repeat split.
Qed.

Lemma hours_tail_choice cap post :
  first_choice (seq [Star ASpace; Lit "hour"; Opt (Lit "s")]) cap " hours" cap post.
Proof.
  cbn [seq first_choice].
  exists " ", "hours", cap. split; [reflexivity |]. split; [repeat split |].
  exists "hour", "s", cap. split; [reflexivity |]. split; repeat split.
Qed.

Lemma digits_choice ds tail post :
  is_digits ds = true ->
  match tail +:+ post with String c _ => Char.is_digit c = false | EmptyString => True end ->
  first_choice (Group 1 (Plus ADigit)) None ds (Some ds) (tail +:+ post).
Proof.
  intros Hd Hstop. destruct (is_digits_parts ds Hd) as [Hne Hall].
  cbn [first_choice Nat.eqb]. exists None. split; [| reflexivity].
  split; [exact Hne |]. split; [exact Hall |]. split; [exact Hstop | reflexivity].
Qed.

Lemma expires_in_choice ds post :
  is_digits ds = true ->
  first_choice (seq ([Lit "expire"; Opt (Lit "s"); Lit " in "; Group 1 (Plus ADigit)]
                       ++ minutesTail))
    None ("expires in " +:+ ds +:+ " minutes") (Some ds) post.
Proof.
  intros Hd.
  change (seq ([Lit "expire"; Opt (Lit "s"); Lit " in "; Group 1 (Plus ADigit)]
                 ++ minutesTail))
    with (Seq (Lit "expire") (Seq (Opt (Lit "s")) (Seq (Lit " in ")
            (Seq (Group 1 (Plus ADigit)) (seq minutesTail))))).
  cbn [first_choice].
  exists "expire", ("s in " +:+ ds +:+ " minutes"), None.
  split; [reflexivity |]. split; [split; reflexivity |].
  exists "s", (" in " +:+ ds +:+ " minutes"), None.
  split; [reflexivity |]. split; [split; reflexivity |].
  exists " in ", (ds +:+ " minutes"), None.
  split; [reflexivity |]. split; [split; reflexivity |].
  exists ds, " minutes", (Some ds). split; [reflexivity |]. split.
  - apply (digits_choice ds " minutes" post Hd). reflexivity.
  - apply minutes_tail_choice.
Qed.

Lemma for_choice ds post :
  is_digits ds = true ->
  first_choice (seq ([Lit "for "; Group 1 (Plus ADigit)] ++ minutesTail))
    None ("for " +:+ ds +:+ " minutes") (Some ds) post.
Proof.
  intros Hd.
  change (seq ([Lit "for "; Group 1 (Plus ADigit)] ++ minutesTail))
    with (Seq (Lit "for ") (Seq (Group 1 (Plus ADigit)) (seq minutesTail))).
  cbn [first_choice].
  exists "for ", (ds +:+ " minutes"), None.
  split; [reflexivity |]. split; [split; reflexivity |].
  exists ds, " minutes", (Some ds). split; [reflexivity |]. split.
  - apply (digits_choice ds " minutes" post Hd). reflexivity.
  - apply minutes_tail_choice.
Qed.

Lemma minutes_choice ds post :
  is_digits ds = true ->
  first_choice (seq ([Group 1 (Plus ADigit)] ++ minutesTail))
    None (ds +:+ " minutes") (Some ds) post.
Proof.
  intros Hd.
  change (seq ([Group 1 (Plus ADigit)] ++ minutesTail))
    with (Seq (Group 1 (Plus ADigit)) (seq minutesTail)).
  cbn [first_choice].
  exists ds, " minutes", (Some ds). split; [reflexivity |]. split.
  - apply (digits_choice ds " minutes" post Hd). reflexivity.
  - apply minutes_tail_choice.
Qed.

Lemma hours_choice ds post :
  is_digits ds = true ->
  first_choice (seq [Group 1 (Plus ADigit); Star ASpace; Lit "hour"; Opt (Lit "s")])
    None (ds +:+ " hours") (Some ds) post.
Proof.
  intros Hd.
  change (seq [Group 1 (Plus ADigit); Star ASpace; Lit "hour"; Opt (Lit "s")])
    with (Seq (Group 1 (Plus ADigit)) (seq [Star ASpace; Lit "hour"; Opt (Lit "s")])).
  cbn [first_choice].
  exists ds, " hours", (Some ds). split; [reflexivity |]. split.
  - apply (digits_choice ds " hours" post Hd). reflexivity.
  - apply hours_tail_choice.
Qed.

Lemma lacks_text x ds tail post :
  Char.is_alpha x = true -> is_digits ds = true ->
  lacks x tail = true -> lacks x post = true ->
  lacks x (ds +:+ tail +:+ post) = true.
Proof.
  intros Hx Hd Ht Hp. destruct (is_digits_parts ds Hd) as [_ Hall].
  rewrite !lacks_app, (digits_lack_letters x ds Hx Hall), Ht, Hp. reflexivity.
Qed.

Lemma loop_skips p patterns text d :
  exec p text = None ->
  expirationLoop (p :: patterns) text d = expirationLoop patterns text d.
Proof. intros E. cbn [expirationLoop]. rewrite E. reflexivity. Qed.

Lemma loop_takes p patterns text d g :
  is_digits g = true -> capture1 (exec p text) = Some g ->
  expirationLoop (p :: patterns) text d =
  if Str.includes "hours" (toString p)
  then num_mul (double_of (decimal g)) (Num 60)
  else double_of (decimal g).
Proof.
  intros Hd E. cbn [expirationLoop]. rewrite E, (parseInt_digits g Hd). reflexivity.
Qed.

Lemma truthy_digits_front ds t u :
  is_digits ds = true -> Str.truthy ((ds +:+ t) +:+ u) = true.
Proof.
  intros Hd. destruct (is_digits_parts ds Hd) as [Hne _].
  destruct ds; [congruence | reflexivity].
Qed.

(** X4.  The documented ways to state a duration are read as written.
    For every non-empty run of decimal digits N and every text that
    follows: "expires in N minutes" lasts N minutes; "for N minutes" lasts
    N minutes when what follows holds no letter x; "N minutes" lasts N
    minutes when what follows holds neither x nor f; "N hours" lasts
    60 * N minutes when what follows holds none of x, f and m.  (The
    letters are those without which no earlier pattern can match.)  N
    and 60 * N are read and computed as JavaScript does, as the nearest
    doubles: they are the exact integers up to 2^53. *)
Theorem duration_phrases (ds post : string) (d : number) :
  is_digits ds = true ->
  extractExpirationTime ("expires in " +:+ ds +:+ " minutes" +:+ post) d =
    double_of (decimal ds) ∧
  (lacks "x" post = true ->
   extractExpirationTime ("for " +:+ ds +:+ " minutes" +:+ post) d =
     double_of (decimal ds)) ∧
  (lacks "x" post = true -> lacks "f" post = true ->
   extractExpirationTime (ds +:+ " minutes" +:+ post) d = double_of (decimal ds)) ∧
  (lacks "x" post = true -> lacks "f" post = true -> lacks "m" post = true ->
   extractExpirationTime (ds +:+ " hours" +:+ post) d =
     num_mul (double_of (decimal ds)) (Num 60)) ∧
  ((decimal ds <= 2 ^ 53)%Z -> double_of (decimal ds) = Num (decimal ds)) ∧
  ((decimal ds * 60 <= 2 ^ 53)%Z ->
   num_mul (double_of (decimal ds)) (Num 60) = Num (decimal ds * 60)).
Proof.
  intros Hd. destruct (is_digits_parts ds Hd) as [Hne Hall].
  assert (skip : ∀ x tail t, Char.is_alpha x = true -> lacks x tail = true ->
                 lacks x t = true -> lacks x ((ds +:+ tail) +:+ t) = true).
  { intros x tail t Hx Ht Lt. rewrite append_assoc. apply lacks_text; assumption. }
  pose proof (decimal_nonneg ds Hd) as Hnn.
  split; [| split; [| split; [| split; [| split]]]].
  - replace ("expires in " +:+ ds +:+ " minutes" +:+ post)
      with (("expires in " +:+ ds +:+ " minutes") +:+ post)
      by (rewrite !append_assoc; reflexivity).
    unfold extractExpirationTime.
    replace (Str.truthy (("expires in " +:+ ds +:+ " minutes") +:+ post)) with true
      by reflexivity.
    cbn [negb]. unfold expirationPatterns.
    rewrite (loop_takes _ _ _ _ ds Hd
               (capture1_found _ _ _ post Hne (expires_in_choice ds post Hd))).
    reflexivity.
  - intros Lx.
    replace ("for " +:+ ds +:+ " minutes" +:+ post)
      with (("for " +:+ ds +:+ " minutes") +:+ post)
      by (rewrite !append_assoc; reflexivity).
    unfold extractExpirationTime.
    replace (Str.truthy (("for " +:+ ds +:+ " minutes") +:+ post)) with true by reflexivity.
    cbn [negb]. unfold expirationPatterns.
    rewrite loop_skips.
    2: { apply (exec_none_lacks "x"); [reflexivity |].
         change ("for " +:+ ds +:+ " minutes") with ("for " +:+ (ds +:+ " minutes")).
         rewrite (append_assoc "for "), lacks_app.
         apply andb_true_intro. split; [reflexivity |].
         apply skip; [reflexivity | reflexivity | exact Lx]. }
    rewrite (loop_takes _ _ _ _ ds Hd
               (capture1_found _ _ _ post Hne (for_choice ds post Hd))).
    reflexivity.
  - intros Lx Lf.
    replace (ds +:+ " minutes" +:+ post) with ((ds +:+ " minutes") +:+ post)
      by (rewrite !append_assoc; reflexivity).
    unfold extractExpirationTime.
    rewrite (truthy_digits_front ds _ post Hd).
    cbn [negb]. unfold expirationPatterns.
    rewrite loop_skips
      by (apply (exec_none_lacks "x");
          [reflexivity | apply skip; [reflexivity | reflexivity | exact Lx]]).
    rewrite loop_skips
      by (apply (exec_none_lacks "f");
          [reflexivity | apply skip; [reflexivity | reflexivity | exact Lf]]).
    rewrite loop_skips
      by (apply (exec_none_lacks "x");
          [reflexivity | apply skip; [reflexivity | reflexivity | exact Lx]]).
    rewrite (loop_takes _ _ _ _ ds Hd
               (capture1_found _ _ _ post Hne (minutes_choice ds post Hd))).
    reflexivity.
  - intros Lx Lf Lm.
    replace (ds +:+ " hours" +:+ post) with ((ds +:+ " hours") +:+ post)
      by (rewrite !append_assoc; reflexivity).
    unfold extractExpirationTime.
    rewrite (truthy_digits_front ds _ post Hd).
    cbn [negb]. unfold expirationPatterns.
    rewrite loop_skips
      by (apply (exec_none_lacks "x");
          [reflexivity | apply skip; [reflexivity | reflexivity | exact Lx]]).
    rewrite loop_skips
      by (apply (exec_none_lacks "f");
          [reflexivity | apply skip; [reflexivity | reflexivity | exact Lf]]).
    rewrite loop_skips
      by (apply (exec_none_lacks "x");
          [reflexivity | apply skip; [reflexivity | reflexivity | exact Lx]]).
    rewrite loop_skips
      by (apply (exec_none_lacks "m");
          [reflexivity | apply skip; [reflexivity | reflexivity | exact Lm]]).
    rewrite (loop_takes _ _ _ _ ds Hd
               (capture1_found _ _ _ post Hne (hours_choice ds post Hd))).
    reflexivity.
  - intros Hb. apply double_of_exact. lia.
  - intros Hb. rewrite double_of_exact by lia. apply num_mul_exact. lia.
Qed.

Lemma duration_phrases_witness :
  is_digits "90" = true ∧
  extractExpirationTime ("expires in " +:+ "90" +:+ " minutes" +:+ ", please") (Num 10) =
    Num 90 ∧
  extractExpirationTime ("90" +:+ " hours" +:+ "") (Num 10) = Num 5400.
Proof.
  destruct (duration_phrases "90" ", please" (Num 10) eq_refl) as (H1 & _ & _ & _ & H5 & _).
  destruct (duration_phrases "90" "" (Num 10) eq_refl) as (_ & _ & _ & H4 & _ & H6).
  split; [reflexivity |]. split.
  - rewrite H1. apply H5. vm_compute. discriminate.
  - rewrite H4 by reflexivity. apply H6. vm_compute. discriminate.
Defined.

(** ** The client *)

Lemma send_eq w c meth endpoint body :
  send w c meth endpoint body =
  ([EvRequest (requestConfig c meth endpoint body)],
   responseOf (axiosRequest w (requestConfig c meth endpoint body))).
Proof.
  unfold send, request, responseOf.
  cbn [bind emit ret throw trace outcome fst snd app].
  destruct (axiosRequest w _) as [status body' | r]; [reflexivity |].
  destruct (handleError r) as [t o] eqn:E.
  assert (t = []) as ->; [| reflexivity].
  unfold handleError in E.
  destruct r as [message [[status []] | ] [] | e]; injection E as <- _; reflexivity.
Qed.

Lemma rejected_fails r :
  (∃ e, responseOf (Rejected r) = inl e) ∨
  (∃ resp, responseOf (Rejected r) = inr resp ∧ success resp = false ∧
           resp_data resp = JUndefined).
Proof.
  unfold responseOf, handleError.
  destruct r as [message [[status []] | ] [] | e];
    first [ left; eexists; reflexivity
          | right; eexists; split; [reflexivity | split; reflexivity] ].
Qed.

Lemma handleError_throws r :
  (∃ e, outcome (handleError r) = inl e) ↔
  ∃ message status body requested,
    r = AxiosError message (Some (status, body)) requested ∧ is_nullish body = true.
Proof.
  unfold handleError. split.
  - intros [e H].
    destruct r as [message [[status []] | ] [] | e']; try discriminate H;
      eexists _, _, _, _; split; reflexivity.
  - intros (message & status & body & requested & -> & H).
    destruct body; try discriminate H; eexists; reflexivity.
Qed.

(** X5.  A call of the client makes exactly one axios request, with the
    base URL and the API key of the client, the key in the X-C3-API-KEY
    header, and a timeout of 30 seconds.  The response reports success
    exactly when axios resolved, and then carries the body and the status
    of the answer; a response that reports a failure carries no data.
    The call throws in one case only: axios rejected with an answer of
    the server whose body is null or undefined. *)
Theorem client_call_contract (w : World) (c : Comput3ApiClient) (meth endpoint : string)
    (body : option (gmap string jsval)) :
  let call := send w c meth endpoint body in
  let config := requestConfig c meth endpoint body in
  trace call = [EvRequest config] ∧
  baseURL config = client_baseURL c ∧
  timeout config = 30000%Z ∧
  apiKeyHeader config = ("X-C3-API-KEY", client_apiKey c) ∧
  (∀ r, outcome call = inr r ->
        (success r = true ↔ ∃ status b, axiosRequest w config = Resolved status b) ∧
        (∀ status b, axiosRequest w config = Resolved status b ->
                     resp_data r = b ∧ statusCode r = JNum (Num status) ∧
                     error r = JUndefined) ∧
        (success r = false -> resp_data r = JUndefined)) ∧
  ((∃ e, outcome call = inl e) ↔
   ∃ message status b requested,
     axiosRequest w config = Rejected (AxiosError message (Some (status, b)) requested) ∧
     is_nullish b = true).
Proof.
  cbv zeta. rewrite send_eq. cbn [trace outcome fst snd].
  split; [reflexivity |]. split; [reflexivity |]. split; [reflexivity |].
  split; [reflexivity |].
  destruct (axiosRequest w _) as [status b | r] eqn:Net; cbn [responseOf].
  - split.
    + intros r [= <-]. cbn. split; [| split].
      * split; [eauto | reflexivity].
      * intros status' b' [= <- <-]. auto.
      * discriminate.
    + split; [intros [e H]; discriminate H |].
      intros (message & status' & b' & rq & H & _). discriminate H.
  - split.
    + intros resp H.
      destruct (rejected_fails r) as [[e He] | (resp' & He & Hs & Hd)];
        unfold responseOf in He; rewrite He in H; [discriminate H |]. injection H as <-.
      split; [| split].
      * rewrite Hs. split; [discriminate | intros (s & b & H); discriminate H].
      * intros s b H. discriminate H.
      * intros _. exact Hd.
    + rewrite handleError_throws. split.
      * intros (message & status & b & rq & -> & H). eauto 10.
      * intros (message & status & b & rq & [= ->] & H). eauto 10.
Qed.

(** ** Success and failure of a turn *)

(** Symbolic execution that keeps what the service answered. *)
Ltac net_step :=
  match goal with
  | |- context [launchRequest ?w (if is_undefined (get ?c "expires") then _ else ?c)] =>
      rewrite (launchRequest_spec w c)
  | |- context [send ?w ?c ?m ?e ?b] =>
      rewrite (send_eq w c m e b);
      let Net := fresh "Net" in
      destruct (axiosRequest w (requestConfig c m e b)) as [? ? | ?r] eqn:Net;
      [ cbn [responseOf]
      | let resp := fresh "resp" in
        let He := fresh "He" in
        destruct (rejected_fails r) as [[? He] | (resp & He & ? & ?)];
        rewrite He;
        [ | destruct resp; cbn [success resp_data] in *; subst ] ]
  | |- context [isLaunchWorkloadContent ?g] =>
      destruct (isLaunchWorkloadContent g) eqn:?
  | |- context [isStopWorkloadContent ?g] =>
      destruct (isStopWorkloadContent g) eqn:?
  | |- context [match ?x with _ => _ end] =>
      lazymatch x with
      | context [match _ with _ => _ end] => fail
      | _ => destruct x eqn:?
      end
  end.

Ltac net_run_step :=
  cbn [bind ret throw emit try_catch app fst snd trace outcome negb orb andb
       callbacks requests attempts omap list_omap
       success resp_data error statusCode answer last] in *.

Ltac net_run := net_run_step; repeat (net_step; net_run_step).

Ltac net_handler w :=
  let K := fresh "K" in
  destruct (truthy (apiKeySetting w)) eqn:K;
  [ rewrite (client_present w K), bind_ret | rewrite (client_missing w K), bind_throw ];
  unfold_handlers; net_run.

Ltac flip_negb :=
  repeat match goal with
         | H : negb _ = true |- _ => apply negb_true_iff in H
         | H : negb _ = false |- _ => apply negb_false_iff in H
         end.


Ltac unfold_fetch :=
  unfold getWorkloadTypesAction_handler, getUserBalanceAction_handler,
    getUserProfileAction_handler, fetchHandler,
    formatWorkloadTypes, formatUserBalance, formatUserProfile.

Lemma list_answers_once w message :
  answers_once (listWorkloadsAction_handler w message) ∧
  attempts (trace (listWorkloadsAction_handler w message)) = [] ∧
  (List.length (requests (trace (listWorkloadsAction_handler w message))) <= 1)%nat.
Proof.
  unfold answers_once, listWorkloadsAction_handler, listHandlerBody.
  net_handler w.
  all: split; [close_answer | split; [reflexivity | cbn; lia]].
Qed.

Lemma fetch_answers_once w :
  (answers_once (getWorkloadTypesAction_handler w) ∧
   attempts (trace (getWorkloadTypesAction_handler w)) = [] ∧
   (List.length (requests (trace (getWorkloadTypesAction_handler w))) <= 1)%nat) ∧
  (answers_once (getUserBalanceAction_handler w) ∧
   attempts (trace (getUserBalanceAction_handler w)) = [] ∧
   (List.length (requests (trace (getUserBalanceAction_handler w))) <= 1)%nat) ∧
  (answers_once (getUserProfileAction_handler w) ∧
   attempts (trace (getUserProfileAction_handler w)) = [] ∧
   (List.length (requests (trace (getUserProfileAction_handler w))) <= 1)%nat).
Proof.
  unfold answers_once. unfold_fetch.
  split; [| split]; net_handler w.
  all: split; [close_answer | split; [reflexivity | cbn; lia]].
Qed.

(** X6.  Every turn of the list, workload-types, balance and profile
    handlers invokes the callback exactly once, with a success field equal
    to the value that the handler returns; no exception escapes.  These
    handlers never consult the model or the deterministic extractors, and
    send at most one request per turn. *)
Theorem read_only_turns_answer_once (w : World) (message : Memory) :
  (answers_once (listWorkloadsAction_handler w message) ∧
   attempts (trace (listWorkloadsAction_handler w message)) = [] ∧
   (List.length (requests (trace (listWorkloadsAction_handler w message))) <= 1)%nat) ∧
  (answers_once (getWorkloadTypesAction_handler w) ∧
   attempts (trace (getWorkloadTypesAction_handler w)) = [] ∧
   (List.length (requests (trace (getWorkloadTypesAction_handler w))) <= 1)%nat) ∧
  (answers_once (getUserBalanceAction_handler w) ∧
   attempts (trace (getUserBalanceAction_handler w)) = [] ∧
   (List.length (requests (trace (getUserBalanceAction_handler w))) <= 1)%nat) ∧
  (answers_once (getUserProfileAction_handler w) ∧
   attempts (trace (getUserProfileAction_handler w)) = [] ∧
   (List.length (requests (trace (getUserProfileAction_handler w))) <= 1)%nat).
Proof.
  split; [apply list_answers_once | apply fetch_answers_once].
Qed.

(** ** The API key of a request *)

(** X7.  [validate] and the client factory agree: an action validates
    exactly when [createComput3ApiClient] returns a client, and fails to
    validate exactly when the factory throws "Comput3AI API key is
    required but not provided".  The client that the factory returns has
    the base URL of the service and a truthy API key, which is the
    runtime setting COMPUT3AI_API_KEY when that is truthy and the
    environment variable of the same name otherwise. *)
Theorem validate_agrees_with_client (w : World) :
  (validate w = true ↔ ∃ c, createComput3ApiClient w = ret c) ∧
  (validate w = false ↔
   createComput3ApiClient w = throw (Error "Comput3AI API key is required but not provided")) ∧
  (∀ c, createComput3ApiClient w = ret c ->
        client_baseURL c = "https://api.comput3.ai/api/v0" ∧
        truthy (client_apiKey c) = true ∧
        client_apiKey c =
          if truthy (getSetting w "COMPUT3AI_API_KEY")
          then getSetting w "COMPUT3AI_API_KEY"
          else env_value w "COMPUT3AI_API_KEY").
Proof.
  unfold validate. destruct (truthy (apiKeySetting w)) eqn:K.
  - rewrite (client_present w K). split; [| split].
    + split; [eauto | reflexivity].
    + split; [discriminate | intros H; discriminate H].
    + intros c [= <-]. cbn. split; [reflexivity |]. split; [exact K | reflexivity].
  - rewrite (client_missing w K). split; [| split].
    + split; [discriminate | intros [c H]; discriminate H].
    + split; reflexivity.
    + intros c H. discriminate H.
Qed.

Ltac authorised_branch K :=
  let H := fresh "Hin" in
  intros ? H;
  first [ apply elem_of_nil in H as []
        | apply list_elem_of_singleton in H as ->;
          repeat split; first [reflexivity | exact K | eexists; reflexivity] ].

Lemma launch_authorised w message state cfg :
  cfg ∈ requests (trace (launchWorkloadAction_handler w message state)) ->
  authorised w cfg ∧ method cfg = "POST" ∧ url cfg = ENDPOINTS.LAUNCH ∧ is_Some (data cfg).
Proof.
  revert cfg. unfold authorised, validate, launchWorkloadAction_handler, launchHandlerBody.
  run_handler w; authorised_branch K.
Qed.

Lemma stop_authorised w message state cfg :
  cfg ∈ requests (trace (stopWorkloadAction_handler w message state)) ->
  authorised w cfg ∧ method cfg = "POST" ∧ url cfg = ENDPOINTS.STOP ∧ is_Some (data cfg).
Proof.
  revert cfg. unfold authorised, validate, stopWorkloadAction_handler, stopHandlerBody.
  run_handler w; authorised_branch K.
Qed.

Lemma list_authorised w message cfg :
  cfg ∈ requests (trace (listWorkloadsAction_handler w message)) ->
  authorised w cfg ∧ method cfg = "POST" ∧ url cfg = ENDPOINTS.WORKLOADS ∧ is_Some (data cfg).
Proof.
  revert cfg. unfold authorised, validate, listWorkloadsAction_handler, listHandlerBody.
  run_handler w; authorised_branch K.
Qed.

Lemma types_authorised w cfg :
  cfg ∈ requests (trace (getWorkloadTypesAction_handler w)) ->
  authorised w cfg ∧ method cfg = "GET" ∧ url cfg = ENDPOINTS.TYPES ∧ data cfg = None.
Proof.
  revert cfg. unfold authorised, validate. unfold_fetch. run_handler w; authorised_branch K.
Qed.

Lemma balance_authorised w cfg :
  cfg ∈ requests (trace (getUserBalanceAction_handler w)) ->
  authorised w cfg ∧ method cfg = "GET" ∧ url cfg = ENDPOINTS.BALANCE ∧ data cfg = None.
Proof.
  revert cfg. unfold authorised, validate. unfold_fetch. run_handler w; authorised_branch K.
Qed.

Lemma profile_authorised w cfg :
  cfg ∈ requests (trace (getUserProfileAction_handler w)) ->
  authorised w cfg ∧ method cfg = "GET" ∧ url cfg = ENDPOINTS.PROFILE ∧ data cfg = None.
Proof.
  revert cfg. unfold authorised, validate. unfold_fetch. run_handler w; authorised_branch K.
Qed.

(** X8.  Every request that a handler sends carries the credentials of
    the runtime: it is sent only when the API key is set, to the base URL
    of the service, with the timeout of 30 seconds and the key in the
    X-C3-API-KEY header.  The launch, stop and list handlers POST a body to
    /launch, /stop and /workloads; the workload-types, balance and profile
    handlers GET /types, /balance and /profile without a body. *)
Theorem every_request_is_authorised (w : World) (message : Memory) (state : State)
    (cfg : AxiosRequestConfig) :
  (cfg ∈ requests (trace (launchWorkloadAction_handler w message state)) ->
   authorised w cfg ∧ method cfg = "POST" ∧ url cfg = "/launch" ∧ is_Some (data cfg)) ∧
  (cfg ∈ requests (trace (stopWorkloadAction_handler w message state)) ->
   authorised w cfg ∧ method cfg = "POST" ∧ url cfg = "/stop" ∧ is_Some (data cfg)) ∧
  (cfg ∈ requests (trace (listWorkloadsAction_handler w message)) ->
   authorised w cfg ∧ method cfg = "POST" ∧ url cfg = "/workloads" ∧ is_Some (data cfg)) ∧
  (cfg ∈ requests (trace (getWorkloadTypesAction_handler w)) ->
   authorised w cfg ∧ method cfg = "GET" ∧ url cfg = "/types" ∧ data cfg = None) ∧
  (cfg ∈ requests (trace (getUserBalanceAction_handler w)) ->
   authorised w cfg ∧ method cfg = "GET" ∧ url cfg = "/balance" ∧ data cfg = None) ∧
  (cfg ∈ requests (trace (getUserProfileAction_handler w)) ->
   authorised w cfg ∧ method cfg = "GET" ∧ url cfg = "/profile" ∧ data cfg = None) ∧
  API_CONFIG.BASE_URL = "https://api.comput3.ai/api/v0" ∧
  API_CONFIG.TIMEOUT = 30000%Z ∧
  API_CONFIG.API_KEY_HEADER = "X-C3-API-KEY".
Proof.
  split; [apply launch_authorised |].
  split; [apply stop_authorised |].
  split; [apply list_authorised |].
  split; [apply types_authorised |].
  split; [apply balance_authorised |].
  split; [apply profile_authorised |].
  repeat split.
Qed.








(** ** How a failure of the service reaches the user *)











(** ** Answers of the service that the formatters cannot read *)










(** ** The request of the stop handler *)

Lemma isStopWorkloadContent_spec (c : gmap string jsval) :
  isStopWorkloadContent c = true ↔ ∃ id, get c "workload" = JStr id ∧ id ≠ "".
Proof.
  unfold isStopWorkloadContent.
  destruct (get c "workload") as [ | | [] | [z | | neg | m e] | [| a s] | o | l];
    cbn; rewrite ?orb_true_r;
    (split; [ intros H; first [discriminate H | eexists; split; [reflexivity | discriminate]]
            | intros (id & H1 & H2); congruence ]).
Qed.

Lemma get_union_workload (c : gmap string jsval) workload :
  c !! "workload" = Some (JStr workload) ->
  get (c ∪ {[ "workload" := JStr workload ]}) "workload" = JStr workload.
Proof.
  intros H. unfold get. rewrite (lookup_union_l' c _ "workload") by (rewrite H; eauto).
  rewrite H. reflexivity.
Qed.

Lemma stop_request_from w message state :
  requests (trace (stopWorkloadAction_handler w message state)) = [] ∨
  ∃ id,
    id ≠ "" ∧
    stopIdSource w message id ∧
    requests (trace (stopWorkloadAction_handler w message state)) =
      [requestConfig (clientOf w) "POST" ENDPOINTS.STOP (Some {[ "workload" := JStr id ]})] ∧
    ∃ c, callbacks (trace (stopWorkloadAction_handler w message state)) =
           [progress_notice (JStr id); c].
Proof.
  unfold stopWorkloadAction_handler, stopHandlerBody, stopIdSource, stopStructured,
    progress_notice, clientOf.
  net_handler w; flip_negb; try (left; reflexivity).
  all: right;
    match goal with
    | H : isStopWorkloadContent _ = true |- _ =>
        apply isStopWorkloadContent_spec in H as (id & Hid & Hne)
    end.
  all: try rewrite get_union_workload in * by eassumption.
  all: try match goal with
           | H : get {[ "workload" := JStr ?s ]} "workload" = _ |- _ =>
               change (get {[ "workload" := JStr s ]} "workload") with (JStr s) in *
           end.
  all: try match goal with H : JStr _ = JStr _ |- _ => injection H as -> end.
  all: try rewrite Hid.
  all: exists id; (split; [exact Hne |]); split;
    [ | split; [reflexivity | eexists; reflexivity ] ].
  all: first
    [ left; eexists; split; [reflexivity | eassumption]
    | right; left; eexists _, _; split; [reflexivity |];
      split; [eassumption |]; split; [reflexivity | eassumption]
    | right; right; eexists _, _, _, _, _; split; [reflexivity |];
      split; [eassumption |]; split; [reflexivity |];
      split; [eassumption |]; split; [eassumption |]; split; eassumption ].
Qed.

Lemma stop_structured_no_attempt w message state :
  stopStructured message = true ->
  attempts (trace (stopWorkloadAction_handler w message state)) = [].
Proof.
  unfold stopStructured. intros S.
  unfold stopWorkloadAction_handler, stopHandlerBody.
  run_handler w; try discriminate S; reflexivity.
Qed.

(** X12.  Whenever the stop handler sends a request, it is a single POST to
    the stop endpoint whose body is {workload: id} for a non-empty string
    id, and the turn has exactly two callbacks, the first of which is the
    progress notice for that same id.  The id is the workload field of a
    structured message, or what the deterministic extractors find in the
    text of the message, or, when they find nothing, the workload field
    of the model's answer.  A structured message is never handed to the
    extractors or to the model. *)
Theorem stop_request_names_the_workload (w : World) (message : Memory) (state : State) :
  (requests (trace (stopWorkloadAction_handler w message state)) = [] ∨
   ∃ id,
     id ≠ "" ∧
     stopIdSource w message id ∧
     requests (trace (stopWorkloadAction_handler w message state)) =
       [requestConfig (clientOf w) "POST" ENDPOINTS.STOP
          (Some {[ "workload" := JStr id ]})] ∧
     ∃ c, callbacks (trace (stopWorkloadAction_handler w message state)) =
            [progress_notice (JStr id); c]) ∧
  (stopStructured message = true ->
   attempts (trace (stopWorkloadAction_handler w message state)) = []).
Proof.
  split; [apply stop_request_from | apply stop_structured_no_attempt].
Qed.






(** ** Turns of the stop and list handlers that end before the request *)

Lemma stop_without_content w state :
  validate w = true ->
  stopWorkloadAction_handler w {| content := None |} state = failedTurn [] noContentMessage.
Proof.
  unfold validate. intros K. unfold stopWorkloadAction_handler, stopHandlerBody.
  rewrite (client_present w K), bind_ret. reflexivity.
Qed.

Lemma stop_without_text w message state c :
  validate w = true ->
  content message = Some c ->
  stopStructured message = false ->
  (∀ text, c !! "text" ≠ Some (JStr text)) ->
  stopWorkloadAction_handler w message state = failedTurn [] noContentMessage.
Proof.
  unfold validate, stopStructured. intros K C S T.
  unfold stopWorkloadAction_handler, stopHandlerBody, stopExtraction.
  rewrite (client_present w K), bind_ret. rewrite C in *.
  destruct (c !! "workload") as [[ | | | | | |] |]; try discriminate S;
    destruct (c !! "text") as [[ | | | | text | |] |]; try reflexivity;
    exfalso; apply (T text); reflexivity.
Qed.

Lemma stop_structured_empty w message state c :
  validate w = true ->
  content message = Some c ->
  c !! "workload" = Some (JStr "") ->
  stopWorkloadAction_handler w message state =
  failedTurn [] ERROR_MESSAGES.INVALID_WORKLOAD_ID.
Proof.
  unfold validate. intros K C W.
  unfold stopWorkloadAction_handler, stopHandlerBody, stopExtraction.
  rewrite (client_present w K), bind_ret, C, W.
  unfold_handlers. run_step. unfold isStopWorkloadContent.
  rewrite (get_union_workload c "" W). reflexivity.
Qed.

Lemma stop_model_without_workload w message state c text result candidate :
  validate w = true ->
  content message = Some c ->
  stopStructured message = false ->
  c !! "text" = Some (JStr text) ->
  validateStopWorkloadFromText text = None ->
  useModel w (stopPrompt state) = inr result ->
  parseJSONObjectFromText w result = Some candidate ->
  isStopWorkloadContent candidate = false ->
  stopWorkloadAction_handler w message state =
  failedTurn [EvDirectExtraction text; EvUseModel (stopPrompt state)]
    "Could not extract workload ID".
Proof.
  unfold validate, stopStructured, stopPrompt. intros K C S T V U P I.
  unfold stopWorkloadAction_handler, stopHandlerBody, stopExtraction.
  rewrite (client_present w K), bind_ret. rewrite C in *. rewrite T.
  destruct (c !! "workload") as [[ | | | | | |] |]; try discriminate S;
    unfold_handlers; run_step; rewrite V; run_step; rewrite U; run_step;
    rewrite P; run_step; rewrite I; reflexivity.
Qed.

(** X14.  Turns of the stop handler that end before any request, with an
    API key set.  A message without content, or whose content has neither
    a string as workload nor a string as text, is answered with "No valid
    message content to extract workload ID from".  A structured message
    whose workload is the empty string is answered with "Invalid workload
    ID provided", and its text is not searched.  When the extractors find
    no identifier in the text and the model answers an object without a
    non-empty string as workload, the turn is answered with "Could not
    extract workload ID" after exactly these two attempts. *)
Theorem stop_stops_before_request (w : World) (message : Memory) (state : State) :
  validate w = true ->
  stopWorkloadAction_handler w {| content := None |} state =
    failedTurn [] "No valid message content to extract workload ID from" ∧
  (∀ c, content message = Some c ->
        stopStructured message = false ->
        (∀ text, c !! "text" ≠ Some (JStr text)) ->
        stopWorkloadAction_handler w message state =
        failedTurn [] "No valid message content to extract workload ID from") ∧
  (∀ c, content message = Some c ->
        c !! "workload" = Some (JStr "") ->
        stopWorkloadAction_handler w message state =
        failedTurn [] "Invalid workload ID provided") ∧
  (∀ c text result candidate,
        content message = Some c ->
        stopStructured message = false ->
        c !! "text" = Some (JStr text) ->
        validateStopWorkloadFromText text = None ->
        useModel w (stopPrompt state) = inr result ->
        parseJSONObjectFromText w result = Some candidate ->
        isStopWorkloadContent candidate = false ->
        stopWorkloadAction_handler w message state =
        failedTurn [EvDirectExtraction text; EvUseModel (stopPrompt state)]
          "Could not extract workload ID").
Proof.
  intros K. split; [apply stop_without_content, K |].
  split; [intros c; apply stop_without_text, K |].
  split; [intros c; apply stop_structured_empty, K |].
  intros c text result candidate. apply stop_model_without_workload, K.
Qed.

Lemma stop_stops_before_request_witness :
  validate Examples.world = true ∧
  stopWorkloadAction_handler Examples.world
    (Examples.text_message "please stop it") Examples.no_state =
  failedTurn [EvDirectExtraction "please stop it"; EvUseModel (stopPrompt Examples.no_state)]
    "Could not extract workload ID".
Proof.
  split; [reflexivity |].
  destruct (stop_stops_before_request Examples.world
              (Examples.text_message "please stop it") Examples.no_state eq_refl)
    as (_ & _ & _ & H).
  apply (H {[ "text" := JStr "please stop it" ]} "please stop it" "{}" ∅);
    first [reflexivity | vm_compute; reflexivity].
Defined.

Lemma list_untyped_text w message c :
  validate w = true ->
  content message = Some c ->
  truthy (get c "text") = true ->
  String.eqb (typeof (get c "text")) "string" = false ->
  listWorkloadsAction_handler w message =
  failedTurn [] "messageText.toLowerCase is not a function".
Proof.
  unfold validate. intros K C T S.
  unfold listWorkloadsAction_handler, listHandlerBody, messageTextOf.
  rewrite (client_present w K), bind_ret, C. unfold js_or. rewrite T.
  destruct (get c "text"); try discriminate S; reflexivity.
Qed.

(** X15.  The list handler fails before any request when the text of the
    message is a truthy value that is not a string: lower-casing it
    throws, the turn is answered with the message of that TypeError, and
    no request is sent. *)
Theorem list_rejects_text_that_is_no_string (w : World) (message : Memory)
    (c : gmap string jsval) :
  validate w = true ->
  content message = Some c ->
  truthy (get c "text") = true ->
  String.eqb (typeof (get c "text")) "string" = false ->
  (∃ text, listWorkloadsAction_handler w message = failedTurn [] text) ∧
  requests (trace (listWorkloadsAction_handler w message)) = [].
Proof.
  intros K C T S. rewrite (list_untyped_text w message c K C T S).
  split; [eexists; reflexivity | reflexivity].
Qed.

Lemma list_rejects_text_that_is_no_string_witness :
  (∃ text, listWorkloadsAction_handler Examples.world
             {| content := Some {[ "text" := JNum (Num 7) ]} |} = failedTurn [] text) ∧
  requests (trace (listWorkloadsAction_handler Examples.world
                     {| content := Some {[ "text" := JNum (Num 7) ]} |})) = [].
Proof.
  apply (list_rejects_text_that_is_no_string Examples.world
           {| content := Some {[ "text" := JNum (Num 7) ]} |}
           {[ "text" := JNum (Num 7) ]}); reflexivity.
Defined.

(** ** Turns of the launch handler that end before the request *)

Lemma launch_structured_invalid w message state c :
  validate w = true ->
  content message = Some c -> has c "type" = true ->
  isLaunchWorkloadContent c = false ->
  launchWorkloadAction_handler w message state =
  failedTurn [] ERROR_MESSAGES.INVALID_WORKLOAD_TYPE.
Proof.
  unfold validate. intros K C T V.
  unfold launchWorkloadAction_handler, launchHandlerBody, launchExtraction.
  rewrite (client_present w K), bind_ret, C, T.
  unfold_handlers. run_step. rewrite V. reflexivity.
Qed.

Lemma launch_model_throws w message state e :
  validate w = true -> launchStructured message = false ->
  useModel w (launchPrompt state) = inl e ->
  launchWorkloadAction_handler w message state =
  failedTurn [EvUseModel (launchPrompt state)] (caughtMessage e).
Proof.
  unfold validate, launchStructured, launchPrompt. intros K S U.
  unfold launchWorkloadAction_handler, launchHandlerBody, launchExtraction.
  rewrite (client_present w K), bind_ret, S.
  unfold_handlers. rewrite U. reflexivity.
Qed.

Lemma launch_model_without_json w message state result :
  validate w = true -> launchStructured message = false ->
  useModel w (launchPrompt state) = inr result ->
  parseJSONObjectFromText w result = None ->
  launchWorkloadAction_handler w message state =
  failedTurn [EvUseModel (launchPrompt state)] "Cannot read properties of null (reading 'type')".
Proof.
  unfold validate, launchStructured, launchPrompt. intros K S U P.
  unfold launchWorkloadAction_handler, launchHandlerBody, launchExtraction.
  rewrite (client_present w K), bind_ret, S.
  unfold_handlers. rewrite U. run_step. rewrite P. reflexivity.
Qed.

(** X16.  Turns of the launch handler that end before any request, with an
    API key set.  A structured message (one whose content has a type
    field) whose content fails the validator is answered with "Invalid
    workload type provided": neither the model nor the deterministic
    extractors are consulted to repair it, whatever the text of the
    message says.  For an unstructured message, when the model call
    rejects, the turn is answered with the message of the rejection; when
    the model answers a text in which the host's parser finds no JSON
    object, the turn is answered with a TypeError message.  In both cases
    the deterministic extractors are never tried. *)
Theorem launch_stops_before_request (w : World) (message : Memory) (state : State) :
  validate w = true ->
  (∀ c, content message = Some c -> has c "type" = true ->
        isLaunchWorkloadContent c = false ->
        launchWorkloadAction_handler w message state =
        failedTurn [] ERROR_MESSAGES.INVALID_WORKLOAD_TYPE) ∧
  (∀ e, launchStructured message = false ->
        useModel w (launchPrompt state) = inl e ->
        launchWorkloadAction_handler w message state =
        failedTurn [EvUseModel (launchPrompt state)] (caughtMessage e)) ∧
  (∀ result, launchStructured message = false ->
        useModel w (launchPrompt state) = inr result ->
        parseJSONObjectFromText w result = None ->
        ∃ text, launchWorkloadAction_handler w message state =
                failedTurn [EvUseModel (launchPrompt state)] text).
Proof.
  intros K. split; [| split].
  - intros c. apply launch_structured_invalid, K.
  - intros e S. apply launch_model_throws; assumption.
  - intros result S U P. eexists.
    apply (launch_model_without_json w message state result); assumption.
Qed.

Lemma launch_stops_before_request_witness :
  validate Scenarios.model_down = true ∧
  launchWorkloadAction_handler Scenarios.model_down Examples.launch_message
    Examples.no_state =
  failedTurn [EvUseModel (launchPrompt Examples.no_state)] "model unavailable" ∧
  (∃ text, launchWorkloadAction_handler Scenarios.model_chatty Examples.launch_message
             Examples.no_state =
           failedTurn [EvUseModel (launchPrompt Examples.no_state)] text) ∧
  validateLaunchWorkloadFromText "Launch a media:fast workload for 30 minutes" =
    Some ("media:fast", Num 30).
Proof.
  split; [reflexivity |].
  destruct (launch_stops_before_request Scenarios.model_down Examples.launch_message
              Examples.no_state eq_refl) as (_ & H & _).
  destruct (launch_stops_before_request Scenarios.model_chatty Examples.launch_message
              Examples.no_state eq_refl) as (_ & _ & H').
  split; [apply (H (Error "model unavailable")); reflexivity |].
  split; [apply (H' "I cannot tell."); reflexivity |].
  vm_compute. reflexivity.
Defined.

(** ** The fallback of the launch handler *)

Lemma launch_fallback_trace w message state c text result candidate :
  validate w = true ->
  content message = Some c ->
  has c "type" = false ->
  get c "text" = JStr text ->
  useModel w (launchPrompt state) = inr result ->
  parseJSONObjectFromText w result = Some candidate ->
  isLaunchWorkloadContent candidate = false ->
  match validateLaunchWorkloadFromText text with
  | Some p =>
      requests (trace (launchWorkloadAction_handler w message state)) =
        [requestConfig (clientOf w) "POST" ENDPOINTS.LAUNCH
           (Some {[ "type" := JStr (fst p);
                    "expires" := JNum (expiresAtUnixSeconds (dateNow w) (snd p)) ]})] ∧
      attempts (trace (launchWorkloadAction_handler w message state)) =
        [ModelAssisted (launchPrompt state); Deterministic text]
  | None =>
      launchWorkloadAction_handler w message state =
      failedTurn [EvUseModel (launchPrompt state); EvDirectExtraction text]
        ERROR_MESSAGES.INVALID_WORKLOAD_TYPE
  end.
Proof.
  unfold validate, launchPrompt. intros K C T X U P I.
  unfold launchWorkloadAction_handler, launchHandlerBody, launchExtraction.
  rewrite (client_present w K), bind_ret, C, T.
  unfold_handlers. run_step. rewrite U. run_step. rewrite P. run_step. rewrite I, X.
  run_step.
  pose proof (validateLaunch_result text) as V.
  destruct (validateLaunchWorkloadFromText text) as [p |] eqn:E.
  - destruct V as (_ & _ & _ & _ & V). run_step. rewrite V. run_step.
    rewrite launchParamsOf_expires. cbn [is_undefined].
    unfold launchRequest. rewrite launchParamsOf_type, launchParamsOf_expires.
    cbn [toNumber]. rewrite send_shape. run_step.
    generalize (outcome (send w {| client_baseURL := API_CONFIG.BASE_URL;
                                   client_apiKey := apiKeySetting w |}
                              "POST" ENDPOINTS.LAUNCH
                              (Some {[ "type" := JStr (fst p);
                                       "expires" := JNum (num_add (Num (dateNow w / 1000))
                                                            (num_mul (snd p) (Num 60))) ]}))).
    intros [e | response]; run_step; [split; reflexivity |].
    destruct (negb (success response) || negb (truthy (resp_data response)));
      run_step; split; reflexivity.
  - run_step. rewrite I. reflexivity.
Qed.

(** X17.  The fallback of the launch handler.  With an API key set, for an
    unstructured message with a string as text, when the model answers
    an object that fails the validator: if the deterministic extractor
    finds launch parameters in the text, the handler sends exactly one
    request, to /launch, whose type is the extracted type and whose
    expires is floor(now / 1000) + 60 * minutes for the extracted number
    of minutes, which is a natural number or the positive infinity, never
    NaN or negative; the product and the sum are those of JavaScript, and
    are the exact integers when neither exceeds 2^53.  The attempts of the
    turn are the model, then the extractor.  If the extractor finds nothing, the turn
    is answered with "Invalid workload type provided" and no request is
    sent. *)
Theorem launch_falls_back_on_the_text (w : World) (message : Memory) (state : State)
    (c : gmap string jsval) (text result : string) (candidate : gmap string jsval) :
  validate w = true ->
  content message = Some c ->
  has c "type" = false ->
  get c "text" = JStr text ->
  useModel w (launchPrompt state) = inr result ->
  parseJSONObjectFromText w result = Some candidate ->
  isLaunchWorkloadContent candidate = false ->
  (∀ type minutes,
     validateLaunchWorkloadFromText text = Some (type, minutes) ->
     natural_or_infinite minutes ∧
     requests (trace (launchWorkloadAction_handler w message state)) =
       [requestConfig (clientOf w) "POST" "/launch"
          (Some {[ "type" := JStr type;
                   "expires" := JNum (expiresAtUnixSeconds (dateNow w) minutes) ]})] ∧
     (∀ n, minutes = Num n ->
           (n * 60 <= 2 ^ 53)%Z ->
           (Z.abs (dateNow w / 1000 + n * 60) <= 2 ^ 53)%Z ->
           expiresAtUnixSeconds (dateNow w) minutes = Num (dateNow w / 1000 + n * 60)) ∧
     attempts (trace (launchWorkloadAction_handler w message state)) =
       [ModelAssisted (launchPrompt state); Deterministic text]) ∧
  (validateLaunchWorkloadFromText text = None ->
   launchWorkloadAction_handler w message state =
   failedTurn [EvUseModel (launchPrompt state); EvDirectExtraction text]
     "Invalid workload type provided").
Proof.
  intros K C T X U P I.
  pose proof (launch_fallback_trace w message state c text result candidate K C T X U P I)
    as F.
  pose proof (validateLaunch_result text) as V.
  split.
  - intros type minutes E. rewrite E in F, V. cbn [fst snd] in F, V.
    destruct V as (_ & _ & _ & N & _). destruct F as [R A].
    split; [exact N |]. split; [exact R |]. split; [| exact A].
    intros n -> H1 H2. apply expiresAtUnixSeconds_exact; [| exact H2].
    destruct N as [(n' & [= <-] & Hn) | N]; [lia | discriminate N].
  - intros E. rewrite E in F. exact F.
Qed.

Lemma launch_falls_back_on_the_text_witness :
  requests (trace (launchWorkloadAction_handler Examples.world Examples.launch_message
                     Examples.no_state)) =
    [requestConfig (clientOf Examples.world) "POST" "/launch"
       (Some {[ "type" := JStr "media:fast";
                "expires" := JNum (Num (dateNow Examples.world / 1000 + 30 * 60)) ]})] ∧
  attempts (trace (launchWorkloadAction_handler Examples.world Examples.launch_message
                     Examples.no_state)) =
    [ModelAssisted (launchPrompt Examples.no_state);
     Deterministic "Launch a media:fast workload for 30 minutes"].
Proof.
  destruct (launch_falls_back_on_the_text Examples.world Examples.launch_message
              Examples.no_state
              {[ "text" := JStr "Launch a media:fast workload for 30 minutes" ]}
              "Launch a media:fast workload for 30 minutes" "{}" ∅
              eq_refl eq_refl eq_refl eq_refl eq_refl eq_refl eq_refl) as [H _].
  destruct (H "media:fast" (Num 30)) as (_ & R & X & A); [vm_compute; reflexivity |].
  split; [| exact A].
  rewrite R, (X 30%Z eq_refl); [reflexivity | vm_compute; discriminate ..].
Defined.

(** ** The recent messages of a prompt *)

Lemma formatRecentMessages_last_three older recent :
  List.length recent = 3%nat ->
  formatRecentMessages {| messages := Some (older ++ recent)%list |} =
  formatRecentMessages {| messages := Some recent |}.
Proof.
  intros H. unfold formatRecentMessages. cbn [messages default from_option]. unfold id.
  rewrite length_app, H.
  replace (List.length older + 3 - 3)%nat with (List.length older + 0)%nat by lia.
  rewrite drop_app_add. replace (3 - 3)%nat with 0%nat by lia. reflexivity.
Qed.

Lemma formatRecentMessages_none :
  formatRecentMessages {| messages := None |} = "" ∧
  formatRecentMessages {| messages := Some [] |} = "".
Proof. split; reflexivity. Qed.

Lemma handlers_read_state_through_prompt w message state state' :
  formatRecentMessages state = formatRecentMessages state' ->
  launchWorkloadAction_handler w message state =
    launchWorkloadAction_handler w message state' ∧
  stopWorkloadAction_handler w message state =
    stopWorkloadAction_handler w message state'.
Proof.
  intros H.
  unfold launchWorkloadAction_handler, launchHandlerBody, launchExtraction,
    stopWorkloadAction_handler, stopHandlerBody, stopExtraction.
  rewrite H. split; reflexivity.
Qed.

(** X18.  The prompt of a turn quotes only the last three messages of the
    conversation: messages older than the last three change neither the
    text substituted for recentMessages nor, therefore, the turn of the
    launch handler or of the stop handler.  A conversation without
    messages gives the empty text. *)
Theorem prompt_quotes_last_three_messages (w : World) (message : Memory)
    (older recent : list StateMessage) :
  List.length recent = 3%nat ->
  formatRecentMessages {| messages := Some (older ++ recent)%list |} =
    formatRecentMessages {| messages := Some recent |} ∧
  launchWorkloadAction_handler w message {| messages := Some (older ++ recent)%list |} =
    launchWorkloadAction_handler w message {| messages := Some recent |} ∧
  stopWorkloadAction_handler w message {| messages := Some (older ++ recent)%list |} =
    stopWorkloadAction_handler w message {| messages := Some recent |} ∧
  formatRecentMessages {| messages := None |} = "" ∧
  formatRecentMessages {| messages := Some [] |} = "".
Proof.
  intros H. pose proof (formatRecentMessages_last_three older recent H) as E.
  split; [exact E |].
  destruct (handlers_read_state_through_prompt w message _ _ E) as [L S].
  split; [exact L |]. split; [exact S |]. apply formatRecentMessages_none.
Qed.

Lemma prompt_quotes_last_three_messages_witness :
  List.length Scenarios.recent_messages = 3%nat ∧
  formatRecentMessages
    {| messages := Some (Scenarios.older_messages ++ Scenarios.recent_messages)%list |} =
    formatRecentMessages {| messages := Some Scenarios.recent_messages |} ∧
  launchWorkloadAction_handler Examples.world Examples.launch_message
    {| messages := Some (Scenarios.older_messages ++ Scenarios.recent_messages)%list |} =
    launchWorkloadAction_handler Examples.world Examples.launch_message
      {| messages := Some Scenarios.recent_messages |} ∧
  stopWorkloadAction_handler Examples.world Examples.launch_message
    {| messages := Some (Scenarios.older_messages ++ Scenarios.recent_messages)%list |} =
    stopWorkloadAction_handler Examples.world Examples.launch_message
      {| messages := Some Scenarios.recent_messages |} ∧
  formatRecentMessages {| messages := None |} = "" ∧
  formatRecentMessages {| messages := Some [] |} = "".
Proof.
  split; [reflexivity |].
  apply (prompt_quotes_last_three_messages Examples.world Examples.launch_message
           Scenarios.older_messages Scenarios.recent_messages).
  reflexivity.
Defined.

(** ** The type guards of types/index.ts *)



